(** * The animation engine of the contribution heatmap

    A shallow embedding of [src/hooks/useAnimationPatterns.ts]: the grid
    primitives, the seven pattern step functions, the scheduler tick and the
    public operations of the hook, followed by the properties of the
    specification that concern them. Of the component that uses the hook,
    [src/components/ContributionCalendar.tsx], the click handler of the
    letters, the colour level of a cell and the ordinal suffix of a day are
    embedded as well.

    Conventions of the embedding.
    - A JavaScript [number] that the code uses as an integer (cell values,
      indices, counters, sizes) is a [Z]; [number[][]] is [list (list Z)].
      Sums of such numbers are exact, as they are in the code while they
      stay below 2^53 in magnitude, which is the case on grids of 0/1 cells.
    - A value returned by [Math.random()] is the rational it denotes, read
      from an oracle [random : nat -> Q] through a cursor that counts the
      calls made so far. A decimal literal it is compared with is the double
      the literal denotes: [double_0_8] and [double_0_3] are these doubles,
      as rationals. For 0.7 and 0.05 the comparison with 7/10 and 1/20 has
      the same outcome on every double (no double lies between the literal
      and its double), and these two are written [7 # 10] and [5 # 100].
    - The tests that go through [Math.sin], [Math.atan2] or [Math.sqrt] are
      parameters of the development ([waveLive], [spiralLive], [nearRing]):
      only their boolean outcome is used. So are the two products of a draw
      that a new ripple is made of, which round ([scaledFloor],
      [scaledRadius]).
    - Code that can throw returns a [Res]: [RangeError] and [TypeError] are
      the exceptions of the language; [NotNumeric] marks the point where the
      source would go on with [undefined], [NaN] or an array with holes in a
      numeric position, which [list (list Z)] cannot hold.
    - React applies the state updaters of one operation as one transition;
      the embedding has one function per operation, on an explicit record
      for the state of the hook. In [animate] the updater of the state is
      passed to [setAnimationState] from inside the updater of the grid;
      React calls it there and then, or only after the updater of the grid
      has returned. A tick takes a boolean that says which.
    - Objects are values. Where the code changes an object that the state
      still holds ([rippleStep] and the ripples of the previous pattern
      state), the embedding says what the state holds afterwards
      ([rippleStepLeaves]). *)

From Stdlib Require Import ZArith QArith Qround Lia Bool.
From Stdlib Require String DecimalString.
From stdpp Require Import base list.

Import String.StringSyntax.
Delimit Scope string_scope with string.
Local Open Scope Z_scope.

#[local] Set Default Proof Using "Type".

(** ** Results of fallible code *)

Inductive Failure : Type :=
| RangeError
| TypeError
| NotNumeric.

Inductive Res (A : Type) : Type :=
| Ok (a : A)
| Err (e : Failure).

Arguments Ok {A} a.
Arguments Err {A} e.

Definition bind {A B : Type} (m : Res A) (k : A -> Res B) : Res B :=
  match m with
  | Ok a => k a
  | Err e => Err e
  end.

Notation "'let!' x ':=' m 'in' k" := (bind m (fun x => k))
  (at level 10, x pattern, m at level 100, k at level 200).

(** ** Loops *)

(** [for (let i = lo; i < hi; i++) body] *)
Fixpoint forUp {S : Type} (n : nat) (i : Z) (body : Z -> S -> Res S) (s : S) : Res S :=
  match n with
  | O => Ok s
  | Datatypes.S n' => let! s' := body i s in forUp n' (i + 1) body s'
  end.

Definition forRange {S : Type} (lo hi : Z) (body : Z -> S -> Res S) (s : S) : Res S :=
  forUp (Z.to_nat (hi - lo)) lo body s.

(** [for (let i = start; i > stop; i--) body] *)
Fixpoint forDownN {S : Type} (n : nat) (i : Z) (body : Z -> S -> Res S) (s : S) : Res S :=
  match n with
  | O => Ok s
  | Datatypes.S n' => let! s' := body i s in forDownN n' (i - 1) body s'
  end.

Definition forDown {S : Type} (start stop : Z) (body : Z -> S -> Res S) (s : S) : Res S :=
  forDownN (Z.to_nat (start - stop)) start body s.

(** [for (const x of l) body] *)
Fixpoint forOf {A S : Type} (l : list A) (body : A -> S -> Res S) (s : S) : Res S :=
  match l with
  | [] => Ok s
  | x :: l' => let! s' := body x s in forOf l' body s'
  end.

(** [l.map(f)] for a callback that can throw. *)
Fixpoint mapRes {A B : Type} (f : A -> Res B) (l : list A) : Res (list B) :=
  match l with
  | [] => Ok []
  | x :: l' => let! y := f x in let! ys := mapRes f l' in Ok (y :: ys)
  end.

(** [l.map(f)] for a callback that draws random numbers and can throw. *)
Fixpoint mapRand {A B : Type} (f : A -> nat -> Res (B * nat)) (l : list A) (pos : nat)
  : Res (list B * nat) :=
  match l with
  | [] => Ok ([], pos)
  | x :: l' =>
      let! (y, pos1) := f x pos in
      let! (ys, pos2) := mapRand f l' pos1 in
      Ok (y :: ys, pos2)
  end.

(** ** Arrays *)

Abbreviation Row := (list Z).
Abbreviation Grid := (list (list Z)).

(** [l[i]]: [None] stands for [undefined]. *)
Definition index {A : Type} (l : list A) (i : Z) : option A :=
  if i <? 0 then None else l !! Z.to_nat i.

(** [new Array(n).fill(0)]: the allocation throws outside [0 .. 2^32 - 1]. *)
Definition newArray (n : Z) : Res (list Z) :=
  if (n <? 0) || (2 ^ 32 <=? n) then Err RangeError
  else Ok (replicate (Z.to_nat n) 0).

(** [l[i] = v] on an array: inside the array the element is replaced, at
    [l.length] the array grows by one, further out it would get holes, and a
    negative [i] names a property, not an element. *)
Definition setIndex {A : Type} (l : list A) (i : Z) (v : A) : Res (list A) :=
  if i <? 0 then Ok l
  else if i <? Z.of_nat (length l) then Ok (<[Z.to_nat i := v]> l)
  else if i =? Z.of_nat (length l) then Ok (l ++ [v])
  else Err NotNumeric.

(** [g[r][c] = v]: indexing the missing row [undefined] throws. *)
Definition setCell (g : Grid) (r c : Z) (v : Z) : Res Grid :=
  match index g r with
  | None => Err TypeError
  | Some row => let! row' := setIndex row c v in Ok (<[Z.to_nat r := row']> g)
  end.

(** [g[r][c]] where the value may be [undefined]. *)
Definition getCellOpt (g : Grid) (r c : Z) : Res (option Z) :=
  match index g r with
  | None => Err TypeError
  | Some row => Ok (index row c)
  end.

(** [g[r][c]] used as a number. *)
Definition getCell (g : Grid) (r c : Z) : Res Z :=
  let! v := getCellOpt g r c in
  match v with
  | None => Err NotNumeric
  | Some z => Ok z
  end.

(** [g.map(row => [...row])] *)
Definition copyGrid (g : Grid) : Grid := map (fun row => map (fun x => x) row) g.

(** ** 32-bit integer operators *)

Definition toInt32 (z : Z) : Z := (z + 2 ^ 31) mod 2 ^ 32 - 2 ^ 31.
Definition shl32 (a k : Z) : Z := toInt32 (Z.shiftl (toInt32 a) k).
Definition or32 (a b : Z) : Z := Z.lor (toInt32 a) (toInt32 b).

(** ** Rationals compared as booleans *)

Definition Qlt_bool (a b : Q) : bool := negb (Qle_bool b a).
Definition Qgt_bool (a b : Q) : bool := Qlt_bool b a.

(** The doubles that the literals [0.8] and [0.3] denote: the first is
    above 8/10, the second below 3/10. *)
Definition double_0_8 : Q := 3602879701896397 # 4503599627370496.
Definition double_0_3 : Q := 5404319552844595 # 18014398509481984.

(** ** The data model of the hook *)

Inductive AnimationPattern : Type :=
| gameOfLife
| ripple
| wave
| rain
| spiral
| noise
| rule30
| image.

(** One ripple emitter of the ripple pattern. *)
Record Ripple : Type := mkRipple {
  centerRow : Z;
  centerCol : Z;
  radius : Q;
  maxRadius : Q
}.

(** [patternState: any]: the object is [{}], [{ ripples }] or [{ time }]; a
    field that is absent is [None]. *)
Record PatternState : Type := mkPatternState {
  ripples : option (list Ripple);
  time : option Z
}.

Definition emptyPatternState : PatternState :=
  {| ripples := None; time := None |}.

(** What a step function returns: [{ newGrid, hasChanged, patternState? }]. *)
Record StepResult : Type := mkStepResult {
  newGrid : Grid;
  hasChanged : bool;
  stepState : option PatternState
}.

Record AnimationState : Type := mkAnimationState {
  isRunning : bool;
  currentPattern : AnimationPattern;
  generation : Z;
  patternState : PatternState;
  activeLetterIndex : option Z;
  baselineGrid : option Grid
}.

(** The optional callbacks of the hook, recorded in the order they are called. *)
Inductive Notification : Type :=
| Started (pattern : AnimationPattern)
| PatternChanged (pattern : AnimationPattern)
| Stopped.

(** The state of one instance of the hook. [startGrid] is the value of
    [grid] that the memoized [startAnimation] closes over: its dependency list
    is [[onAnimationStart]], so the callback keeps the grid of the render that
    created it until the host passes another [onAnimationStart]. *)
Record Engine : Type := mkEngine {
  grid : Grid;
  animationState : AnimationState;
  startGrid : Grid;
  randomPos : nat;
  notifications : list Notification
}.

(** An operation leaves a state behind even when it throws. *)
Record Outcome : Type := mkOutcome {
  after : Engine;
  thrown : option Failure
}.

Definition Done (e : Engine) : Outcome := {| after := e; thrown := None |}.
Definition Thrown (err : Failure) (e : Engine) : Outcome :=
  {| after := e; thrown := Some err |}.

Definition setGrid (g : Grid) (e : Engine) : Engine :=
  {| grid := g; animationState := animationState e; startGrid := startGrid e;
     randomPos := randomPos e; notifications := notifications e |}.

Definition setAnimationState (s : AnimationState) (e : Engine) : Engine :=
  {| grid := grid e; animationState := s; startGrid := startGrid e;
     randomPos := randomPos e; notifications := notifications e |}.

Definition setRandomPos (pos : nat) (e : Engine) : Engine :=
  {| grid := grid e; animationState := animationState e; startGrid := startGrid e;
     randomPos := pos; notifications := notifications e |}.

Definition notify (n : Notification) (e : Engine) : Engine :=
  {| grid := grid e; animationState := animationState e; startGrid := startGrid e;
     randomPos := randomPos e; notifications := notifications e ++ [n] |}.

(** The grid at an index pair, for statements. *)
Definition cellAt (g : Grid) (r c : Z) : option Z :=
  match index g r with
  | None => None
  | Some row => index row c
  end.

(** A grid of exactly [rows] rows of [cols] cells. *)
Definition hasDims (rows cols : Z) (g : Grid) : Prop :=
  Z.of_nat (length g) = rows /\ Forall (fun row => Z.of_nat (length row) = cols) g.

(** A grid of [rows] rows of at least [cols] cells. *)
Definition hasDimsAtLeast (rows cols : Z) (g : Grid) : Prop :=
  Z.of_nat (length g) = rows /\ Forall (fun row => cols <= Z.of_nat (length row)) g.

(** Every cell is 0 or 1. *)
Definition binaryGrid (g : Grid) : Prop :=
  Forall (Forall (fun v => v = 0 \/ v = 1)) g.

(** The eight offsets around a cell. *)
Definition directions : list (Z * Z) :=
  [(-1, -1); (-1, 0); (-1, 1);
   (0, -1);           (0, 1);
   (1, -1);  (1, 0);  (1, 1)].

(** The table of Rule 30. *)
Definition rule30Table : list Z := [0; 1; 1; 1; 1; 0; 0; 0].

(** The operations of the hook, as the host calls them. A call of [animate]
    comes with the way React runs its updaters: [eager] when the updater of
    the animation state runs inside the updater of the grid. *)
Inductive Action : Type :=
| Animate (eager : bool) (elapsed : Z)
| StartAnimation (pattern : AnimationPattern) (letterIndex : Z)
| StopAnimation
| ChangePattern (pattern : AnimationPattern)
| ResetGrid
| RandomizeGrid
| RenewStartAnimation.

(** The state after the first render, for the grid that [useState] built. *)
Definition firstRender (g : Grid) : Engine :=
  {| grid := g;
     animationState :=
       {| isRunning := false;
          currentPattern := gameOfLife;
          generation := 0;
          patternState := emptyPatternState;
          activeLetterIndex := None;
          baselineGrid := None |};
     startGrid := g;
     randomPos := 0%nat;
     notifications := [] |}.

(** ** Sample inputs *)

(** A random source whose every draw is 0.9. *)
Definition highRandom : nat -> Q := fun _ => 9 # 10.

(** Wave and spiral tests that never hold, and a ring test that never holds. *)
Definition neverLive : Z -> Z -> Z -> bool := fun _ _ _ => false.
Definition neverNear : Z -> Q -> bool := fun _ _ => false.

(** The products of a new ripple without rounding. *)
Definition exactFloor : Q -> Z -> Z := fun d n => Qfloor (d * inject_Z n)%Q.
Definition exactRadius : Q -> Q := fun d => (d * 15 + 5)%Q.

(** A vertical blinker on a 3 x 3 grid. *)
Definition blinker : Grid := [[0; 1; 0]; [0; 1; 0]; [0; 1; 0]].

(** A 2 x 2 grid of arbitrary integers. *)
Definition oddValues : Grid := [[5; -3]; [7; 2]].

(** The Rule 30 seed on a 3 x 5 grid. *)
Definition seed3x5 : Grid := [[0; 0; 0; 0; 0]; [0; 0; 1; 0; 0]; [0; 0; 0; 0; 0]].

(** The 2 x 2 grids of zeros and of ones; the latter is the block, a still
    life of the Game of Life. *)
Definition zeros2x2 : Grid := [[0; 0]; [0; 0]].
Definition block : Grid := [[1; 1]; [1; 1]].

(** A run on a 2 x 2 grid, with every random draw 0.9: the animation starts
    from the grid of zeros, the change to the Game of Life seeds the block,
    the next tick finds it stable and stops, and the host renews
    [startAnimation]. *)
Definition blockRun : list Action :=
  [StartAnimation rule30 4; ChangePattern gameOfLife; Animate true 200; RenewStartAnimation].

(** The state while the block is running: after the first two steps of
    [blockRun]. *)
Definition blockRunning : Engine :=
  {| grid := block;
     animationState :=
       {| isRunning := true;
          currentPattern := gameOfLife;
          generation := 0;
          patternState := emptyPatternState;
          activeLetterIndex := Some 4;
          baselineGrid := Some zeros2x2 |};
     startGrid := zeros2x2;
     randomPos := 4%nat;
     notifications := [Started rule30; PatternChanged gameOfLife] |}.

(** The state at the end of [blockRun]. *)
Definition blockStopped : Engine :=
  {| grid := block;
     animationState :=
       {| isRunning := false;
          currentPattern := gameOfLife;
          generation := 0;
          patternState := emptyPatternState;
          activeLetterIndex := Some 4;
          baselineGrid := Some zeros2x2 |};
     startGrid := block;
     randomPos := 4%nat;
     notifications := [Started rule30; PatternChanged gameOfLife; Stopped] |}.

(** What may happen between start and stop in the sample runs. *)
Definition noiseRun : list Action :=
  [ChangePattern noise; Animate true 200; Animate false 200].

(** ** The calendar component around the hook *)

(** The part of the state of [ContributionCalendar] that the letters and the
    buttons act on: the hook, the flag that selects the real data for
    display, and whether the timer of the click debounce is pending
    ([letterClickDebounceRef.current] holds a timer id). *)
Record Calendar : Type := mkCalendar {
  engine : Engine;
  showRealData : bool;
  letterClickDebounce : bool
}.

(** The pattern of each of the eight letters. *)
Definition animateLetterPatterns : list AnimationPattern :=
  [gameOfLife; noise; wave; spiral; rule30; rain; ripple; gameOfLife].

(** The level of a displayed cell, which selects its colour. *)
Definition level (value : Z) : Z :=
  if 0 <? value
  then if 10 <? value then 4
       else if 5 <? value then 3
            else if 2 <? value then 2
                 else 1
  else 0.

(** The grid that is drawn: the real data or the grid of the hook. *)
Definition displayedGrid (dataGrid : Grid) (c : Calendar) : Grid :=
  if showRealData c then dataGrid else grid (engine c).


(** ** Dates in the tooltips *)

(** The decimal text of an integer, as [+] joins a number to a string. *)
Definition numberToString (n : Z) : String.string :=
  DecimalString.NilZero.string_of_int (Z.to_int n).

(** [day % 10] is the remainder with the sign of [day]. *)
Definition addOrdinalSuffix (day : Z) : String.string :=
  if (11 <=? day) && (day <=? 13) then String.append (numberToString day) "th"%string
  else
    match Z.rem day 10 with
    | 1 => String.append (numberToString day) "st"%string
    | 2 => String.append (numberToString day) "nd"%string
    | 3 => String.append (numberToString day) "rd"%string
    | _ => String.append (numberToString day) "th"%string
    end.

(** ** Further sample inputs *)

(** Draws that alternate between 0.9 and 0.01. *)
Definition mixedRandom : nat -> Q := fun n => if Nat.even n then 9 # 10 else 1 # 100.

(** A wave test that lights the cells with [r + c + t] even. *)
Definition stripes : Z -> Z -> Z -> bool := fun r c t => Z.even (r + c + t).

(** A ring test that holds within the radius. *)
Definition withinRadius : Z -> Q -> bool := fun d radius => Qle_bool (inject_Z d) radius.

(** A 3 x 2 grid with two drops. *)
Definition drops : Grid := [[1; 0]; [0; 1]; [0; 0]].

(** A ripple state with a ripple that goes on and one that expires. *)
Definition twoRipples : PatternState :=
  {| ripples := Some [ {| centerRow := 0; centerCol := 0; radius := 0; maxRadius := 1 |};
                       {| centerRow := 1; centerCol := 1; radius := 1; maxRadius := 1 |} ];
     time := None |}.

(** A random source whose every draw is 0.01. *)
Definition lowRandom : nat -> Q := fun _ => 1 # 100.

(** The ring test without rounding: the root of [d2] lies strictly between
    [radius - 1] and [radius + 1]. *)
Definition exactRing : Z -> Q -> bool :=
  fun d2 radius =>
    Qlt_bool (inject_Z d2) ((radius + 1) * (radius + 1))%Q
    && (Qlt_bool (radius - 1)%Q 0 || Qlt_bool ((radius - 1) * (radius - 1))%Q (inject_Z d2)).

(** Ripple at the generation limit 1 on a 2 x 2 grid, every draw being 0.01:
    the state after a start of Ripple from the first render and one tick,
    which has started a ripple. *)
Definition rippleAtLimit : Engine :=
  {| grid := block;
     animationState :=
       {| isRunning := true;
          currentPattern := ripple;
          generation := 1;
          patternState :=
            {| ripples := Some [ {| centerRow := 0; centerCol := 0; radius := 0 + (1 # 2);
                                    maxRadius := (1 # 100) * 15 + 5 |} ];
               time := None |};
          activeLetterIndex := Some 6;
          baselineGrid := Some zeros2x2 |};
     startGrid := zeros2x2;
     randomPos := 4%nat;
     notifications := [Started ripple] |}.


Definition calendarRunning : Calendar :=
  {| engine := blockRunning; showRealData := false; letterClickDebounce := true |}.

Section Hook.

(** The options of the hook. *)
Variables rows cols : Z.
Variable animationSpeed : Z.
Variable maxGenerations : Z.

(** The successive values of [Math.random()]. *)
Variable random : nat -> Q.

(** [(Math.sin(col * 0.2 + time * 0.1) + Math.sin(row * 0.3 + time * 0.15)) / 2 > 0.3] *)
Variable waveLive : Z -> Z -> Z -> bool.

(** [Math.sin(angle * 3 + distance * 0.5 - time * 0.2) > 0.5], with [angle]
    and [distance] taken from the centre [(rows / 2, cols / 2)], as a function
    of [row], [col] and [time]. *)
Variable spiralLive : Z -> Z -> Z -> bool.

(** [Math.abs(Math.sqrt(d2) - radius) < 1] *)
Variable nearRing : Z -> Q -> bool.

(** [Math.floor(Math.random() * n)], as a function of the draw and of [n]. *)
Variable scaledFloor : Q -> Z -> Z.

(** [Math.random() * 15 + 5], as a function of the draw. *)
Variable scaledRadius : Q -> Q.

(** *** Grid primitives *)

Definition createEmptyGrid : Res Grid :=
  let! a := newArray rows in
  mapRes (fun _ => newArray cols) a.

Definition createRandomGrid (pos : nat) : Res (Grid * nat) :=
  let! a := newArray rows in
  mapRand (fun _ pos1 =>
             let! b := newArray cols in
             mapRand (fun _ pos2 =>
                        Ok (if Qgt_bool (random pos2) (7 # 10) then 1 else 0, S pos2))
                     b pos1)
          a pos.

(** *** Game of Life *)

Definition countNeighbors (currentGrid : Grid) (row col : Z) : Res Z :=
  forOf directions
        (fun d count =>
           let newRow := row + fst d in
           let newCol := col + snd d in
           if (0 <=? newRow) && (newRow <? rows) && (0 <=? newCol) && (newCol <? cols)
           then let! v := getCell currentGrid newRow newCol in Ok (count + v)
           else Ok count)
        0.

(** The value written to a cell by the Game of Life. *)
Definition lifeRule (currentCell : option Z) (neighbors : Z) : Z :=
  match currentCell with
  | Some 1 => if (neighbors =? 2) || (neighbors =? 3) then 1 else 0
  | _ => if neighbors =? 3 then 1 else 0
  end.

(** [newGrid[row][col] !== currentCell], on the value just written. *)
Definition differs (v : Z) (currentCell : option Z) : bool :=
  match currentCell with
  | Some z => negb (v =? z)
  | None => true
  end.

Definition gameOfLifeStep (currentGrid : Grid) : Res StepResult :=
  let! newGrid0 := createEmptyGrid in
  let! (newGrid1, hasChanged1) :=
    forRange 0 rows
      (fun row st =>
         forRange 0 cols
           (fun col st1 =>
              let! neighbors := countNeighbors currentGrid row col in
              let! currentCell := getCellOpt currentGrid row col in
              let v := lifeRule currentCell neighbors in
              let! g := setCell (fst st1) row col v in
              Ok (g, if differs v currentCell then true else snd st1))
           st)
      (newGrid0, false) in
  Ok {| newGrid := newGrid1; hasChanged := hasChanged1; stepState := None |}.

(** *** Ripple *)

(** [ripple.radius += 0.5]: the sum is exact on the radii that occur, which
    are multiples of 0.5. *)
Definition growRipple (r : Ripple) : Ripple :=
  {| centerRow := centerRow r; centerCol := centerCol r;
     radius := radius r + (1 # 2); maxRadius := maxRadius r |}.

(** The loops that draw one ripple. *)
Definition drawRipple (r : Ripple) (g0 : Grid) : Res Grid :=
  forRange 0 rows
    (fun row g1 =>
       forRange 0 cols
         (fun col g =>
            if nearRing ((row - centerRow r) ^ 2 + (col - centerCol r) ^ 2) (radius r)
            then setCell g row col 1
            else Ok g)
         g1)
    g0.

Definition rippleStep (currentGrid : Grid) (state : PatternState) (pos : nat)
  : Res (StepResult * nat) :=
  let! newGrid0 := createEmptyGrid in
  let ripples0 := default [] (ripples state) in
  let spawned :=
    if Qlt_bool (random pos) (5 # 100)
    then (ripples0 ++
            [ {| centerRow := scaledFloor (random (pos + 1)%nat) rows;
                 centerCol := scaledFloor (random (pos + 2)%nat) cols;
                 radius := 0;
                 maxRadius := scaledRadius (random (pos + 3)%nat) |} ],
          (pos + 4)%nat)
    else (ripples0, S pos) in
  let! (newRipples, newGrid1) :=
    forDown (Z.of_nat (length (fst spawned)) - 1) (-1)
      (fun i st =>
         match index (fst st) i with
         | None => Err TypeError
         | Some r0 =>
             let r := growRipple r0 in
             if Qgt_bool (radius r) (maxRadius r)
             then Ok (delete (Z.to_nat i) (fst st), snd st)
             else let! g := drawRipple r (snd st) in
                  Ok (<[Z.to_nat i := r]> (fst st), g)
         end)
      (fst spawned, newGrid0) in
  Ok ({| newGrid := newGrid1; hasChanged := true;
         stepState := Some {| ripples := Some newRipples; time := None |} |},
      snd spawned).

(** What a call of [rippleStep] that returns leaves in the [state] it was
    given: [newRipples] is a copy of the array ([[...ripples]]), so the array
    of the state keeps its length, but the ripples in it are the objects
    that the loop has grown. *)
Definition rippleStepLeaves (state : PatternState) : PatternState :=
  {| ripples := match ripples state with
                | Some l => Some (growRipple <$> l)
                | None => None
                end;
     time := time state |}.

(** *** Wave *)

Definition waveStep (currentGrid : Grid) (state : PatternState) : Res StepResult :=
  let! newGrid0 := createEmptyGrid in
  let t := default 0 (time state) in
  let! newGrid1 :=
    forRange 0 rows
      (fun row g1 =>
         forRange 0 cols
           (fun col g => setCell g row col (if waveLive row col t then 1 else 0))
           g1)
      newGrid0 in
  Ok {| newGrid := newGrid1; hasChanged := true;
        stepState := Some {| ripples := None; time := Some (t + 1) |} |}.

(** *** Rain *)

(** [currentGrid[r][c] === 1] *)
Definition isOne (g : Grid) (r c : Z) : Res bool :=
  let! v := getCellOpt g r c in
  Ok match v with
     | Some 1 => true
     | _ => false
     end.

Definition rainStep (currentGrid : Grid) (pos : nat) : Res (StepResult * nat) :=
  let newGrid0 := copyGrid currentGrid in
  (* Add new raindrops at top *)
  let! (newGrid1, pos1) :=
    forRange 0 cols
      (fun col st =>
         if Qlt_bool (random (snd st)) (5 # 100)
         then let! g := setCell (fst st) 0 col 1 in Ok (g, S (snd st))
         else Ok (fst st, S (snd st)))
      (newGrid0, pos) in
  (* Move existing drops down *)
  let! newGrid2 :=
    forDown (rows - 1) 0
      (fun row g1 =>
         forRange 0 cols
           (fun col g =>
              let! b := isOne currentGrid (row - 1) col in
              if b
              then let! g' := setCell g row col 1 in setCell g' (row - 1) col 0
              else Ok g)
           g1)
      newGrid1 in
  (* Clear bottom row *)
  let! (newGrid3, pos3) :=
    forRange 0 cols
      (fun col st =>
         if Qlt_bool (random (snd st)) double_0_3
         then let! g := setCell (fst st) (rows - 1) col 0 in Ok (g, S (snd st))
         else Ok (fst st, S (snd st)))
      (newGrid2, pos1) in
  Ok ({| newGrid := newGrid3; hasChanged := true; stepState := None |}, pos3).

(** *** Spiral *)

Definition spiralStep (currentGrid : Grid) (state : PatternState) : Res StepResult :=
  let! newGrid0 := createEmptyGrid in
  let t := default 0 (time state) in
  let! newGrid1 :=
    forRange 0 rows
      (fun row g1 =>
         forRange 0 cols
           (fun col g => setCell g row col (if spiralLive row col t then 1 else 0))
           g1)
      newGrid0 in
  Ok {| newGrid := newGrid1; hasChanged := true;
        stepState := Some {| ripples := None; time := Some (t + 1) |} |}.

(** *** Noise *)

Definition noiseStep (currentGrid : Grid) (pos : nat) : Res (StepResult * nat) :=
  let! newGrid0 := createEmptyGrid in
  let! (newGrid1, pos1) :=
    forRange 0 rows
      (fun row st1 =>
         forRange 0 cols
           (fun col st =>
              let! g := setCell (fst st) row col
                                (if Qgt_bool (random (snd st)) double_0_8 then 1 else 0) in
              Ok (g, S (snd st)))
           st1)
      (newGrid0, pos) in
  Ok ({| newGrid := newGrid1; hasChanged := true; stepState := None |}, pos1).

(** *** Rule 30 *)

(** [currentRow[c]] as an operand of [<<] or [|]: [undefined] converts to 0,
    and indexing a missing row throws. *)
Definition bitAt (currentRow : option Row) (c : Z) : Res Z :=
  match currentRow with
  | None => Err TypeError
  | Some row => Ok (default 0 (index row c))
  end.

(** Storing [table[i]]: outside the table the value is [undefined]. *)
Definition tableAt (table : list Z) (i : Z) : Res Z :=
  match index table i with
  | None => Err NotNumeric
  | Some v => Ok v
  end.

Definition rule30Step (currentGrid : Grid) : Res StepResult :=
  let newGrid0 := copyGrid currentGrid in
  (* Apply Rule 30 to middle row *)
  let middleRow := rows / 2 in
  let currentRow := index currentGrid middleRow in
  let! newGrid1 :=
    forRange 1 (cols - 1)
      (fun col g =>
         let! lft := bitAt currentRow (col - 1) in
         let! ctr := bitAt currentRow col in
         let! rgt := bitAt currentRow (col + 1) in
         let pattern := or32 (or32 (shl32 lft 2) (shl32 ctr 1)) rgt in
         let! v := tableAt rule30Table pattern in
         setCell g middleRow col v)
      newGrid0 in
  (* Shift other rows *)
  let! newGrid2 :=
    forRange 0 rows
      (fun row g1 =>
         if negb (row =? middleRow)
         then let! g2 :=
                forDown (cols - 1) 0
                  (fun col g =>
                     let! v := getCell currentGrid row (col - 1) in
                     setCell g row col v)
                  g1 in
              setCell g2 row 0 0
         else Ok g1)
      newGrid1 in
  Ok {| newGrid := newGrid2; hasChanged := true; stepState := None |}.

(** *** Dispatch *)

Definition executePattern (currentGrid : Grid) (pattern : AnimationPattern)
           (state : PatternState) (pos : nat) : Res (StepResult * nat) :=
  match pattern with
  | gameOfLife => let! r := gameOfLifeStep currentGrid in Ok (r, pos)
  | ripple => rippleStep currentGrid state pos
  | wave => let! r := waveStep currentGrid state in Ok (r, pos)
  | rain => rainStep currentGrid pos
  | spiral => let! r := spiralStep currentGrid state in Ok (r, pos)
  | noise => noiseStep currentGrid pos
  | rule30 => let! r := rule30Step currentGrid in Ok (r, pos)
  | image => Ok ({| newGrid := currentGrid; hasChanged := false; stepState := None |}, pos)
  end.

(** What a call of [executePattern] that returns leaves in the pattern state
    it was given. Only [rippleStep] writes to it. *)
Definition executePatternLeaves (pattern : AnimationPattern) (state : PatternState)
  : PatternState :=
  match pattern with
  | ripple => rippleStepLeaves state
  | _ => state
  end.

(** *** The scheduler tick *)

Definition isGameOfLife (p : AnimationPattern) : bool :=
  match p with
  | gameOfLife => true
  | _ => false
  end.

(** [{ ...prevState, isRunning: false }], built after the step function has
    run on [prevState.patternState]: the pattern state is the same object,
    with what the step has left in it. *)
Definition haltState (prevState : AnimationState) : AnimationState :=
  {| isRunning := false;
     currentPattern := currentPattern prevState;
     generation := generation prevState;
     patternState := executePatternLeaves (currentPattern prevState) (patternState prevState);
     activeLetterIndex := activeLetterIndex prevState;
     baselineGrid := baselineGrid prevState |}.

(** The two updaters that [animate] runs once the interval has elapsed. The
    updater of the state computes the step from the grid that the updater of
    the grid was given, and decides whether the animation stops; it assigns
    [returnedGrid], which the updater of the grid returns. When React runs
    the updater of the state inside the other one ([eager]), the grid that is
    returned is the one it assigned; when React runs it later,
    [returnedGrid] is still [currentGrid] when the updater of the grid
    returns, and the grid stays while the state moves on. A step function
    that throws does so before it writes to the state, which is left as it
    was. *)
Definition tick (eager : bool) (e : Engine) : Outcome :=
  let currentGrid := grid e in
  let prevState := animationState e in
  if negb (isRunning prevState) then Done e
  else
    match executePattern currentGrid (currentPattern prevState)
                         (patternState prevState) (randomPos e) with
    | Err err => Thrown err e
    | Ok (r, pos) =>
        let e1 := setRandomPos pos e in
        if isGameOfLife (currentPattern prevState) && negb (hasChanged r)
        then Done (setGrid currentGrid (setAnimationState (haltState prevState)
                                                          (notify Stopped e1)))
        else if maxGenerations <=? generation prevState
        then Done (setGrid currentGrid (setAnimationState (haltState prevState)
                                                          (notify Stopped e1)))
        else Done (setGrid (if eager then newGrid r else currentGrid)
                     (setAnimationState
                        {| isRunning := isRunning prevState;
                           currentPattern := currentPattern prevState;
                           generation := generation prevState + 1;
                           patternState := default (patternState prevState) (stepState r);
                           activeLetterIndex := activeLetterIndex prevState;
                           baselineGrid := baselineGrid prevState |}
                        e1))
    end.

(** [animate], called with the time elapsed since the last step. *)
Definition animate (eager : bool) (elapsed : Z) (e : Engine) : Outcome :=
  if animationSpeed <? elapsed then tick eager e else Done e.

(** *** The operations of the hook *)

(** The first render: [useState] builds the grid and the initial state. *)
Definition useAnimationPatterns : Res Engine :=
  let! g := createEmptyGrid in
  Ok (firstRender g).

(** A render in which the host passes another [onAnimationStart]:
    [startAnimation] is created again and closes over the grid of that
    render. *)
Definition renewStartAnimation (e : Engine) : Engine :=
  {| grid := grid e; animationState := animationState e; startGrid := grid e;
     randomPos := randomPos e; notifications := notifications e |}.

Definition startAnimation (pattern : AnimationPattern) (letterIndex : Z) (e : Engine)
  : Outcome :=
  let prev := animationState e in
  Done (notify (Started pattern)
          (setAnimationState
             {| isRunning := true;
                currentPattern := pattern;
                generation := 0;
                patternState := emptyPatternState;
                activeLetterIndex := Some letterIndex;
                baselineGrid :=
                  Some match baselineGrid prev with
                       | Some b => b
                       | None => copyGrid (startGrid e)
                       end |}
             e)).

Definition stopAnimation (e : Engine) : Outcome :=
  let prev := animationState e in
  (* Restore baseline if present *)
  let e1 := match baselineGrid prev with
            | Some b => setGrid (copyGrid b) e
            | None => e
            end in
  Done (notify Stopped
          (setAnimationState
             {| isRunning := false;
                currentPattern := currentPattern prev;
                generation := generation prev;
                patternState := patternState prev;
                activeLetterIndex := None;
                baselineGrid := baselineGrid prev |}
             e1)).

(** The grid that [changePattern] sets for Rule 30. *)
Definition rule30Seed : Res Grid :=
  let! g := createEmptyGrid in
  setCell g (rows / 2) (cols / 2) 1.

Definition changePattern (pattern : AnimationPattern) (e : Engine) : Outcome :=
  let prev := animationState e in
  let e1 := notify (PatternChanged pattern)
              (setAnimationState
                 {| isRunning := isRunning prev;
                    currentPattern := pattern;
                    generation := 0;
                    patternState := emptyPatternState;
                    activeLetterIndex := activeLetterIndex prev;
                    baselineGrid := baselineGrid prev |}
                 e) in
  (* Set appropriate initial state for each pattern *)
  match pattern with
  | gameOfLife | noise =>
      match createRandomGrid (randomPos e1) with
      | Ok (g, pos) => Done (setGrid g (setRandomPos pos e1))
      | Err err => Thrown err e1
      end
  | rule30 =>
      match rule30Seed with
      | Ok g => Done (setGrid g e1)
      | Err err => Thrown err e1
      end
  | _ =>
      match createEmptyGrid with
      | Ok g => Done (setGrid g e1)
      | Err err => Thrown err e1
      end
  end.

(** [{ ...prev, isRunning: false, generation: 0, patternState: {},
       activeLetterIndex: null }] *)
Definition clearedState (prev : AnimationState) : AnimationState :=
  {| isRunning := false;
     currentPattern := currentPattern prev;
     generation := 0;
     patternState := emptyPatternState;
     activeLetterIndex := None;
     baselineGrid := baselineGrid prev |}.

Definition resetGrid (e : Engine) : Outcome :=
  let e1 := setAnimationState (clearedState (animationState e)) e in
  match createEmptyGrid with
  | Ok g => Done (setGrid g e1)
  | Err err => Thrown err e1
  end.

Definition randomizeGrid (e : Engine) : Outcome :=
  let e1 := setAnimationState (clearedState (animationState e)) e in
  match createRandomGrid (randomPos e1) with
  | Ok (g, pos) => Done (setGrid g (setRandomPos pos e1))
  | Err err => Thrown err e1
  end.

(** *** Runs of the hook *)


Definition perform (a : Action) (e : Engine) : Outcome :=
  match a with
  | Animate eager elapsed => animate eager elapsed e
  | StartAnimation pattern letterIndex => startAnimation pattern letterIndex e
  | StopAnimation => stopAnimation e
  | ChangePattern pattern => changePattern pattern e
  | ResetGrid => resetGrid e
  | RandomizeGrid => randomizeGrid e
  | RenewStartAnimation => Done (renewStartAnimation e)
  end.

(** The state after a sequence of operations, each started in the state the
    previous one left. *)
Definition run (l : list Action) (e : Engine) : Engine :=
  fold_left (fun e1 a => after (perform a e1)) l e.

(** What may happen between [start] and [stop] while the animation runs:
    scheduler ticks and pattern changes. *)
Definition whileRunning (a : Action) : Prop :=
  match a with
  | Animate _ _ | ChangePattern _ => True
  | _ => False
  end.

(** The states the hook can be in. *)
Inductive reachable : Engine -> Prop :=
| reachable_first (e : Engine) :
    useAnimationPatterns = Ok e -> reachable e
| reachable_next (a : Action) (e : Engine) :
    reachable e -> reachable (after (perform a e)).

(** *** Notions used by the statements *)

(** The number of live cells among the neighbours of a cell that lie in the
    grid. *)
Definition liveNeighbors (g : Grid) (r c : Z) : Z :=
  Z.of_nat (length (filter (fun d => cellAt g (r + fst d) (c + snd d) = Some 1)
                           directions)).



(** ** Helper notions for the proofs *)

(** The neighbour count of the code as a number, where it returns one. *)
Definition neighborCount (g : Grid) (r c : Z) : Z :=
  match countNeighbors g r c with
  | Ok n => n
  | Err _ => 0
  end.

(** The cell the Game of Life writes at [(r, c)]. *)
Definition lifeCell (g : Grid) (r c : Z) : Z :=
  lifeRule (cellAt g r c) (neighborCount g r c).

(** The cells that the nested loops over rows and columns have passed when
    they are at row [i] and column [j]. *)
Definition passed (i j r c : Z) : Prop :=
  (0 <= r < i /\ 0 <= c < cols) \/ (r = i /\ 0 <= c < j).

(** The grid of zeros. *)
Definition zeroGrid : Grid :=
  replicate (Z.to_nat rows) (replicate (Z.to_nat cols) 0).

(** A size that [new Array] accepts. *)
Definition arraySize (n : Z) : Prop := 0 <= n < 2 ^ 32.

(** A grid of the configured dimensions with cells in {0,1}. *)
Definition simulationGrid (g : Grid) : Prop :=
  hasDims rows cols g /\ binaryGrid g.

(** Every grid the engine holds is a simulation grid. *)
Definition wellFormed (e : Engine) : Prop :=
  simulationGrid (grid e) /\
  simulationGrid (startGrid e) /\
  match baselineGrid (animationState e) with
  | Some b => simulationGrid b
  | None => True
  end.

(** The sizes for which the allocations of the first render succeed. *)
Definition allocatable : Prop :=
  arraySize rows /\ (rows = 0 \/ arraySize cols).

(** The value of the Rule 30 table for three bits. *)
Definition rule30Bit (l c r : Z) : Z :=
  default 0 (index rule30Table (l * 4 + c * 2 + r)).

(** The bit that Rule 30 reads at column [c] of the middle row. *)
Definition middleBit (g : Grid) (c : Z) : Z :=
  default 0 (cellAt g (rows / 2) c).

(** Rule 30 as the specification words it: an interior column of the middle
    row takes the table value of the three old bits around it, the edge
    columns of the middle row keep their value, and every other row moves one
    column to the right with a 0 entering at column 0. *)
Definition rule30Cell (g : Grid) (r c : Z) : option Z :=
  if r =? rows / 2
  then if (0 <? c) && (c <? cols - 1)
       then Some (rule30Bit (middleBit g (c - 1)) (middleBit g c) (middleBit g (c + 1)))
       else cellAt g r c
  else if c =? 0 then Some 0 else cellAt g r (c - 1).

(** ** Further notions used by the statements *)

(** Scheduler ticks in a row, each called with the same elapsed time: one
    tick for each element of [modes], which says whether it is eager. *)
Definition ticks (modes : list bool) (elapsed : Z) (e : Engine) : Engine :=
  fold_left (fun e1 eager => after (animate eager elapsed e1)) modes e.

(** The operations other than a render that renews [startAnimation]. *)
Definition noRenewal (a : Action) : Prop :=
  match a with
  | RenewStartAnimation => False
  | _ => True
  end.

(** Whether a cell of a grid holds 1. *)
Definition isLive (g : Grid) (r c : Z) : bool :=
  bool_decide (cellAt g r c = Some 1).

(** The two draws that [rainStep] makes for column [c] when it starts at
    draw [pos]: the one for a new drop in the top row, and the one for
    clearing the bottom row. *)
Definition rainDrop (pos : nat) (c : Z) : bool :=
  Qlt_bool (random (pos + Z.to_nat c)%nat) (5 # 100).

Definition rainClear (pos : nat) (c : Z) : bool :=
  Qlt_bool (random (pos + Z.to_nat cols + Z.to_nat c)%nat) double_0_3.

(** [ripple.radius > ripple.maxRadius] *)
Definition expired (r : Ripple) : bool := Qgt_bool (radius r) (maxRadius r).

(** The ripples of the next state: every ripple grown, the expired ones
    removed. *)
Definition survivors (l : list Ripple) : list Ripple :=
  filter (fun r => expired r = false) (growRipple <$> l).

(** The ripples that [rippleStep] starts from, and the draw it goes on with:
    the ripples of the state, and with a first draw below 0.05 one more,
    made of three further draws. *)
Definition spawnRipples (state : PatternState) (pos : nat) : list Ripple * nat :=
  if Qlt_bool (random pos) (5 # 100)
  then (default [] (ripples state) ++
          [ {| centerRow := scaledFloor (random (pos + 1)%nat) rows;
               centerCol := scaledFloor (random (pos + 2)%nat) cols;
               radius := 0;
               maxRadius := scaledRadius (random (pos + 3)%nat) |} ],
        (pos + 4)%nat)
  else (default [] (ripples state), S pos).

(** Whether the ring of a ripple passes through a cell. *)
Definition onRing (rp : Ripple) (r c : Z) : bool :=
  nearRing ((r - centerRow rp) ^ 2 + (c - centerCol rp) ^ 2) (radius rp).

(** The grid that [createRandomGrid] builds from the draws that follow
    [pos]. *)
Definition randomGridFrom (pos : nat) : Grid :=
  (fun i =>
     (fun j => if Qgt_bool (random (pos + i * Z.to_nat cols + j)%nat) (7 # 10) then 1 else 0)
       <$> seq 0 (Z.to_nat cols))
    <$> seq 0 (Z.to_nat rows).

(** A click on the letter number [letterIndex]. The handler is attached to the
    eight letters only; for another index the pattern would be [undefined],
    which the embedding does not follow ([None]). A click while the debounce
    timer is pending is dropped. The result holds what the hook threw, if it
    did. *)
Definition handleLetterClick (letterIndex : Z) (c : Calendar) : option (Calendar * option Failure) :=
  if letterClickDebounce c then Some (c, None)
  else
    match index animateLetterPatterns letterIndex with
    | None => None
    | Some newPattern =>
        let animationState0 := animationState (engine c) in
        if negb (isRunning animationState0)
        then (* Start: save baseline and run *)
          let o := startAnimation newPattern letterIndex (engine c) in
          Some ({| engine := after o; showRealData := false; letterClickDebounce := true |},
                thrown o)
        else if bool_decide (activeLetterIndex animationState0 = Some letterIndex)
        then (* Pause: restore baseline grid (same letter clicked twice) *)
          let o := stopAnimation (engine c) in
          Some ({| engine := after o; showRealData := true; letterClickDebounce := true |},
                thrown o)
        else (* Switch pattern while running *)
          let o := changePattern newPattern (engine c) in
          Some ({| engine := after o; showRealData := false; letterClickDebounce := true |},
                thrown o)
    end.


(** * Properties *)

(** ** Loops *)

Lemma forUp_inv {S : Type} (I : Z -> S -> Prop) (body : Z -> S -> Res S) (n : nat) :
  forall (i : Z) (s : S),
    I i s ->
    (forall j t, i <= j < i + Z.of_nat n -> I j t ->
                 exists t', body j t = Ok t' /\ I (j + 1) t') ->
    exists s', forUp n i body s = Ok s' /\ I (i + Z.of_nat n) s'.
Proof.
  induction n as [|n IH]; intros i s Hi Hstep.
  - exists s. simpl. replace (i + Z.of_nat 0) with i by lia. auto.
  - destruct (Hstep i s) as (t & Hb & Ht); [lia | assumption |].
    destruct (IH (i + 1) t Ht) as (s' & Hrun & Hs').
    + intros j u Hj Hu. apply Hstep; [lia | assumption].
    + exists s'. simpl. rewrite Hb. simpl. rewrite Hrun. split; [reflexivity |].
      replace (i + Z.of_nat (Datatypes.S n)) with (i + 1 + Z.of_nat n) by lia. assumption.
Qed.

Lemma forRange_inv {S : Type} (I : Z -> S -> Prop) (body : Z -> S -> Res S)
      (lo hi : Z) (s : S) :
  lo <= hi ->
  I lo s ->
  (forall j t, lo <= j < hi -> I j t -> exists t', body j t = Ok t' /\ I (j + 1) t') ->
  exists s', forRange lo hi body s = Ok s' /\ I hi s'.
Proof.
  intros Hle Hs Hstep. unfold forRange.
  destruct (forUp_inv I body (Z.to_nat (hi - lo)) lo s Hs) as (s' & Hrun & Hs').
  - intros j t Hj. apply Hstep. lia.
  - exists s'. split; [assumption |].
    replace hi with (lo + Z.of_nat (Z.to_nat (hi - lo))) by lia. assumption.
Qed.

Lemma forRange_empty {S : Type} (body : Z -> S -> Res S) (lo hi : Z) (s : S) :
  hi <= lo -> forRange lo hi body s = Ok s.
Proof.
  intros H. unfold forRange. replace (Z.to_nat (hi - lo)) with O by lia. reflexivity.
Qed.

Lemma forRange_preserve {S : Type} (P : S -> Prop) (body : Z -> S -> Res S)
      (lo hi : Z) (s : S) :
  P s ->
  (forall j t, lo <= j < hi -> P t -> exists t', body j t = Ok t' /\ P t') ->
  exists s', forRange lo hi body s = Ok s' /\ P s'.
Proof.
  intros Hs Hstep. destruct (Z_le_gt_dec lo hi) as [Hle|Hgt].
  - apply (forRange_inv (fun _ => P)); auto.
  - exists s. split; [apply forRange_empty; lia | assumption].
Qed.

Lemma forRange_inv_max {S : Type} (I : Z -> S -> Prop) (body : Z -> S -> Res S)
      (lo hi : Z) (s : S) :
  I lo s ->
  (forall j t, lo <= j < hi -> I j t -> exists t', body j t = Ok t' /\ I (j + 1) t') ->
  exists s', forRange lo hi body s = Ok s' /\ I (Z.max lo hi) s'.
Proof.
  intros Hs Hstep. destruct (Z_le_gt_dec lo hi) as [Hle|Hgt].
  - rewrite Z.max_r by lia. apply forRange_inv; assumption.
  - rewrite Z.max_l by lia. exists s. split; [apply forRange_empty; lia | assumption].
Qed.

Lemma forDownN_inv {S : Type} (I : Z -> S -> Prop) (body : Z -> S -> Res S) (n : nat) :
  forall (i : Z) (s : S),
    I i s ->
    (forall j t, i - Z.of_nat n < j <= i -> I j t ->
                 exists t', body j t = Ok t' /\ I (j - 1) t') ->
    exists s', forDownN n i body s = Ok s' /\ I (i - Z.of_nat n) s'.
Proof.
  induction n as [|n IH]; intros i s Hi Hstep.
  - exists s. simpl. replace (i - Z.of_nat 0) with i by lia. auto.
  - destruct (Hstep i s) as (t & Hb & Ht); [lia | assumption |].
    destruct (IH (i - 1) t Ht) as (s' & Hrun & Hs').
    + intros j u Hj Hu. apply Hstep; [lia | assumption].
    + exists s'. simpl. rewrite Hb. simpl. rewrite Hrun. split; [reflexivity |].
      replace (i - Z.of_nat (Datatypes.S n)) with (i - 1 - Z.of_nat n) by lia. assumption.
Qed.

Lemma forDown_inv {S : Type} (I : Z -> S -> Prop) (body : Z -> S -> Res S)
      (start stop : Z) (s : S) :
  stop <= start ->
  I start s ->
  (forall j t, stop < j <= start -> I j t -> exists t', body j t = Ok t' /\ I (j - 1) t') ->
  exists s', forDown start stop body s = Ok s' /\ I stop s'.
Proof.
  intros Hle Hs Hstep. unfold forDown.
  destruct (forDownN_inv I body (Z.to_nat (start - stop)) start s Hs) as (s' & Hrun & Hs').
  - intros j t Hj. apply Hstep. lia.
  - exists s'. split; [assumption |].
    replace stop with (start - Z.of_nat (Z.to_nat (start - stop))) by lia. assumption.
Qed.

Lemma forDown_empty {S : Type} (body : Z -> S -> Res S) (start stop : Z) (s : S) :
  start <= stop -> forDown start stop body s = Ok s.
Proof.
  intros H. unfold forDown. replace (Z.to_nat (start - stop)) with O by lia. reflexivity.
Qed.

Lemma forDown_inv_min {S : Type} (I : Z -> S -> Prop) (body : Z -> S -> Res S)
      (start stop : Z) (s : S) :
  I start s ->
  (forall j t, stop < j <= start -> I j t -> exists t', body j t = Ok t' /\ I (j - 1) t') ->
  exists s', forDown start stop body s = Ok s' /\ I (Z.min start stop) s'.
Proof.
  intros Hs Hstep. destruct (Z_le_gt_dec stop start) as [Hle|Hgt].
  - rewrite Z.min_r by lia. apply forDown_inv; assumption.
  - rewrite Z.min_l by lia. exists s. split; [apply forDown_empty; lia | assumption].
Qed.

Lemma forDown_preserve {S : Type} (P : S -> Prop) (body : Z -> S -> Res S)
      (start stop : Z) (s : S) :
  P s ->
  (forall j t, stop < j <= start -> P t -> exists t', body j t = Ok t' /\ P t') ->
  exists s', forDown start stop body s = Ok s' /\ P s'.
Proof.
  intros Hs Hstep. destruct (Z_le_gt_dec stop start) as [Hle|Hgt].
  - apply (forDown_inv (fun _ => P)); auto.
  - exists s. split; [apply forDown_empty; lia | assumption].
Qed.

(** ** Arrays and grids *)

Lemma index_Some {A : Type} (l : list A) (i : Z) (x : A) :
  index l i = Some x <-> 0 <= i /\ l !! Z.to_nat i = Some x.
Proof.
  unfold index. destruct (Z.ltb_spec i 0); split.
  - discriminate.
  - intros [? _]. lia.
  - auto.
  - intros [_ ?]. assumption.
Qed.

Lemma index_None {A : Type} (l : list A) (i : Z) :
  index l i = None <-> ~ (0 <= i < Z.of_nat (length l)).
Proof.
  unfold index. destruct (Z.ltb_spec i 0).
  - split; [lia | reflexivity].
  - rewrite lookup_ge_None. lia.
Qed.

Lemma index_in_range {A : Type} (l : list A) (i : Z) :
  0 <= i < Z.of_nat (length l) -> exists x, index l i = Some x.
Proof.
  intros H. destruct (index l i) as [x|] eqn:E; [eauto |].
  apply index_None in E. contradiction.
Qed.

Lemma index_Some_range {A : Type} (l : list A) (i : Z) (x : A) :
  index l i = Some x -> 0 <= i < Z.of_nat (length l).
Proof.
  intros H. apply index_Some in H as [H0 H]. apply lookup_lt_Some in H. lia.
Qed.

Lemma index_of_nat {A : Type} (l : list A) (n : nat) :
  index l (Z.of_nat n) = l !! n.
Proof.
  unfold index. destruct (Z.ltb_spec (Z.of_nat n) 0); [lia |].
  rewrite Nat2Z.id. reflexivity.
Qed.

Lemma hasDims_row (R C : Z) (g : Grid) (r : Z) (row : Row) :
  hasDims R C g -> index g r = Some row -> Z.of_nat (length row) = C.
Proof.
  intros [_ Hall] H. apply index_Some in H as [_ H].
  rewrite Forall_lookup in Hall. exact (Hall _ _ H).
Qed.

Lemma cellAt_Some_range (R C : Z) (g : Grid) (r c v : Z) :
  hasDims R C g -> cellAt g r c = Some v -> 0 <= r < R /\ 0 <= c < C.
Proof.
  intros Hd H. unfold cellAt in H. destruct (index g r) as [row|] eqn:Er; [|discriminate].
  pose proof (hasDims_row _ _ _ _ _ Hd Er) as Hlen.
  apply index_Some_range in Er. apply index_Some_range in H.
  destruct Hd as [Hrows _]. lia.
Qed.

Lemma cellAt_in_range (R C : Z) (g : Grid) (r c : Z) :
  hasDims R C g -> 0 <= r < R -> 0 <= c < C -> exists v, cellAt g r c = Some v.
Proof.
  intros Hd Hr Hc. unfold cellAt.
  destruct (index_in_range g r) as [row Er]; [destruct Hd; lia |].
  rewrite Er. apply index_in_range.
  rewrite (hasDims_row _ _ _ _ _ Hd Er). assumption.
Qed.

Lemma cellAt_out_of_range (R C : Z) (g : Grid) (r c : Z) :
  hasDims R C g -> ~ (0 <= r < R /\ 0 <= c < C) -> cellAt g r c = None.
Proof.
  intros Hd Hn. destruct (cellAt g r c) as [v|] eqn:E; [|reflexivity].
  apply (cellAt_Some_range _ _ _ _ _ _ Hd) in E. contradiction.
Qed.

Lemma getCellOpt_cellAt (R C : Z) (g : Grid) (r c : Z) :
  hasDims R C g -> 0 <= r < R -> getCellOpt g r c = Ok (cellAt g r c).
Proof.
  intros [Hrows _] Hr. unfold getCellOpt, cellAt.
  destruct (index_in_range g r) as [row Er]; [lia |]. rewrite Er. reflexivity.
Qed.

Lemma getCell_cellAt (R C : Z) (g : Grid) (r c : Z) :
  hasDims R C g -> 0 <= r < R -> 0 <= c < C ->
  exists v, getCell g r c = Ok v /\ cellAt g r c = Some v.
Proof.
  intros Hd Hr Hc. destruct (cellAt_in_range _ _ _ _ _ Hd Hr Hc) as [v Hv].
  exists v. split; [|assumption].
  unfold getCell. rewrite (getCellOpt_cellAt _ _ _ _ _ Hd Hr). simpl. rewrite Hv. reflexivity.
Qed.

Lemma binaryGrid_cellAt (g : Grid) :
  binaryGrid g <-> forall r c v, cellAt g r c = Some v -> v = 0 \/ v = 1.
Proof.
  unfold binaryGrid, cellAt. split.
  - intros Hb r c v H. destruct (index g r) as [row|] eqn:Er; [|discriminate].
    apply index_Some in Er as [_ Er]. apply index_Some in H as [_ H].
    rewrite Forall_lookup in Hb. specialize (Hb _ _ Er).
    rewrite Forall_lookup in Hb. exact (Hb _ _ H).
  - intros H. apply Forall_lookup. intros i row Hi.
    apply Forall_lookup. intros j v Hj.
    apply (H (Z.of_nat i) (Z.of_nat j) v).
    rewrite index_of_nat, Hi, index_of_nat. assumption.
Qed.

Lemma setIndex_in_range {A : Type} (l : list A) (i : Z) (v : A) :
  0 <= i < Z.of_nat (length l) -> setIndex l i v = Ok (<[Z.to_nat i := v]> l).
Proof.
  intros H. unfold setIndex.
  destruct (Z.ltb_spec i 0); [lia |].
  destruct (Z.ltb_spec i (Z.of_nat (length l))); [reflexivity | lia].
Qed.

Lemma setCell_spec (R C : Z) (g : Grid) (r c v : Z) :
  hasDims R C g -> 0 <= r < R -> 0 <= c < C ->
  exists g', setCell g r c v = Ok g' /\ hasDims R C g' /\
             forall r' c', cellAt g' r' c' =
                           if bool_decide (r' = r /\ c' = c) then Some v else cellAt g r' c'.
Proof.
  intros Hd Hr Hc. pose proof Hd as [Hrows Hall].
  destruct (index_in_range g r) as [row Er]; [lia |].
  pose proof (hasDims_row _ _ _ _ _ Hd Er) as Hlen.
  exists (<[Z.to_nat r := <[Z.to_nat c := v]> row]> g).
  unfold setCell. rewrite Er, setIndex_in_range by lia. simpl.
  split; [reflexivity |]. split.
  - split.
    + rewrite length_insert. assumption.
    + apply Forall_insert; [assumption |]. rewrite length_insert. assumption.
  - intros r' c'. unfold cellAt. case_bool_decide as Hrc.
    + destruct Hrc as [-> ->].
      assert (Hg : index (<[Z.to_nat r := <[Z.to_nat c := v]> row]> g) r
                   = Some (<[Z.to_nat c := v]> row)).
      { apply index_Some. split; [lia |]. apply list_lookup_insert_eq. lia. }
      rewrite Hg. apply index_Some. split; [lia |]. apply list_lookup_insert_eq. lia.
    + destruct (Z.eq_dec r' r) as [->|Hne].
      * assert (Hg : index (<[Z.to_nat r := <[Z.to_nat c := v]> row]> g) r
                     = Some (<[Z.to_nat c := v]> row)).
        { apply index_Some. split; [lia |]. apply list_lookup_insert_eq. lia. }
        rewrite Hg, Er. unfold index. destruct (Z.ltb_spec c' 0); [reflexivity |].
        apply list_lookup_insert_ne. lia.
      * unfold index at 1 3. destruct (Z.ltb_spec r' 0); [reflexivity |].
        rewrite list_lookup_insert_ne by lia. reflexivity.
Qed.

Lemma setCell_binary (R C : Z) (g : Grid) (r c v : Z) :
  hasDims R C g -> binaryGrid g -> 0 <= r < R -> 0 <= c < C -> v = 0 \/ v = 1 ->
  exists g', setCell g r c v = Ok g' /\ hasDims R C g' /\ binaryGrid g'.
Proof.
  intros Hd Hb Hr Hc Hv.
  destruct (setCell_spec R C g r c v Hd Hr Hc) as (g' & Hset & Hd' & Hcells).
  exists g'. split; [assumption |]. split; [assumption |].
  apply binaryGrid_cellAt. intros r' c' v' H. rewrite Hcells in H.
  case_bool_decide.
  - congruence.
  - rewrite binaryGrid_cellAt in Hb. eauto.
Qed.

Lemma copyGrid_id (g : Grid) : copyGrid g = g.
Proof.
  unfold copyGrid. induction g as [|row g IH]; simpl; [reflexivity |].
  rewrite IH. f_equal. apply map_id.
Qed.

(** ** Grid primitives *)

Lemma newArray_ok (n : Z) :
  arraySize n -> newArray n = Ok (replicate (Z.to_nat n) 0).
Proof.
  intros [H0 H1]. unfold newArray.
  destruct (Z.ltb_spec n 0); [lia |]. destruct (Z.leb_spec (2 ^ 32) n); [lia |]. reflexivity.
Qed.

Lemma mapRes_const {A B : Type} (l : list A) (y : B) :
  mapRes (fun _ => Ok y) l = Ok (replicate (length l) y).
Proof.
  induction l as [|x l IH]; simpl; [reflexivity |]. rewrite IH. reflexivity.
Qed.

Lemma createEmptyGrid_ok :
  arraySize rows -> arraySize cols -> createEmptyGrid = Ok zeroGrid.
Proof.
  intros Hr Hc. unfold createEmptyGrid. rewrite (newArray_ok rows Hr). simpl.
  rewrite (newArray_ok cols Hc), mapRes_const, length_replicate. reflexivity.
Qed.

Lemma createEmptyGrid_no_rows : rows = 0 -> createEmptyGrid = Ok [].
Proof. intros H. unfold createEmptyGrid. rewrite H. reflexivity. Qed.

Lemma zeroGrid_dims : 0 <= rows -> 0 <= cols -> hasDims rows cols zeroGrid.
Proof.
  intros Hr Hc. unfold zeroGrid. split.
  - rewrite length_replicate. lia.
  - apply Forall_replicate. rewrite length_replicate. lia.
Qed.

Lemma zeroGrid_cell (r c v : Z) : cellAt zeroGrid r c = Some v -> v = 0.
Proof.
  unfold cellAt, zeroGrid. intros H.
  destruct (index _ r) as [row|] eqn:Er; [|discriminate].
  apply index_Some in Er as [_ Er]. apply lookup_replicate in Er as [-> _].
  apply index_Some in H as [_ H]. apply lookup_replicate in H as [-> _]. reflexivity.
Qed.

Lemma zeroGrid_binary : binaryGrid zeroGrid.
Proof.
  apply binaryGrid_cellAt. intros r c v H. left. exact (zeroGrid_cell r c v H).
Qed.

(** ** Game of Life *)

Lemma countNeighbors_forOf (g : Grid) (r c : Z) (l : list (Z * Z)) :
  hasDims rows cols g ->
  forall acc : Z,
  exists n,
    forOf l
          (fun d count =>
             let newRow := r + fst d in
             let newCol := c + snd d in
             if (0 <=? newRow) && (newRow <? rows) && (0 <=? newCol) && (newCol <? cols)
             then let! v := getCell g newRow newCol in Ok (count + v)
             else Ok count)
          acc = Ok n /\
    (binaryGrid g ->
     n = acc + Z.of_nat (length (filter (fun d => cellAt g (r + fst d) (c + snd d) = Some 1) l))).
Proof.
  intros Hd. induction l as [|d l IH]; intros acc.
  - exists acc. split; [reflexivity |]. intros _. simpl. lia.
  - simpl forOf.
    destruct ((0 <=? r + fst d) && (r + fst d <? rows) && (0 <=? c + snd d) && (c + snd d <? cols))
      eqn:Hin.
    + apply andb_prop in Hin as [Hin H4]. apply andb_prop in Hin as [Hin H3].
      apply andb_prop in Hin as [H1 H2].
      apply Z.leb_le in H1, H3. apply Z.ltb_lt in H2, H4.
      destruct (getCell_cellAt rows cols g (r + fst d) (c + snd d) Hd) as (v & Hget & Hv);
        [lia | lia |].
      rewrite Hget. simpl bind.
      destruct (IH (acc + v)) as (n & Hrun & Hn). exists n. split; [assumption |].
      intros Hb. rewrite (Hn Hb), filter_cons.
      pose proof (proj1 (binaryGrid_cellAt g) Hb _ _ _ Hv) as Hbin.
      destruct (decide (cellAt g (r + fst d) (c + snd d) = Some 1)) as [E|E].
      * assert (v = 1) by congruence. subst v. simpl length. lia.
      * destruct Hbin as [-> | ->]; [lia | congruence].
    + simpl bind. destruct (IH acc) as (n & Hrun & Hn). exists n. split; [assumption |].
      intros Hb. rewrite (Hn Hb), filter_cons.
      rewrite (cellAt_out_of_range rows cols g (r + fst d) (c + snd d) Hd).
      * destruct (decide (None = Some 1)); [discriminate | reflexivity].
      * intros [[Ha Hb'] [Hc Hd']].
        apply Z.leb_le in Ha, Hc. apply Z.ltb_lt in Hb', Hd'.
        rewrite Ha, Hb', Hc, Hd' in Hin. discriminate.
Qed.

Lemma countNeighbors_total (g : Grid) (r c : Z) :
  hasDims rows cols g -> countNeighbors g r c = Ok (neighborCount g r c).
Proof.
  intros Hd. unfold neighborCount.
  destruct (countNeighbors_forOf g r c directions Hd 0) as (n & Hrun & _).
  unfold countNeighbors. cbv zeta in Hrun |- *. rewrite Hrun. reflexivity.
Qed.

Lemma neighborCount_live (g : Grid) (r c : Z) :
  hasDims rows cols g -> binaryGrid g -> neighborCount g r c = liveNeighbors g r c.
Proof.
  intros Hd Hb. unfold neighborCount, liveNeighbors.
  destruct (countNeighbors_forOf g r c directions Hd 0) as (n & Hrun & Hn).
  unfold countNeighbors. cbv zeta in Hrun |- *. rewrite Hrun. rewrite (Hn Hb). lia.
Qed.

Lemma lifeRule_binary (cur : option Z) (n : Z) : lifeRule cur n = 0 \/ lifeRule cur n = 1.
Proof.
  unfold lifeRule. destruct cur as [[|[p|p|]|p]|];
    repeat match goal with |- context [if ?b then _ else _] => destruct b end; auto.
Qed.

Lemma classic_range (r c : Z) :
  (0 <= r < rows /\ 0 <= c < cols) \/ ~ (0 <= r < rows /\ 0 <= c < cols).
Proof. lia. Qed.

Lemma passed_next_col (i j r c : Z) :
  passed i (j + 1) r c <-> passed i j r c \/ (r = i /\ c = j /\ 0 <= j).
Proof. unfold passed. lia. Qed.

Lemma passed_next_row (i r c : Z) :
  0 <= i -> (passed i cols r c <-> passed (i + 1) 0 r c).
Proof. unfold passed. lia. Qed.

(** The step of the Game of Life, cell by cell: it returns, the grid keeps
    its dimensions, every cell holds what [lifeRule] gives for the old cell
    and its neighbour count, and the flag tells whether a written cell
    differs from the old one. *)
Lemma gameOfLifeStep_cells (G : Grid) :
  arraySize rows -> arraySize cols -> hasDims rows cols G ->
  exists G' ch,
    gameOfLifeStep G = Ok {| newGrid := G'; hasChanged := ch; stepState := None |} /\
    hasDims rows cols G' /\
    (forall r c, 0 <= r < rows -> 0 <= c < cols ->
                 cellAt G' r c = Some (lifeCell G r c)) /\
    (ch = true <->
     exists r c, (0 <= r < rows /\ 0 <= c < cols) /\
                 differs (lifeCell G r c) (cellAt G r c) = true).
Proof.
  intros Hrows Hcols Hd.
  pose (Inv := fun (i j : Z) (st : Grid * bool) =>
                 hasDims rows cols (fst st) /\
                 (forall r c, passed i j r c -> cellAt (fst st) r c = Some (lifeCell G r c)) /\
                 (snd st = true <->
                  exists r c, passed i j r c /\
                              differs (lifeCell G r c) (cellAt G r c) = true)).
  unfold gameOfLifeStep. rewrite (createEmptyGrid_ok Hrows Hcols). simpl bind.
  destruct (forRange_inv (fun i => Inv i 0)
              (fun row st =>
                 forRange 0 cols
                   (fun col st1 =>
                      let! neighbors := countNeighbors G row col in
                      let! currentCell := getCellOpt G row col in
                      let v := lifeRule currentCell neighbors in
                      let! g := setCell (fst st1) row col v in
                      Ok (g, if differs v currentCell then true else snd st1))
                   st)
              0 rows (zeroGrid, false)) as ([G' ch] & Hrun & HInv).
  - destruct Hrows. lia.
  - split; [apply zeroGrid_dims; [destruct Hrows | destruct Hcols]; lia |].
    split.
    + intros r c Hp. unfold passed in Hp. lia.
    + simpl. split; [discriminate |]. intros (r & c & Hp & _). unfold passed in Hp. lia.
  - intros i st Hi HI.
    destruct (forRange_inv (fun j => Inv i j)
                (fun col st1 =>
                   let! neighbors := countNeighbors G i col in
                   let! currentCell := getCellOpt G i col in
                   let v := lifeRule currentCell neighbors in
                   let! g := setCell (fst st1) i col v in
                   Ok (g, if differs v currentCell then true else snd st1))
                0 cols st) as (st' & Hrun' & HInv').
    + destruct Hcols. lia.
    + assumption.
    + intros j [g ch] Hj (Hdg & Hcells & Hflag). simpl in Hdg, Hcells, Hflag.
      rewrite (countNeighbors_total G i j Hd).
      rewrite (getCellOpt_cellAt rows cols G i j Hd) by lia.
      simpl bind. cbv zeta. fold (lifeCell G i j).
      destruct (setCell_spec rows cols g i j (lifeCell G i j) Hdg) as (g' & Hset & Hdg' & Hg');
        [lia | lia |].
      simpl fst. rewrite Hset. simpl bind. eexists. split; [reflexivity |].
      split; [exact Hdg' |]. simpl fst. simpl snd. split.
      * intros r c Hp. rewrite Hg'. apply passed_next_col in Hp.
        case_bool_decide as Hrc.
        -- destruct Hrc as [-> ->]. reflexivity.
        -- destruct Hp as [Hp | Hp]; [auto | lia].
      * destruct (differs (lifeCell G i j) (cellAt G i j)) eqn:Hdiff.
        -- split; [|reflexivity]. intros _. exists i, j. split; [|assumption].
           apply passed_next_col. right. lia.
        -- rewrite Hflag. split.
           ++ intros (r & c & Hp & Hrc). exists r, c. split; [|assumption].
              apply passed_next_col. left. assumption.
           ++ intros (r & c & Hp & Hrc). apply passed_next_col in Hp.
              destruct Hp as [Hp | (-> & -> & _)]; [eauto | congruence].
    + exists st'. split; [assumption |].
      destruct HInv' as (Hdg & Hcells & Hflag). split; [assumption |]. split.
      * intros r c Hp. apply Hcells. apply passed_next_row; [lia | assumption].
      * rewrite Hflag. split; intros (r & c & Hp & Hrc); exists r, c; (split; [|assumption]);
          apply (passed_next_row i r c); (lia || assumption).
  - cbv zeta in Hrun |- *. rewrite Hrun. simpl bind.
    destruct HInv as (Hdg & Hcells & Hflag). simpl in Hdg, Hcells, Hflag.
    exists G', ch. split; [reflexivity |]. split; [assumption |]. split.
    + intros r c Hr Hc. apply Hcells. unfold passed. lia.
    + rewrite Hflag. split; intros (r & c & Hp & Hrc); exists r, c; (split; [|assumption]);
        unfold passed in *; lia.
Qed.

Lemma gameOfLifeStep_simulationGrid (G : Grid) :
  arraySize rows -> arraySize cols -> hasDims rows cols G ->
  exists res, gameOfLifeStep G = Ok res /\ simulationGrid (newGrid res).
Proof.
  intros Hrows Hcols Hd.
  destruct (gameOfLifeStep_cells G Hrows Hcols Hd) as (G' & ch & Hstep & Hd' & Hcells & _).
  eexists. split; [exact Hstep |]. simpl. split; [assumption |].
  apply binaryGrid_cellAt. intros r c v H.
  destruct (cellAt_Some_range rows cols G' r c v Hd' H) as [Hr Hc].
  rewrite (Hcells r c Hr Hc) in H. injection H as <-. apply lifeRule_binary.
Qed.

(** C4. On a [rows] x [cols] grid whose cells are 0 or 1, the Game of Life
    step returns a grid of the same dimensions in which a cell that was 1 is
    1 exactly when 2 or 3 of its neighbours inside the grid are live, a cell
    that was 0 is 1 exactly when 3 of them are, every cell is 0 or 1, and the
    flag [hasChanged] is true exactly when some cell of the new grid differs
    from the old one. Neighbours outside the grid count for nothing. *)
Theorem gameOfLifeStep_rules (G : Grid) :
  arraySize rows -> arraySize cols -> hasDims rows cols G -> binaryGrid G ->
  exists G' ch,
    gameOfLifeStep G = Ok {| newGrid := G'; hasChanged := ch; stepState := None |} /\
    hasDims rows cols G' /\
    (forall r c,
        0 <= r < rows -> 0 <= c < cols ->
        (cellAt G r c = Some 1 ->
         (cellAt G' r c = Some 1 <-> liveNeighbors G r c = 2 \/ liveNeighbors G r c = 3)) /\
        (cellAt G r c = Some 0 ->
         (cellAt G' r c = Some 1 <-> liveNeighbors G r c = 3)) /\
        (cellAt G' r c = Some 0 \/ cellAt G' r c = Some 1)) /\
    (ch = true <-> exists r c, cellAt G' r c <> cellAt G r c).
Proof.
  intros Hrows Hcols Hd Hb.
  destruct (gameOfLifeStep_cells G Hrows Hcols Hd) as (G' & ch & Hstep & Hd' & Hcells & Hflag).
  exists G', ch. split; [assumption |]. split; [assumption |]. split.
  - intros r c Hr Hc. rewrite (Hcells r c Hr Hc). unfold lifeCell.
    rewrite (neighborCount_live G r c Hd Hb).
    split; [| split].
    + intros ->. simpl.
      destruct (Z.eqb_spec (liveNeighbors G r c) 2), (Z.eqb_spec (liveNeighbors G r c) 3);
        simpl; split; intros H; try reflexivity; try discriminate; lia.
    + intros ->. simpl.
      destruct (Z.eqb_spec (liveNeighbors G r c) 3);
        simpl; split; intros H; try reflexivity; try discriminate; lia.
    + destruct (lifeRule_binary (cellAt G r c) (liveNeighbors G r c)) as [-> | ->]; auto.
  - rewrite Hflag. split.
    + intros (r & c & [Hr Hc] & Hdiff). exists r, c. rewrite (Hcells r c Hr Hc).
      destruct (cellAt G r c) as [x|]; [|discriminate].
      simpl in Hdiff. apply negb_true_iff, Z.eqb_neq in Hdiff. congruence.
    + intros (r & c & Hne).
      destruct (classic_range r c) as [[Hr Hc] | Hout].
      * exists r, c. split; [auto |]. rewrite (Hcells r c Hr Hc) in Hne.
        destruct (cellAt G r c) as [x|]; [|reflexivity].
        simpl. apply negb_true_iff, Z.eqb_neq. congruence.
      * rewrite (cellAt_out_of_range rows cols G' r c Hd' Hout) in Hne.
        rewrite (cellAt_out_of_range rows cols G r c Hd Hout) in Hne. contradiction.
Qed.

(** C9. On every [rows] x [cols] grid of integers, whatever the values of
    its cells, the Game of Life step returns, and it returns a grid of
    exactly [rows] x [cols] cells that are all 0 or 1. *)
Theorem gameOfLifeStep_total_binary (G : Grid) :
  arraySize rows -> arraySize cols -> hasDims rows cols G ->
  exists res,
    gameOfLifeStep G = Ok res /\ hasDims rows cols (newGrid res) /\ binaryGrid (newGrid res).
Proof.
  intros Hrows Hcols Hd.
  destruct (gameOfLifeStep_cells G Hrows Hcols Hd) as (G' & ch & Hstep & Hd' & Hcells & _).
  eexists. split; [exact Hstep |]. simpl. split; [assumption |].
  apply binaryGrid_cellAt. intros r c v H.
  destruct (cellAt_Some_range rows cols G' r c v Hd' H) as [Hr Hc].
  rewrite (Hcells r c Hr Hc) in H. injection H as <-. apply lifeRule_binary.
Qed.

(** ** Rule 30 *)

Lemma rule30_pattern (l c r : Z) :
  (l = 0 \/ l = 1) -> (c = 0 \/ c = 1) -> (r = 0 \/ r = 1) ->
  or32 (or32 (shl32 l 2) (shl32 c 1)) r = l * 4 + c * 2 + r.
Proof. intros [-> | ->] [-> | ->] [-> | ->]; reflexivity. Qed.

Lemma rule30_table (l c r : Z) :
  (l = 0 \/ l = 1) -> (c = 0 \/ c = 1) -> (r = 0 \/ r = 1) ->
  tableAt rule30Table (l * 4 + c * 2 + r) = Ok (rule30Bit l c r) /\
  (rule30Bit l c r = 0 \/ rule30Bit l c r = 1).
Proof. intros [-> | ->] [-> | ->] [-> | ->]; split; try reflexivity; auto. Qed.

Lemma middleBit_binary (g : Grid) (c : Z) :
  binaryGrid g -> middleBit g c = 0 \/ middleBit g c = 1.
Proof.
  intros Hb. unfold middleBit. destruct (cellAt g (rows / 2) c) as [v|] eqn:E; simpl.
  - exact (proj1 (binaryGrid_cellAt g) Hb _ _ _ E).
  - auto.
Qed.

Lemma bitAt_middle (g : Grid) (row : Row) (c : Z) :
  index g (rows / 2) = Some row -> bitAt (Some row) c = Ok (middleBit g c).
Proof. intros H. unfold bitAt, middleBit, cellAt. rewrite H. reflexivity. Qed.

(** The first loop of [rule30Step]: the interior of the middle row. *)
Lemma rule30Step_middle (G : Grid) (row : Row) :
  1 <= rows -> hasDims rows cols G -> binaryGrid G ->
  index G (rows / 2) = Some row ->
  exists g1,
    forRange 1 (cols - 1)
      (fun col g =>
         let! lft := bitAt (Some row) (col - 1) in
         let! ctr := bitAt (Some row) col in
         let! rgt := bitAt (Some row) (col + 1) in
         let pattern := or32 (or32 (shl32 lft 2) (shl32 ctr 1)) rgt in
         let! v := tableAt rule30Table pattern in
         setCell g (rows / 2) col v)
      G = Ok g1 /\
    hasDims rows cols g1 /\
    forall r c,
      cellAt g1 r c =
      if (r =? rows / 2) && (0 <? c) && (c <? cols - 1)
      then Some (rule30Bit (middleBit G (c - 1)) (middleBit G c) (middleBit G (c + 1)))
      else cellAt G r c.
Proof.
  intros Hrows Hd Hb Hrow.
  assert (Hmid : 0 <= rows / 2 < rows)
    by (split; [apply Z.div_pos; lia | apply Z.div_lt_upper_bound; lia]).
  pose (I := fun (j : Z) (g : Grid) =>
               hasDims rows cols g /\
               forall r c,
                 cellAt g r c =
                 if (r =? rows / 2) && (0 <? c) && (c <? j)
                 then Some (rule30Bit (middleBit G (c - 1)) (middleBit G c) (middleBit G (c + 1)))
                 else cellAt G r c).
  destruct (forRange_inv_max I
              (fun col g =>
                 let! lft := bitAt (Some row) (col - 1) in
                 let! ctr := bitAt (Some row) col in
                 let! rgt := bitAt (Some row) (col + 1) in
                 let pattern := or32 (or32 (shl32 lft 2) (shl32 ctr 1)) rgt in
                 let! v := tableAt rule30Table pattern in
                 setCell g (rows / 2) col v)
              1 (cols - 1) G) as (g1 & Hrun & Hd1 & Hcells).
  - split; [assumption |]. intros r c.
    destruct ((r =? rows / 2) && (0 <? c) && (c <? 1)) eqn:E; [|reflexivity].
    apply andb_prop in E as [E H3]. apply andb_prop in E as [_ H2].
    apply Z.ltb_lt in H2, H3. lia.
  - intros j g Hj [Hdg Hg].
    rewrite !(bitAt_middle G row) by assumption. simpl bind. cbv zeta.
    pose proof (middleBit_binary G (j - 1) Hb) as Hl.
    pose proof (middleBit_binary G j Hb) as Hc.
    pose proof (middleBit_binary G (j + 1) Hb) as Hr.
    rewrite (rule30_pattern _ _ _ Hl Hc Hr).
    destruct (rule30_table _ _ _ Hl Hc Hr) as [Htab _]. rewrite Htab. simpl bind.
    destruct (setCell_spec rows cols g (rows / 2) j
                (rule30Bit (middleBit G (j - 1)) (middleBit G j) (middleBit G (j + 1))) Hdg)
      as (g' & Hset & Hdg' & Hg'); [lia | lia |].
    exists g'. split; [assumption |]. split; [assumption |].
    intros r c. rewrite Hg', Hg. case_bool_decide as Hrc.
    + destruct Hrc as [-> ->].
      rewrite Z.eqb_refl. simpl.
      destruct (Z.ltb_spec 0 j); [|lia]. destruct (Z.ltb_spec j (j + 1)); [|lia]. reflexivity.
    + destruct (Z.eqb_spec r (rows / 2)); simpl; [|reflexivity].
      destruct (Z.ltb_spec 0 c); simpl; [|reflexivity].
      destruct (Z.ltb_spec c j), (Z.ltb_spec c (j + 1)); try reflexivity; lia.
  - exists g1. split; [assumption |]. split; [assumption |].
    intros r c. rewrite Hcells.
    destruct (Z.eqb_spec r (rows / 2)); simpl; [|reflexivity].
    destruct (Z.ltb_spec 0 c); simpl; [|reflexivity].
    destruct (Z.ltb_spec c (Z.max 1 (cols - 1))), (Z.ltb_spec c (cols - 1));
      try reflexivity; lia.
Qed.

(** The loop of [rule30Step] that moves one row to the right. *)
Lemma rule30Step_shiftRow (G g : Grid) (row : Z) :
  1 <= cols -> hasDims rows cols G -> hasDims rows cols g -> 0 <= row < rows ->
  exists g',
    (let! g2 :=
       forDown (cols - 1) 0
         (fun col g0 => let! v := getCell G row (col - 1) in setCell g0 row col v)
         g in
     setCell g2 row 0 0) = Ok g' /\
    hasDims rows cols g' /\
    forall r c,
      cellAt g' r c =
      if (r =? row) && (0 <=? c) && (c <? cols)
      then (if c =? 0 then Some 0 else cellAt G row (c - 1))
      else cellAt g r c.
Proof.
  intros Hcols HdG Hdg Hrow.
  pose (J := fun (j : Z) (g2 : Grid) =>
               hasDims rows cols g2 /\
               forall r c,
                 cellAt g2 r c =
                 if (r =? row) && (j <? c) && (c <? cols)
                 then cellAt G row (c - 1)
                 else cellAt g r c).
  destruct (forDown_inv J
              (fun col g0 => let! v := getCell G row (col - 1) in setCell g0 row col v)
              (cols - 1) 0 g) as (g2 & Hrun & Hd2 & Hcells).
  - lia.
  - split; [assumption |]. intros r c.
    destruct (Z.eqb_spec r row); simpl; [|reflexivity].
    destruct (Z.ltb_spec (cols - 1) c), (Z.ltb_spec c cols); simpl; try reflexivity; lia.
  - intros j g0 Hj [Hd0 Hg0].
    destruct (getCell_cellAt rows cols G row (j - 1) HdG) as (v & Hget & Hv); [lia | lia |].
    rewrite Hget. simpl bind.
    destruct (setCell_spec rows cols g0 row j v Hd0) as (g' & Hset & Hd' & Hg'); [lia | lia |].
    exists g'. split; [assumption |]. split; [assumption |].
    intros r c. rewrite Hg', Hg0. case_bool_decide as Hrc.
    + destruct Hrc as [-> ->]. rewrite Z.eqb_refl. simpl.
      destruct (Z.ltb_spec (j - 1) j), (Z.ltb_spec j cols); simpl; try lia. congruence.
    + destruct (Z.eqb_spec r row); simpl; [|reflexivity].
      destruct (Z.ltb_spec c cols); simpl; [|rewrite !andb_false_r; reflexivity].
      rewrite !andb_true_r.
      destruct (Z.ltb_spec j c), (Z.ltb_spec (j - 1) c); try reflexivity; lia.
  - rewrite Hrun. simpl bind.
    destruct (setCell_spec rows cols g2 row 0 0 Hd2) as (g' & Hset & Hd' & Hg'); [lia | lia |].
    exists g'. split; [assumption |]. split; [assumption |].
    intros r c. rewrite Hg', Hcells. case_bool_decide as Hrc.
    + destruct Hrc as [-> ->]. rewrite Z.eqb_refl. simpl.
      destruct (Z.ltb_spec 0 cols); [reflexivity | lia].
    + destruct (Z.eqb_spec r row); simpl; [|reflexivity].
      destruct (Z.ltb_spec c cols); simpl; [|rewrite !andb_false_r; reflexivity].
      rewrite !andb_true_r.
      destruct (Z.ltb_spec 0 c), (Z.leb_spec 0 c), (Z.eqb_spec c 0); try reflexivity; lia.
Qed.

(** [rule30Step] cell by cell, on a grid with at least one row and one
    column. *)
Lemma rule30Step_cells (G : Grid) :
  1 <= rows -> 1 <= cols -> hasDims rows cols G -> binaryGrid G ->
  exists G',
    rule30Step G = Ok {| newGrid := G'; hasChanged := true; stepState := None |} /\
    hasDims rows cols G' /\
    forall r c, 0 <= r < rows -> 0 <= c < cols -> cellAt G' r c = rule30Cell G r c.
Proof.
  intros Hrows Hcols Hd Hb.
  assert (Hmid : 0 <= rows / 2 < rows)
    by (split; [apply Z.div_pos; lia | apply Z.div_lt_upper_bound; lia]).
  destruct (index_in_range G (rows / 2)) as [row Hrow]; [destruct Hd; lia |].
  destruct (rule30Step_middle G row Hrows Hd Hb Hrow) as (g1 & Hrun1 & Hd1 & Hg1).
  pose (I := fun (i : Z) (g : Grid) =>
               hasDims rows cols g /\
               forall r c,
                 cellAt g r c =
                 if negb (r =? rows / 2) && (0 <=? r) && (r <? i) && (0 <=? c) && (c <? cols)
                 then (if c =? 0 then Some 0 else cellAt G r (c - 1))
                 else cellAt g1 r c).
  destruct (forRange_inv I
              (fun row0 g0 =>
                 if negb (row0 =? rows / 2)
                 then let! g2 :=
                        forDown (cols - 1) 0
                          (fun col g => let! v := getCell G row0 (col - 1) in setCell g row0 col v)
                          g0 in
                      setCell g2 row0 0 0
                 else Ok g0)
              0 rows g1) as (G' & Hrun2 & Hd' & HG').
  - lia.
  - split; [assumption |]. intros r c.
    destruct (negb (r =? rows / 2)); simpl; [|reflexivity].
    destruct (Z.leb_spec 0 r), (Z.ltb_spec r 0); simpl; try reflexivity; lia.
  - intros i g0 Hi [Hd0 Hg0].
    destruct (Z.eqb_spec i (rows / 2)) as [Heq | Hne]; simpl negb; cbv iota.
    + exists g0. split; [reflexivity |]. split; [assumption |].
      intros r c. rewrite Hg0.
      destruct (Z.eqb_spec r (rows / 2)); simpl; [reflexivity |].
      destruct (Z.leb_spec 0 r); simpl; [|reflexivity].
      destruct (Z.ltb_spec r i), (Z.ltb_spec r (i + 1)); try reflexivity; lia.
    + destruct (rule30Step_shiftRow G g0 i Hcols Hd Hd0 Hi) as (g' & Hshift & Hdg' & Hg').
      exists g'. split; [exact Hshift |]. split; [assumption |].
      intros r c. rewrite Hg', Hg0.
      destruct (Z.eqb_spec r i) as [-> | Hri]; simpl.
      * destruct (Z.eqb_spec i (rows / 2)); [contradiction |]. simpl.
        destruct (Z.leb_spec 0 i); [|lia]. simpl.
        destruct (Z.ltb_spec i (i + 1)); [|lia]. destruct (Z.ltb_spec i i); [lia |].
        simpl. destruct ((0 <=? c) && (c <? cols)) eqn:E; [reflexivity |].
        reflexivity.
      * destruct (negb (r =? rows / 2)); simpl; [|reflexivity].
        destruct (Z.leb_spec 0 r); simpl; [|reflexivity].
        destruct (Z.ltb_spec r i), (Z.ltb_spec r (i + 1)); try reflexivity; lia.
  - exists G'. unfold rule30Step. rewrite copyGrid_id. cbv zeta.
    rewrite Hrow. cbv zeta in Hrun1. rewrite Hrun1. simpl bind.
    rewrite Hrun2. simpl bind. split; [reflexivity |]. split; [assumption |].
    intros r c Hr Hc. rewrite HG', Hg1. unfold rule30Cell.
    destruct (Z.eqb_spec r (rows / 2)); simpl.
    + reflexivity.
    + destruct (Z.leb_spec 0 r); [|lia]. destruct (Z.ltb_spec r rows); [|lia].
      destruct (Z.leb_spec 0 c); [|lia]. destruct (Z.ltb_spec c cols); [|lia]. reflexivity.
Qed.

(** [rule30Step] on a grid without columns: the rows other than the middle
    one grow by the 0 written at column 0. *)
Lemma rule30Step_no_cols (G : Grid) :
  1 <= rows -> cols = 0 -> hasDims rows cols G ->
  exists G',
    rule30Step G = Ok {| newGrid := G'; hasChanged := true; stepState := None |} /\
    Z.of_nat (length G') = rows /\
    forall r, 0 <= r < rows -> index G' r = Some (if r =? rows / 2 then [] else [0]).
Proof.
  intros Hrows Hcols Hd.
  assert (HG : forall r, 0 <= r < rows -> index G r = Some []).
  { intros r Hr. destruct (index_in_range G r) as [row Er]; [destruct Hd; lia |].
    pose proof (hasDims_row _ _ _ _ _ Hd Er) as Hlen. rewrite Hcols in Hlen.
    destruct row; [assumption | simpl in Hlen; lia]. }
  pose (I := fun (i : Z) (g : Grid) =>
               Z.of_nat (length g) = rows /\
               forall r, 0 <= r < rows ->
                         index g r = Some (if negb (r =? rows / 2) && (r <? i) then [0] else [])).
  destruct (forRange_inv I
              (fun row0 g0 =>
                 if negb (row0 =? rows / 2)
                 then let! g2 :=
                        forDown (cols - 1) 0
                          (fun col g => let! v := getCell G row0 (col - 1) in setCell g row0 col v)
                          g0 in
                      setCell g2 row0 0 0
                 else Ok g0)
              0 rows G) as (G' & Hrun & Hlen' & HG').
  - lia.
  - split; [destruct Hd; assumption |]. intros r Hr. rewrite (HG r Hr).
    destruct (Z.ltb_spec r 0); [lia |]. rewrite andb_false_r. reflexivity.
  - intros i g0 Hi [Hlen0 Hg0].
    destruct (Z.eqb_spec i (rows / 2)) as [Heq | Hne]; simpl negb; cbv iota.
    + exists g0. split; [reflexivity |]. split; [assumption |].
      intros r Hr. rewrite (Hg0 r Hr).
      destruct (Z.eqb_spec r (rows / 2)); simpl; [reflexivity |].
      destruct (Z.ltb_spec r i), (Z.ltb_spec r (i + 1)); try reflexivity; lia.
    + rewrite forDown_empty by lia. simpl bind.
      unfold setCell. rewrite (Hg0 i Hi).
      destruct (Z.eqb_spec i (rows / 2)); [contradiction |]. simpl negb.
      destruct (Z.ltb_spec i i); [lia |]. simpl.
      eexists. split; [reflexivity |]. split.
      * rewrite length_insert. assumption.
      * intros r Hr. destruct (Z.eq_dec r i) as [-> | Hri].
        -- destruct (Z.eqb_spec i (rows / 2)); [contradiction |].
           destruct (Z.ltb_spec i (i + 1)); [|lia]. simpl.
           apply index_Some. split; [lia |]. apply list_lookup_insert_eq. lia.
        -- unfold index. destruct (Z.ltb_spec r 0); [lia |].
           rewrite list_lookup_insert_ne by lia.
           specialize (Hg0 r Hr). unfold index in Hg0.
           destruct (Z.ltb_spec r 0); [lia |]. rewrite Hg0.
           destruct (negb (r =? rows / 2)); simpl; [|reflexivity].
           destruct (Z.ltb_spec r i), (Z.ltb_spec r (i + 1)); try reflexivity; lia.
  - exists G'. unfold rule30Step. rewrite copyGrid_id. cbv zeta.
    rewrite (forRange_empty _ 1 (cols - 1)) by lia. simpl bind.
    rewrite Hrun. simpl bind. split; [reflexivity |]. split; [assumption |].
    intros r Hr. rewrite (HG' r Hr).
    destruct (Z.eqb_spec r (rows / 2)); simpl; [reflexivity |].
    destruct (Z.ltb_spec r rows); [reflexivity | lia].
Qed.

(** C7 (amended). On a [rows] x [cols] grid with at least one row and cells
    in {0,1}, one Rule 30 step returns a grid in which each interior column
    [c] ([0 < c < cols - 1]) of the middle row holds the entry of the table
    [0,1,1,1,1,0,0,0] at [left * 4 + center * 2 + right] of the old middle
    row, the two edge columns of the middle row are unchanged, and every
    other row is shifted one column to the right with a 0 at column 0. When
    the grid has at least five columns and its only live cell is the centre
    cell, the new grid has exactly three live cells: the columns
    [cols / 2 - 1], [cols / 2] and [cols / 2 + 1] of the middle row. *)
Theorem rule30Step_spec (G : Grid) :
  1 <= rows -> hasDims rows cols G -> binaryGrid G ->
  exists G',
    rule30Step G = Ok {| newGrid := G'; hasChanged := true; stepState := None |} /\
    (forall c l m r,
        0 < c < cols - 1 ->
        cellAt G (rows / 2) (c - 1) = Some l ->
        cellAt G (rows / 2) c = Some m ->
        cellAt G (rows / 2) (c + 1) = Some r ->
        cellAt G' (rows / 2) c = index rule30Table (l * 4 + m * 2 + r)) /\
    (forall c,
        0 <= c < cols -> c = 0 \/ c = cols - 1 ->
        cellAt G' (rows / 2) c = cellAt G (rows / 2) c) /\
    (forall r,
        0 <= r < rows -> r <> rows / 2 ->
        cellAt G' r 0 = Some 0 /\
        forall c, 0 < c < cols -> cellAt G' r c = cellAt G r (c - 1)) /\
    (5 <= cols ->
     (forall r c, 0 <= r < rows -> 0 <= c < cols ->
                  cellAt G r c =
                  Some (if bool_decide (r = rows / 2 /\ c = cols / 2) then 1 else 0)) ->
     forall r c, 0 <= r < rows -> 0 <= c < cols ->
                 cellAt G' r c =
                 Some (if bool_decide (r = rows / 2 /\ cols / 2 - 1 <= c <= cols / 2 + 1)
                       then 1 else 0)).
Proof.
  intros Hrows Hd Hb.
  assert (Hmid : 0 <= rows / 2 < rows)
    by (split; [apply Z.div_pos; lia | apply Z.div_lt_upper_bound; lia]).
  assert (Hcols0 : 0 <= cols).
  { destruct (index_in_range G 0) as [row Er]; [destruct Hd; lia |].
    rewrite <- (hasDims_row _ _ _ _ _ Hd Er). lia. }
  destruct (Z.eq_dec cols 0) as [Hz | Hnz].
  - destruct (rule30Step_no_cols G Hrows Hz Hd) as (G' & Hstep & Hlen & Hrowsof).
    exists G'. split; [assumption |].
    split; [intros; lia |]. split; [intros; lia |]. split; [| intros; lia].
    intros r Hr Hne. split; [| intros; lia].
    unfold cellAt. rewrite (Hrowsof r Hr).
    destruct (Z.eqb_spec r (rows / 2)); [contradiction | reflexivity].
  - destruct (rule30Step_cells G Hrows ltac:(lia) Hd Hb) as (G' & Hstep & Hd' & Hcells).
    exists G'. split; [assumption |]. split; [| split; [| split]].
    + intros c l m r Hc Hl Hm Hr.
      rewrite (Hcells (rows / 2) c) by lia. unfold rule30Cell.
      rewrite Z.eqb_refl.
      destruct (Z.ltb_spec 0 c); [|lia]. destruct (Z.ltb_spec c (cols - 1)); [|lia]. simpl.
      unfold middleBit. rewrite Hl, Hm, Hr. simpl.
      pose proof (proj1 (binaryGrid_cellAt G) Hb _ _ _ Hl) as Bl.
      pose proof (proj1 (binaryGrid_cellAt G) Hb _ _ _ Hm) as Bm.
      pose proof (proj1 (binaryGrid_cellAt G) Hb _ _ _ Hr) as Br.
      destruct Bl as [-> | ->], Bm as [-> | ->], Br as [-> | ->]; reflexivity.
    + intros c Hc Hedge. rewrite (Hcells (rows / 2) c) by lia. unfold rule30Cell.
      rewrite Z.eqb_refl.
      destruct (Z.ltb_spec 0 c), (Z.ltb_spec c (cols - 1)); simpl; try reflexivity; lia.
    + intros r Hr Hne. split.
      * rewrite (Hcells r 0) by lia. unfold rule30Cell.
        destruct (Z.eqb_spec r (rows / 2)); [contradiction | reflexivity].
      * intros c Hc. rewrite (Hcells r c) by lia. unfold rule30Cell.
        destruct (Z.eqb_spec r (rows / 2)); [contradiction |].
        destruct (Z.eqb_spec c 0); [lia | reflexivity].
    + intros H5 Hseed r c Hr Hc.
      assert (Hctr : 2 <= cols / 2 <= cols - 3).
      { split; [apply Z.div_le_lower_bound; lia |].
        pose proof (Z.div_mod cols 2 ltac:(lia)). pose proof (Z.mod_pos_bound cols 2 ltac:(lia)).
        lia. }
      assert (Hbit : forall x, 0 <= x < cols ->
                               middleBit G x = if bool_decide (x = cols / 2) then 1 else 0).
      { intros x Hx. unfold middleBit. rewrite (Hseed (rows / 2) x) by lia. simpl.
        repeat case_bool_decide; try reflexivity; lia. }
      rewrite (Hcells r c Hr Hc). unfold rule30Cell.
      destruct (Z.eqb_spec r (rows / 2)) as [-> | Hne].
      * destruct (Z.ltb_spec 0 c), (Z.ltb_spec c (cols - 1)); simpl.
        -- rewrite !Hbit by lia. repeat case_bool_decide; try reflexivity; lia.
        -- rewrite (Hseed (rows / 2) c) by lia. repeat case_bool_decide; try reflexivity; lia.
        -- rewrite (Hseed (rows / 2) c) by lia. repeat case_bool_decide; try reflexivity; lia.
        -- lia.
      * destruct (Z.eqb_spec c 0).
        -- case_bool_decide; [lia | reflexivity].
        -- rewrite (Hseed r (c - 1)) by lia. repeat case_bool_decide; try reflexivity; lia.
Qed.

(** ** The steps keep binary grids binary *)

Lemma hasDims_atLeast (g : Grid) : hasDims rows cols g -> hasDimsAtLeast rows cols g.
Proof.
  intros [Hlen Hall]. split; [assumption |].
  eapply Forall_impl; [exact Hall |]. simpl. intros row Hrow. lia.
Qed.

(** Nested loops over the rows and the columns whose body keeps [P]. *)
Lemma forRange_rows_cols_preserve {S : Type} (P : S -> Prop)
      (body : Z -> Z -> S -> Res S) (s : S) :
  P s ->
  (forall row col t, 0 <= row < rows -> 0 <= col < cols -> P t ->
                     exists t', body row col t = Ok t' /\ P t') ->
  exists s',
    forRange 0 rows (fun row s1 => forRange 0 cols (fun col t => body row col t) s1) s = Ok s' /\
    P s'.
Proof.
  intros Hs Hbody. apply forRange_preserve; [assumption |].
  intros row t Hrow Ht. apply forRange_preserve; [assumption |].
  intros col u Hcol Hu. apply Hbody; assumption.
Qed.

Lemma rule30Step_binary (G : Grid) :
  1 <= rows -> hasDims rows cols G -> binaryGrid G ->
  exists res,
    rule30Step G = Ok res /\ hasDimsAtLeast rows cols (newGrid res) /\ binaryGrid (newGrid res).
Proof.
  intros Hrows Hd Hb.
  assert (Hcols0 : 0 <= cols).
  { destruct (index_in_range G 0) as [row Er]; [destruct Hd; lia |].
    rewrite <- (hasDims_row _ _ _ _ _ Hd Er). lia. }
  destruct (Z.eq_dec cols 0) as [Hz | Hnz].
  - destruct (rule30Step_no_cols G Hrows Hz Hd) as (G' & Hstep & Hlen & Hrowsof).
    eexists. split; [exact Hstep |]. simpl.
    assert (Hall : forall i row, G' !! i = Some row -> row = [] \/ row = [0]).
    { intros i row Hi. pose proof (lookup_lt_Some _ _ _ Hi) as Hlt.
      specialize (Hrowsof (Z.of_nat i) ltac:(lia)). rewrite index_of_nat, Hi in Hrowsof.
      injection Hrowsof as ->. destruct (Z.of_nat i =? rows / 2); auto. }
    split; [split; [assumption |] |].
    + apply Forall_lookup. intros i row Hi. rewrite Hz. lia.
    + apply Forall_lookup. intros i row Hi.
      destruct (Hall i row Hi) as [-> | ->]; repeat constructor.
  - destruct (rule30Step_cells G Hrows ltac:(lia) Hd Hb) as (G' & Hstep & Hd' & Hcells).
    eexists. split; [exact Hstep |]. simpl. split; [apply hasDims_atLeast; assumption |].
    apply binaryGrid_cellAt. intros r c v H.
    destruct (cellAt_Some_range rows cols G' r c v Hd' H) as [Hr Hc].
    rewrite (Hcells r c Hr Hc) in H. unfold rule30Cell in H.
    destruct (r =? rows / 2).
    + destruct ((0 <? c) && (c <? cols - 1)).
      * injection H as <-.
        apply (rule30_table _ _ _ (middleBit_binary G (c - 1) Hb) (middleBit_binary G c Hb)
                            (middleBit_binary G (c + 1) Hb)).
      * exact (proj1 (binaryGrid_cellAt G) Hb _ _ _ H).
    + destruct (c =? 0).
      * injection H as <-. auto.
      * exact (proj1 (binaryGrid_cellAt G) Hb _ _ _ H).
Qed.

Lemma rainStep_binary (G : Grid) (pos : nat) :
  1 <= rows -> hasDims rows cols G -> binaryGrid G ->
  exists res pos',
    rainStep G pos = Ok (res, pos') /\
    hasDims rows cols (newGrid res) /\ binaryGrid (newGrid res).
Proof.
  intros Hrows Hd Hb.
  pose (P := fun g : Grid => hasDims rows cols g /\ binaryGrid g).
  pose (Q := fun st : Grid * nat => P (fst st)).
  unfold rainStep. rewrite copyGrid_id.
  destruct (forRange_preserve Q
              (fun col st =>
                 if Qlt_bool (random (snd st)) (5 # 100)
                 then let! g := setCell (fst st) 0 col 1 in Ok (g, S (snd st))
                 else Ok (fst st, S (snd st)))
              0 cols (G, pos)) as ([g1 pos1] & Hrun1 & HP1).
  { split; assumption. }
  { intros col [g p] Hcol [Hdg Hbg]. simpl in Hdg, Hbg. simpl fst. simpl snd.
    destruct (Qlt_bool (random p) (5 # 100)).
    - destruct (setCell_binary rows cols g 0 col 1 Hdg Hbg) as (g' & Hset & Hd' & Hb');
        [lia | lia | auto |].
      rewrite Hset. simpl bind. eexists. split; [reflexivity |]. split; assumption.
    - eexists. split; [reflexivity |]. split; assumption. }
  rewrite Hrun1. simpl bind.
  destruct (forDown_preserve P
              (fun row g0 =>
                 forRange 0 cols
                   (fun col g =>
                      let! b := isOne G (row - 1) col in
                      if b
                      then let! g' := setCell g row col 1 in setCell g' (row - 1) col 0
                      else Ok g)
                   g0)
              (rows - 1) 0 g1) as (g2 & Hrun2 & HP2).
  { exact HP1. }
  { intros row g0 Hrow HP0. apply forRange_preserve; [assumption |].
    intros col g Hcol [Hdg Hbg].
    unfold isOne. rewrite (getCellOpt_cellAt rows cols G (row - 1) col Hd) by lia.
    simpl bind.
    match goal with |- context [if ?b then _ else _] => destruct b end.
    - destruct (setCell_binary rows cols g row col 1 Hdg Hbg) as (g' & Hset & Hd' & Hb');
        [lia | lia | auto |].
      rewrite Hset. simpl bind.
      destruct (setCell_binary rows cols g' (row - 1) col 0 Hd' Hb') as (g'' & Hset' & Hd'' & Hb'');
        [lia | lia | auto |].
      exists g''. split; [assumption |]. split; assumption.
    - exists g. split; [reflexivity |]. split; assumption. }
  rewrite Hrun2. simpl bind.
  destruct (forRange_preserve Q
              (fun col st =>
                 if Qlt_bool (random (snd st)) double_0_3
                 then let! g := setCell (fst st) (rows - 1) col 0 in Ok (g, S (snd st))
                 else Ok (fst st, S (snd st)))
              0 cols (g2, pos1)) as ([g3 pos3] & Hrun3 & HP3).
  { exact HP2. }
  { intros col [g p] Hcol [Hdg Hbg]. simpl in Hdg, Hbg. simpl fst. simpl snd.
    destruct (Qlt_bool (random p) double_0_3).
    - destruct (setCell_binary rows cols g (rows - 1) col 0 Hdg Hbg) as (g' & Hset & Hd' & Hb');
        [lia | lia | auto |].
      rewrite Hset. simpl bind. eexists. split; [reflexivity |]. split; assumption.
    - eexists. split; [reflexivity |]. split; assumption. }
  rewrite Hrun3. simpl bind. eexists. eexists. split; [reflexivity |]. exact HP3.
Qed.

Lemma zeroGrid_dims_binary :
  arraySize rows -> arraySize cols -> hasDims rows cols zeroGrid /\ binaryGrid zeroGrid.
Proof.
  intros [Hr _] [Hc _]. split; [apply zeroGrid_dims; assumption | apply zeroGrid_binary].
Qed.

(** The loops that write a 0 or a 1 into every cell. *)
Lemma fill_binary (f : Z -> Z -> Z) (g : Grid) :
  (forall row col, f row col = 0 \/ f row col = 1) ->
  hasDims rows cols g -> binaryGrid g ->
  exists g',
    forRange 0 rows
      (fun row g1 => forRange 0 cols (fun col g0 => setCell g0 row col (f row col)) g1) g
    = Ok g' /\ hasDims rows cols g' /\ binaryGrid g'.
Proof.
  intros Hf Hd Hb.
  apply (forRange_rows_cols_preserve
           (fun g0 : Grid => hasDims rows cols g0 /\ binaryGrid g0)
           (fun row col g0 => setCell g0 row col (f row col))).
  - split; assumption.
  - intros row col t Hrow Hcol [Hdt Hbt].
    apply setCell_binary; auto.
Qed.

Lemma waveStep_binary (G : Grid) (state : PatternState) :
  arraySize rows -> arraySize cols ->
  exists res,
    waveStep G state = Ok res /\ hasDims rows cols (newGrid res) /\ binaryGrid (newGrid res).
Proof.
  intros Hrows Hcols. unfold waveStep. rewrite (createEmptyGrid_ok Hrows Hcols). simpl bind.
  destruct (zeroGrid_dims_binary Hrows Hcols) as [Hd Hb].
  destruct (fill_binary (fun row col => if waveLive row col (default 0 (time state)) then 1 else 0)
                        zeroGrid) as (g' & Hrun & Hd' & Hb'); [| assumption | assumption |].
  { intros row col. destruct (waveLive row col _); auto. }
  cbv zeta. rewrite Hrun. simpl bind. eexists. split; [reflexivity |]. split; assumption.
Qed.

Lemma spiralStep_binary (G : Grid) (state : PatternState) :
  arraySize rows -> arraySize cols ->
  exists res,
    spiralStep G state = Ok res /\ hasDims rows cols (newGrid res) /\ binaryGrid (newGrid res).
Proof.
  intros Hrows Hcols. unfold spiralStep. rewrite (createEmptyGrid_ok Hrows Hcols). simpl bind.
  destruct (zeroGrid_dims_binary Hrows Hcols) as [Hd Hb].
  destruct (fill_binary (fun row col => if spiralLive row col (default 0 (time state)) then 1 else 0)
                        zeroGrid) as (g' & Hrun & Hd' & Hb'); [| assumption | assumption |].
  { intros row col. destruct (spiralLive row col _); auto. }
  cbv zeta. rewrite Hrun. simpl bind. eexists. split; [reflexivity |]. split; assumption.
Qed.

Lemma noiseStep_binary (G : Grid) (pos : nat) :
  arraySize rows -> arraySize cols ->
  exists res pos',
    noiseStep G pos = Ok (res, pos') /\
    hasDims rows cols (newGrid res) /\ binaryGrid (newGrid res).
Proof.
  intros Hrows Hcols. unfold noiseStep. rewrite (createEmptyGrid_ok Hrows Hcols). simpl bind.
  destruct (zeroGrid_dims_binary Hrows Hcols) as [Hd Hb].
  destruct (forRange_rows_cols_preserve
              (fun st : Grid * nat => hasDims rows cols (fst st) /\ binaryGrid (fst st))
              (fun row col st =>
                 let! g := setCell (fst st) row col
                                   (if Qgt_bool (random (snd st)) double_0_8 then 1 else 0) in
                 Ok (g, S (snd st)))
              (zeroGrid, pos)) as ([g' pos'] & Hrun & Hd' & Hb').
  - split; assumption.
  - intros row col [g p] Hrow Hcol [Hdg Hbg]. simpl in Hdg, Hbg. simpl fst. simpl snd.
    destruct (setCell_binary rows cols g row col
                (if Qgt_bool (random p) double_0_8 then 1 else 0) Hdg Hbg)
      as (g0 & Hset & Hd0 & Hb0); [lia | lia | destruct (Qgt_bool _ _); auto |].
    rewrite Hset. simpl bind. eexists. split; [reflexivity |]. split; assumption.
  - rewrite Hrun. simpl bind. eexists. eexists. split; [reflexivity |]. split; assumption.
Qed.

Lemma drawRipple_binary (r : Ripple) (g : Grid) :
  hasDims rows cols g -> binaryGrid g ->
  exists g', drawRipple r g = Ok g' /\ hasDims rows cols g' /\ binaryGrid g'.
Proof.
  intros Hd Hb. unfold drawRipple.
  apply (forRange_rows_cols_preserve
           (fun g0 : Grid => hasDims rows cols g0 /\ binaryGrid g0)
           (fun row col g0 =>
              if nearRing ((row - centerRow r) ^ 2 + (col - centerCol r) ^ 2) (radius r)
              then setCell g0 row col 1
              else Ok g0)).
  - split; assumption.
  - intros row col t Hrow Hcol [Hdt Hbt].
    destruct (nearRing _ _).
    + apply setCell_binary; auto.
    + exists t. split; [reflexivity |]. split; assumption.
Qed.

(** Once the new grid is allocated, [rippleStep] returns. *)
Lemma rippleStep_allocated (G gNew : Grid) (state : PatternState) (pos : nat) :
  createEmptyGrid = Ok gNew -> hasDims rows cols gNew -> binaryGrid gNew ->
  exists res pos',
    rippleStep G state pos = Ok (res, pos') /\
    hasDims rows cols (newGrid res) /\ binaryGrid (newGrid res).
Proof.
  intros Hnew Hd Hb. unfold rippleStep. rewrite Hnew. simpl bind. cbv zeta.
  match goal with
  | |- context [forDown ?a ?b ?body (fst ?sp, gNew)] =>
      destruct (forDown_inv_min
                  (fun (j : Z) (st : list Ripple * Grid) =>
                     j < Z.of_nat (length (fst st)) /\
                     hasDims rows cols (snd st) /\ binaryGrid (snd st))
                  body a b (fst sp, gNew)) as ([rs g'] & Hrun & _ & Hd' & Hb')
  end.
  - cbn [fst snd]. split; [lia |]. split; assumption.
  - intros j [rs g] Hj (Hlen & Hdg & Hbg). simpl in Hlen, Hdg, Hbg. simpl fst. simpl snd.
    destruct (index_in_range rs j) as [r0 Hr0]; [lia |]. rewrite Hr0.
    match goal with |- context [if ?b then _ else _] => destruct b end.
    + eexists. split; [reflexivity |]. simpl. split; [| split; assumption].
      pose proof (proj1 (index_Some _ _ _) Hr0) as [_ E].
      rewrite length_delete by eauto. lia.
    + match goal with
      | |- context [drawRipple ?r g] =>
          destruct (drawRipple_binary r g Hdg Hbg) as (g0 & Hdraw & Hd0 & Hb0)
      end.
      rewrite Hdraw. simpl bind. eexists. split; [reflexivity |]. simpl.
      split; [| split; assumption]. rewrite length_insert. lia.
  - rewrite Hrun. simpl bind. eexists. eexists. split; [reflexivity |]. simpl.
    split; assumption.
Qed.

Lemma rippleStep_binary (G : Grid) (state : PatternState) (pos : nat) :
  arraySize rows -> arraySize cols ->
  exists res pos',
    rippleStep G state pos = Ok (res, pos') /\
    hasDims rows cols (newGrid res) /\ binaryGrid (newGrid res).
Proof.
  intros Hrows Hcols. destruct (zeroGrid_dims_binary Hrows Hcols) as [Hd Hb].
  exact (rippleStep_allocated G zeroGrid state pos (createEmptyGrid_ok Hrows Hcols) Hd Hb).
Qed.

(** C3 (amended). One step of Ripple, Wave, Spiral or Noise, for sizes that
    [new Array] accepts, returns a grid of exactly [rows] x [cols] cells in
    which every cell is 0 or 1, whatever the grid it is given. One step of
    Rain or Rule 30 on a [rows] x [cols] grid with at least one row whose
    cells are 0 or 1 returns a grid with [rows] rows of at least [cols] cells
    in which every cell is 0 or 1. *)
Theorem executePattern_binary (G : Grid) (P : AnimationPattern)
        (state : PatternState) (pos : nat) :
  (P = ripple \/ P = wave \/ P = spiral \/ P = noise ->
   arraySize rows -> arraySize cols ->
   exists res pos',
     executePattern G P state pos = Ok (res, pos') /\
     hasDims rows cols (newGrid res) /\ binaryGrid (newGrid res)) /\
  (P = rain \/ P = rule30 ->
   1 <= rows -> hasDims rows cols G -> binaryGrid G ->
   exists res pos',
     executePattern G P state pos = Ok (res, pos') /\
     hasDimsAtLeast rows cols (newGrid res) /\ binaryGrid (newGrid res)).
Proof.
  split.
  - intros HP Hrows Hcols. destruct HP as [HP | [HP | [HP | HP]]]; rewrite HP; simpl.
    + apply rippleStep_binary; assumption.
    + destruct (waveStep_binary G state Hrows Hcols) as (res & Hstep & Hd' & Hb').
      rewrite Hstep. simpl. exists res, pos. auto.
    + destruct (spiralStep_binary G state Hrows Hcols) as (res & Hstep & Hd' & Hb').
      rewrite Hstep. simpl. exists res, pos. auto.
    + apply noiseStep_binary; assumption.
  - intros HP Hrows1 Hd Hb. destruct HP as [HP | HP]; rewrite HP; simpl.
    + destruct (rainStep_binary G pos Hrows1 Hd Hb) as (res & pos' & Hstep & Hd' & Hb').
      exists res, pos'. auto using hasDims_atLeast.
    + destruct (rule30Step_binary G Hrows1 Hd Hb) as (res & Hstep & Hd' & Hb').
      rewrite Hstep. simpl. exists res, pos. auto.
Qed.

(** With at least one column as well, the step keeps the dimensions
    exactly. *)
Lemma executePattern_wf (G : Grid) (P : AnimationPattern)
      (state : PatternState) (pos : nat) :
  1 <= rows -> 1 <= cols -> arraySize rows -> arraySize cols ->
  hasDims rows cols G -> binaryGrid G ->
  exists res pos',
    executePattern G P state pos = Ok (res, pos') /\
    hasDims rows cols (newGrid res) /\ binaryGrid (newGrid res).
Proof.
  intros Hrows1 Hcols1 Hrows Hcols Hd Hb. destruct P; simpl.
  - destruct (gameOfLifeStep_simulationGrid G Hrows Hcols Hd) as (res & Hstep & Hd' & Hb').
    rewrite Hstep. simpl. exists res, pos. auto.
  - apply rippleStep_binary; assumption.
  - destruct (waveStep_binary G state Hrows Hcols) as (res & Hstep & Hd' & Hb').
    rewrite Hstep. simpl. exists res, pos. auto.
  - apply rainStep_binary; assumption.
  - destruct (spiralStep_binary G state Hrows Hcols) as (res & Hstep & Hd' & Hb').
    rewrite Hstep. simpl. exists res, pos. auto.
  - apply noiseStep_binary; assumption.
  - destruct (rule30Step_cells G Hrows1 Hcols1 Hd Hb) as (G' & Hstep & Hd' & Hcells).
    destruct (rule30Step_binary G Hrows1 Hd Hb) as (res & Hstep' & _ & Hb').
    rewrite Hstep in Hstep'. injection Hstep' as <-.
    rewrite Hstep. simpl. eexists. eexists. split; [reflexivity |]. simpl. auto.
  - eexists. eexists. split; [reflexivity |]. simpl. auto.
Qed.

(** ** The engine *)

(** The cases of a tick. *)
Lemma tick_cases (eager : bool) (e : Engine) :
  (isRunning (animationState e) = false /\ tick eager e = Done e) \/
  (isRunning (animationState e) = true /\
   ((exists err,
        executePattern (grid e) (currentPattern (animationState e))
                       (patternState (animationState e)) (randomPos e) = Err err /\
        tick eager e = Thrown err e) \/
    (exists res pos,
        executePattern (grid e) (currentPattern (animationState e))
                       (patternState (animationState e)) (randomPos e) = Ok (res, pos) /\
        ((isGameOfLife (currentPattern (animationState e)) && negb (hasChanged res) = true \/
          maxGenerations <= generation (animationState e)) /\
         tick eager e = Done (setGrid (grid e)
                          (setAnimationState (haltState (animationState e))
                                             (notify Stopped (setRandomPos pos e)))) \/
         (isGameOfLife (currentPattern (animationState e)) && negb (hasChanged res) = false /\
          generation (animationState e) < maxGenerations) /\
         tick eager e = Done (setGrid (if eager then newGrid res else grid e)
                          (setAnimationState
                             {| isRunning := true;
                                currentPattern := currentPattern (animationState e);
                                generation := generation (animationState e) + 1;
                                patternState := default (patternState (animationState e))
                                                        (stepState res);
                                activeLetterIndex := activeLetterIndex (animationState e);
                                baselineGrid := baselineGrid (animationState e) |}
                             (setRandomPos pos e))))))).
Proof.
  unfold tick. destruct (isRunning (animationState e)) eqn:Hrun; simpl; [right | left; auto].
  split; [reflexivity |].
  destruct (executePattern _ _ _ _) as [[res pos] | err]; [right | left; eauto].
  exists res, pos. split; [reflexivity |].
  destruct (isGameOfLife _ && negb (hasChanged res)) eqn:Hstable.
  - left. auto.
  - destruct (Z.leb_spec maxGenerations (generation (animationState e))).
    + left. auto.
    + right. auto.
Qed.

Lemma animate_cases (eager : bool) (elapsed : Z) (e : Engine) :
  animate eager elapsed e = tick eager e \/ animate eager elapsed e = Done e.
Proof. unfold animate. destruct (animationSpeed <? elapsed); auto. Qed.

Lemma tick_baselineGrid (eager : bool) (e : Engine) :
  baselineGrid (animationState (after (tick eager e))) = baselineGrid (animationState e).
Proof.
  destruct (tick_cases eager e) as [[_ ->] | [_ [(err & _ & ->) | (res & pos & _ & [[_ ->] | [_ ->]])]]];
    reflexivity.
Qed.

Lemma animate_baselineGrid (eager : bool) (elapsed : Z) (e : Engine) :
  baselineGrid (animationState (after (animate eager elapsed e)))
  = baselineGrid (animationState e).
Proof.
  destruct (animate_cases eager elapsed e) as [-> | ->];
    [apply tick_baselineGrid | reflexivity].
Qed.

Lemma changePattern_baselineGrid (pattern : AnimationPattern) (e : Engine) :
  baselineGrid (animationState (after (changePattern pattern e))) =
  baselineGrid (animationState e).
Proof.
  unfold changePattern.
  destruct pattern; simpl;
    repeat match goal with
           | |- context [match ?x with Ok _ => _ | Err _ => _ end] => destruct x as [[? ?] | ?]
           | |- context [match ?x with Ok _ => _ | Err _ => _ end] => destruct x
           end; reflexivity.
Qed.

Lemma run_whileRunning_baselineGrid (l : list Action) :
  Forall whileRunning l ->
  forall e, baselineGrid (animationState (run l e)) = baselineGrid (animationState e).
Proof.
  induction 1 as [| a l Ha _ IH]; intros e; [reflexivity |].
  unfold run in *. simpl. rewrite IH.
  destruct a; simpl in Ha; try contradiction; simpl.
  - apply animate_baselineGrid.
  - apply changePattern_baselineGrid.
Qed.

Lemma stopAnimation_grid (e : Engine) :
  grid (after (stopAnimation e)) = default (grid e) (baselineGrid (animationState e)).
Proof.
  unfold stopAnimation. destruct (baselineGrid (animationState e)) as [b|]; simpl;
    rewrite ?copyGrid_id; reflexivity.
Qed.

Lemma changePattern_generation (P : AnimationPattern) (e : Engine) :
  generation (animationState (after (changePattern P e))) = 0.
Proof.
  unfold changePattern.
  destruct P; simpl;
    repeat match goal with
           | |- context [match ?x with Ok _ => _ | Err _ => _ end] => destruct x as [[? ?] | ?]
           | |- context [match ?x with Ok _ => _ | Err _ => _ end] => destruct x
           end; reflexivity.
Qed.

Lemma resetGrid_generation (e : Engine) :
  generation (animationState (after (resetGrid e))) = 0.
Proof. unfold resetGrid. destruct createEmptyGrid; reflexivity. Qed.

Lemma randomizeGrid_generation (e : Engine) :
  generation (animationState (after (randomizeGrid e))) = 0.
Proof. unfold randomizeGrid. destruct (createRandomGrid _) as [[? ?] | ?]; reflexivity. Qed.

(** C2 (amended). [stopAnimation] does not throw; it sets [isRunning] to
    false and [activeLetterIndex] to none, restores the live grid to a copy
    of [baselineGrid] when one is present and leaves the grid unchanged
    otherwise, and keeps [baselineGrid] itself as it was: the baseline is
    not cleared. The pattern, the generation and the pattern state are
    untouched, and the stopped notification is sent. *)
Theorem stopAnimation_spec (e : Engine) :
  thrown (stopAnimation e) = None /\
  grid (after (stopAnimation e)) = default (grid e) (baselineGrid (animationState e)) /\
  baselineGrid (animationState (after (stopAnimation e))) = baselineGrid (animationState e) /\
  isRunning (animationState (after (stopAnimation e))) = false /\
  activeLetterIndex (animationState (after (stopAnimation e))) = None /\
  currentPattern (animationState (after (stopAnimation e))) = currentPattern (animationState e) /\
  generation (animationState (after (stopAnimation e))) = generation (animationState e) /\
  patternState (animationState (after (stopAnimation e))) = patternState (animationState e) /\
  notifications (after (stopAnimation e)) = notifications e ++ [Stopped].
Proof.
  unfold stopAnimation. destruct (baselineGrid (animationState e)) as [b|] eqn:Hb; simpl;
    rewrite ?copyGrid_id; repeat split; reflexivity.
Qed.

(** C1 (amended). [startAnimation] captures a baseline only when none is
    present, and [stopAnimation] restores a copy of the baseline. So after
    [start(P, i)], any number of scheduler ticks and pattern changes, and
    then [stop()]: if a baseline was already present when [start] was called,
    the live grid is that baseline; and if none was present and the
    [startAnimation] callback closes over the current live grid [G], the live
    grid is [G] again. *)
Theorem start_stop_restores (e : Engine) (P : AnimationPattern) (i : Z) (l : list Action) :
  Forall whileRunning l ->
  (forall b, baselineGrid (animationState e) = Some b ->
             grid (after (stopAnimation (run l (after (startAnimation P i e))))) = b) /\
  (baselineGrid (animationState e) = None -> startGrid e = grid e ->
   grid (after (stopAnimation (run l (after (startAnimation P i e))))) = grid e).
Proof.
  intros Hl.
  assert (H : grid (after (stopAnimation (run l (after (startAnimation P i e))))) =
              default (startGrid e) (baselineGrid (animationState e))).
  { rewrite stopAnimation_grid.
    rewrite (run_whileRunning_baselineGrid l Hl). simpl.
    destruct (baselineGrid (animationState e)); simpl; [reflexivity | apply copyGrid_id]. }
  split.
  - intros b Hb. rewrite H, Hb. reflexivity.
  - intros Hnone Hsame. rewrite H, Hnone. simpl. exact Hsame.
Qed.

(** X22. When a tick stops the animation by itself -- the engine was
    running before [animate] and is not running after it -- the tick did not
    throw, the live grid is the grid of before the tick (it is not restored
    to the baseline), the stopped notification is sent, and [baselineGrid],
    [activeLetterIndex], [currentPattern] and [generation] are as before,
    whichever way React runs the updaters. The pattern state is as before
    too, except under Ripple: the step has run before the stop is decided,
    and every ripple of the state has grown by 0.5. *)
Theorem animate_auto_stop_frame (eager : bool) (elapsed : Z) (e : Engine) :
  isRunning (animationState e) = true ->
  isRunning (animationState (after (animate eager elapsed e))) = false ->
  thrown (animate eager elapsed e) = None /\
  grid (after (animate eager elapsed e)) = grid e /\
  baselineGrid (animationState (after (animate eager elapsed e)))
  = baselineGrid (animationState e) /\
  activeLetterIndex (animationState (after (animate eager elapsed e)))
  = activeLetterIndex (animationState e) /\
  currentPattern (animationState (after (animate eager elapsed e)))
  = currentPattern (animationState e) /\
  generation (animationState (after (animate eager elapsed e)))
  = generation (animationState e) /\
  (currentPattern (animationState e) <> ripple ->
   patternState (animationState (after (animate eager elapsed e)))
   = patternState (animationState e)) /\
  (currentPattern (animationState e) = ripple ->
   patternState (animationState (after (animate eager elapsed e)))
   = {| ripples := match ripples (patternState (animationState e)) with
                   | Some l => Some (growRipple <$> l)
                   | None => None
                   end;
        time := time (patternState (animationState e)) |}) /\
  notifications (after (animate eager elapsed e)) = notifications e ++ [Stopped].
Proof.
  intros Hrun Hstop.
  destruct (animate_cases eager elapsed e) as [Ha | Ha]; rewrite Ha in *.
  - destruct (tick_cases eager e)
      as [[Hnot _] | [_ [(err & _ & Ht) | (res & pos & _ & [[_ Ht] | [_ Ht]])]]];
      rewrite ?Ht in *; simpl in *; try congruence.
    split; [reflexivity |]. split; [reflexivity |]. split; [reflexivity |].
    split; [reflexivity |]. split; [reflexivity |]. split; [reflexivity |].
    split; [| split; [| reflexivity]].
    + intros Hp. destruct (currentPattern (animationState e)); try reflexivity.
      contradiction.
    + intros Hp. rewrite Hp. reflexivity.
  - simpl in Hstop. congruence.
Qed.

(** C6. From every state of the engine, a tick that commits a step -- the
    engine runs, the interval has elapsed, the step function returns, the
    Game of Life has not stabilised and the generation limit is not reached
    -- increases [generation] by exactly 1 and leaves the engine running,
    whichever way React runs the updaters; the grid is the grid of the step
    when the updater of the state runs inside the updater of the grid, and
    the grid of before otherwise. Each of [startAnimation], [changePattern],
    [resetGrid] and [randomizeGrid] sets [generation] to 0. *)
Theorem generation_counts (e : Engine) :
  (forall eager elapsed res pos,
      animationSpeed < elapsed ->
      isRunning (animationState e) = true ->
      executePattern (grid e) (currentPattern (animationState e))
                     (patternState (animationState e)) (randomPos e) = Ok (res, pos) ->
      isGameOfLife (currentPattern (animationState e)) && negb (hasChanged res) = false ->
      generation (animationState e) < maxGenerations ->
      generation (animationState (after (animate eager elapsed e))) =
        generation (animationState e) + 1 /\
      isRunning (animationState (after (animate eager elapsed e))) = true /\
      grid (after (animate eager elapsed e)) = (if eager then newGrid res else grid e)) /\
  (forall P i, generation (animationState (after (startAnimation P i e))) = 0) /\
  (forall P, generation (animationState (after (changePattern P e))) = 0) /\
  generation (animationState (after (resetGrid e))) = 0 /\
  generation (animationState (after (randomizeGrid e))) = 0.
Proof.
  split; [| split; [| split; [| split]]].
  - intros eager elapsed res pos Hdue Hrun Hexec Hstable Hgen.
    unfold animate. destruct (Z.ltb_spec animationSpeed elapsed); [|lia].
    unfold tick. rewrite Hrun, Hexec. simpl negb. cbv iota. cbv zeta. rewrite Hstable.
    destruct (Z.leb_spec maxGenerations (generation (animationState e))); [lia |].
    simpl. auto.
  - intros P i. reflexivity.
  - intros P. apply changePattern_generation.
  - apply resetGrid_generation.
  - apply randomizeGrid_generation.
Qed.

(** ** Construction and totality *)

Lemma classic_allocatable : allocatable \/ ~ allocatable.
Proof. unfold allocatable, arraySize. lia. Qed.

Lemma createEmptyGrid_allocatable : allocatable -> createEmptyGrid = Ok zeroGrid.
Proof.
  intros [Hr [Hz | Hc]].
  - unfold zeroGrid. rewrite (createEmptyGrid_no_rows Hz), Hz. reflexivity.
  - apply createEmptyGrid_ok; assumption.
Qed.

Lemma createEmptyGrid_not_allocatable : ~ allocatable -> createEmptyGrid = Err RangeError.
Proof.
  intros Hn. unfold createEmptyGrid, newArray at 1.
  destruct (Z.ltb_spec rows 0); [reflexivity |].
  destruct (Z.leb_spec (2 ^ 32) rows); [reflexivity |]. simpl.
  assert (Hcols : newArray cols = Err RangeError).
  { unfold newArray. destruct (Z.ltb_spec cols 0); [reflexivity |].
    destruct (Z.leb_spec (2 ^ 32) cols); [reflexivity |].
    exfalso. apply Hn. split; [split; lia | right; split; lia]. }
  destruct (Z.to_nat rows) as [|n] eqn:En.
  - exfalso. apply Hn. split; [split; lia | left; lia].
  - simpl. rewrite Hcols. reflexivity.
Qed.

Lemma mapRand_preserve {A B : Type} (Q : B -> Prop) (f : A -> nat -> Res (B * nat)) :
  (forall x p, exists y p', f x p = Ok (y, p') /\ Q y) ->
  forall (l : list A) (p : nat),
  exists ys p', mapRand f l p = Ok (ys, p') /\ length ys = length l /\ Forall Q ys.
Proof.
  intros Hf. induction l as [|x l IH]; intros p.
  - exists [], p. simpl. auto.
  - destruct (Hf x p) as (y & p1 & Hy & HQ). destruct (IH p1) as (ys & p2 & Hys & Hlen & Hall).
    exists (y :: ys), p2. simpl. rewrite Hy. simpl. rewrite Hys. simpl.
    split; [reflexivity |]. split; [congruence | constructor; assumption].
Qed.

Lemma createRandomGrid_ok (pos : nat) :
  arraySize rows -> arraySize cols ->
  exists g pos', createRandomGrid pos = Ok (g, pos') /\ simulationGrid g.
Proof.
  intros Hr Hc. unfold createRandomGrid. rewrite (newArray_ok rows Hr). simpl bind.
  destruct (mapRand_preserve
              (fun row : Row => Z.of_nat (length row) = cols /\ Forall (fun v => v = 0 \/ v = 1) row)
              (fun (_ : Z) pos1 =>
                 let! b := newArray cols in
                 mapRand (fun (_ : Z) pos2 =>
                            Ok (if Qgt_bool (random pos2) (7 # 10) then 1 else 0, S pos2))
                         b pos1)) with (l := replicate (Z.to_nat rows) 0) (p := pos)
    as (g & pos' & Hrun & Hlen & Hall).
  - intros x p. rewrite (newArray_ok cols Hc). simpl bind.
    destruct (mapRand_preserve
                (fun v : Z => v = 0 \/ v = 1)
                (fun (_ : Z) pos2 =>
                   Ok (if Qgt_bool (random pos2) (7 # 10) then 1 else 0, S pos2)))
      with (l := replicate (Z.to_nat cols) 0) (p := p) as (row & p' & Hrow & Hlenr & Hallr).
    + intros y q. eexists. eexists. split; [reflexivity |].
      destruct (Qgt_bool _ _); auto.
    + exists row, p'. split; [assumption |]. split; [|assumption].
      rewrite Hlenr, length_replicate. destruct Hc. lia.
  - exists g, pos'. split; [assumption |]. rewrite length_replicate in Hlen. split; [split |].
    + destruct Hr. lia.
    + eapply Forall_impl; [exact Hall |]. simpl. intros row [Hlenr _]. exact Hlenr.
    + eapply Forall_impl; [exact Hall |]. simpl. intros row [_ Hbin]. exact Hbin.
Qed.

Lemma rule30Seed_ok :
  1 <= rows -> 1 <= cols -> arraySize rows -> arraySize cols ->
  exists g, rule30Seed = Ok g /\ simulationGrid g.
Proof.
  intros Hr1 Hc1 Hr Hc. unfold rule30Seed. rewrite (createEmptyGrid_ok Hr Hc). simpl bind.
  destruct (zeroGrid_dims_binary Hr Hc) as [Hd Hb].
  destruct (setCell_binary rows cols zeroGrid (rows / 2) (cols / 2) 1 Hd Hb)
    as (g & Hset & Hd' & Hb'); [| | auto |].
  - split; [apply Z.div_pos; lia | apply Z.div_lt_upper_bound; lia].
  - split; [apply Z.div_pos; lia | apply Z.div_lt_upper_bound; lia].
  - exists g. split; [assumption |]. split; assumption.
Qed.

(** With at least one row and one column, no operation throws on a
    well-formed engine, and it leaves a well-formed engine. *)
Lemma perform_wellFormed (a : Action) (e : Engine) :
  1 <= rows -> 1 <= cols -> arraySize rows -> arraySize cols ->
  wellFormed e ->
  thrown (perform a e) = None /\ wellFormed (after (perform a e)).
Proof.
  intros Hr1 Hc1 Hr Hc Hwf. pose proof Hwf as (Hgrid & Hstart & Hbase).
  destruct (zeroGrid_dims_binary Hr Hc) as [Hzd Hzb].
  destruct a as [eager elapsed | P i | | P | | |]; simpl perform.
  - destruct (animate_cases eager elapsed e) as [-> | ->];
      [| simpl; split; [reflexivity | exact Hwf]].
    destruct (tick_cases eager e)
      as [[_ ->] | [_ [(err & Hexec & _) | (res & pos & Hexec & Hcase)]]].
    + simpl. split; [reflexivity | exact Hwf].
    + destruct Hgrid as [Hd Hb].
      destruct (executePattern_wf (grid e) (currentPattern (animationState e))
                  (patternState (animationState e)) (randomPos e) Hr1 Hc1 Hr Hc Hd Hb)
        as (res & pos & Hok & _). congruence.
    + destruct Hgrid as [Hd Hb].
      destruct (executePattern_wf (grid e) (currentPattern (animationState e))
                  (patternState (animationState e)) (randomPos e) Hr1 Hc1 Hr Hc Hd Hb)
        as (res' & pos' & Hok & Hd' & Hb').
      rewrite Hexec in Hok. injection Hok as <- <-.
      destruct Hcase as [[_ ->] | [_ ->]]; try destruct eager; simpl;
        (split; [reflexivity |]); (split; [first [assumption | split; assumption] |]);
        (split; assumption).
  - unfold startAnimation. simpl. split; [reflexivity |]. split; [assumption |].
    split; [assumption |]. simpl.
    destruct (baselineGrid (animationState e)); [assumption |]. rewrite copyGrid_id. assumption.
  - unfold stopAnimation. simpl. split; [reflexivity |].
    destruct (baselineGrid (animationState e)) as [b|] eqn:Eb; simpl.
    + rewrite copyGrid_id. split; [assumption |]. split; assumption.
    + split; [assumption |]. split; [assumption | exact I].
  - unfold changePattern.
    destruct (createRandomGrid_ok (randomPos e) Hr Hc) as (g & pos & Hrand & Hg).
    destruct (rule30Seed_ok Hr1 Hc1 Hr Hc) as (g30 & Hseed & Hg30).
    destruct P; simpl; rewrite ?Hrand, ?Hseed, ?(createEmptyGrid_ok Hr Hc); simpl;
      (split; [reflexivity |]); (split; [first [assumption | split; assumption] |]);
      (split; assumption).
  - unfold resetGrid. rewrite (createEmptyGrid_ok Hr Hc). simpl.
    split; [reflexivity |]. split; [split; assumption |]. split; assumption.
  - unfold randomizeGrid.
    destruct (createRandomGrid_ok (randomPos e) Hr Hc) as (g & pos & Hrand & Hg).
    simpl. rewrite Hrand. simpl.
    split; [reflexivity |]. split; [assumption |]. split; assumption.
  - simpl. split; [reflexivity |]. split; [assumption |]. split; assumption.
Qed.

(** [rippleStep] throws only where it allocates the new grid, which is before
    it writes to the ripples of the state: a tick whose step throws leaves
    the pattern state as it was. *)
Lemma rippleStep_throws_at_allocation (G : Grid) (state : PatternState) (pos : nat)
      (err : Failure) :
  rippleStep G state pos = Err err -> createEmptyGrid = Err err.
Proof.
  intros Hstep. destruct classic_allocatable as [Ha | Hn].
  - exfalso.
    assert (Hd : hasDims rows cols zeroGrid).
    { destruct Ha as [Hr [Hz | Hc]].
      - unfold zeroGrid. rewrite Hz. split; [reflexivity | constructor].
      - apply zeroGrid_dims_binary; assumption. }
    destruct (rippleStep_allocated G zeroGrid state pos
                (createEmptyGrid_allocatable Ha) Hd zeroGrid_binary)
      as (res & pos' & Hok & _).
    congruence.
  - pose proof (createEmptyGrid_not_allocatable Hn) as Hnew.
    unfold rippleStep in Hstep. rewrite Hnew in Hstep. simpl in Hstep.
    rewrite Hnew. injection Hstep as <-. reflexivity.
Qed.

Lemma useAnimationPatterns_allocatable (e : Engine) :
  useAnimationPatterns = Ok e -> allocatable /\ grid e = zeroGrid /\ startGrid e = zeroGrid /\
                                 baselineGrid (animationState e) = None.
Proof.
  unfold useAnimationPatterns. intros H.
  destruct (classic_allocatable) as [Ha | Hn].
  - rewrite (createEmptyGrid_allocatable Ha) in H. simpl in H. injection H as <-.
    unfold firstRender. simpl. auto.
  - rewrite (createEmptyGrid_not_allocatable Hn) in H. discriminate.
Qed.

Lemma reachable_wellFormed (e : Engine) :
  1 <= rows -> 1 <= cols -> reachable e ->
  arraySize rows /\ arraySize cols /\ wellFormed e.
Proof.
  intros Hr1 Hc1. induction 1 as [e Hinit | a e _ IH].
  - destruct (useAnimationPatterns_allocatable e Hinit) as ([Hr [Hz | Hc]] & Hg & Hs & Hb);
      [lia |].
    destruct (zeroGrid_dims_binary Hr Hc) as [Hzd Hzb].
    split; [assumption |]. split; [assumption |].
    unfold wellFormed, simulationGrid. rewrite Hg, Hs, Hb. auto.
  - destruct IH as (Hr & Hc & Hwf). split; [assumption |]. split; [assumption |].
    apply perform_wellFormed; assumption.
Qed.

Lemma reachable_run (l : list Action) :
  forall e, reachable e -> reachable (run l e).
Proof.
  induction l as [|a l IH]; intros e He; [assumption |].
  unfold run in *. simpl. apply IH. apply reachable_next. assumption.
Qed.



(** C8 (amended). The first render validates nothing by itself: it succeeds
    exactly when its array allocations do -- for every [rows] in
    [0 .. 2^32 - 1] together with either [rows = 0] or [cols] in
    [0 .. 2^32 - 1], zero rows or zero columns included, giving the grid of
    zeros -- and otherwise it fails with the range error of the allocation.
    With at least one row and one column, no operation of the engine throws
    in any state the engine can reach. *)
Theorem construction_unvalidated :
  (allocatable -> exists e, useAnimationPatterns = Ok e /\ grid e = zeroGrid) /\
  (~ allocatable -> useAnimationPatterns = Err RangeError) /\
  (1 <= rows -> 1 <= cols ->
   forall e a, reachable e -> thrown (perform a e) = None).
Proof.
  split; [| split].
  - intros Ha. unfold useAnimationPatterns. rewrite (createEmptyGrid_allocatable Ha).
    simpl. eexists. split; reflexivity.
  - intros Hn. unfold useAnimationPatterns. rewrite (createEmptyGrid_not_allocatable Hn).
    reflexivity.
  - intros Hr1 Hc1 e a Hreach.
    destruct (reachable_wellFormed e Hr1 Hc1 Hreach) as (Hr & Hc & Hwf).
    apply perform_wellFormed; assumption.
Qed.


(** * Further properties of the hook *)

(** Two grids of the same dimensions with the same cells are the same. *)
Lemma grid_ext (R C : Z) (g1 g2 : Grid) :
  hasDims R C g1 -> hasDims R C g2 ->
  (forall r c, 0 <= r < R -> 0 <= c < C -> cellAt g1 r c = cellAt g2 r c) -> g1 = g2.
Proof.
  intros Hd1 Hd2 H. apply list_eq. intros i.
  destruct (g1 !! i) as [row1|] eqn:E1.
  - assert (Hi : (i < length g1)%nat) by (eapply lookup_lt_Some; eassumption).
    destruct (lookup_lt_is_Some_2 g2 i) as [row2 E2]; [destruct Hd1, Hd2; lia |].
    rewrite E2. f_equal. apply list_eq. intros j.
    assert (Hl1 : Z.of_nat (length row1) = C).
    { apply (hasDims_row R C g1 (Z.of_nat i)); [assumption | rewrite index_of_nat; assumption]. }
    assert (Hl2 : Z.of_nat (length row2) = C).
    { apply (hasDims_row R C g2 (Z.of_nat i)); [assumption | rewrite index_of_nat; assumption]. }
    destruct (Nat.lt_ge_cases j (length row1)) as [Hj | Hj].
    + specialize (H (Z.of_nat i) (Z.of_nat j)). unfold cellAt in H.
      rewrite !index_of_nat, E1, E2, !index_of_nat in H. apply H; destruct Hd1; lia.
    + rewrite (proj2 (lookup_ge_None row1 j)) by lia.
      symmetry. apply lookup_ge_None. lia.
  - symmetry. apply lookup_ge_None. apply lookup_ge_None in E1.
    destruct Hd1, Hd2. lia.
Qed.

(** ** The Game of Life at rest *)

(** X1. On every [rows] x [cols] grid of integers the Game of Life step
    reports [hasChanged = false] exactly when the grid it returns is the grid
    it was given; and then a second application returns the same result
    again. *)
Theorem gameOfLifeStep_unchanged_iff (G : Grid) :
  arraySize rows -> arraySize cols -> hasDims rows cols G ->
  exists res,
    gameOfLifeStep G = Ok res /\
    (hasChanged res = false <-> newGrid res = G) /\
    (hasChanged res = false -> gameOfLifeStep (newGrid res) = Ok res).
Proof.
  intros Hrows Hcols Hd.
  destruct (gameOfLifeStep_cells G Hrows Hcols Hd) as (G' & ch & Hstep & Hd' & Hcells & Hflag).
  assert (Hiff : ch = false <-> G' = G).
  { split.
    - intros Hch. apply (grid_ext rows cols); [assumption | assumption |].
      intros r c Hr Hc. rewrite (Hcells r c Hr Hc).
      destruct (cellAt_in_range rows cols G r c Hd Hr Hc) as [z Hz].
      destruct (Z.eq_dec (lifeCell G r c) z) as [-> | Hne]; [congruence |].
      assert (Hex : ch = true).
      { apply Hflag. exists r, c. split; [auto |]. rewrite Hz. simpl.
        apply negb_true_iff, Z.eqb_neq. assumption. }
      congruence.
    - intros ->. destruct ch; [|reflexivity].
      destruct (proj1 Hflag eq_refl) as (r & c & [Hr Hc] & Hdiff).
      rewrite (Hcells r c Hr Hc) in Hdiff. simpl in Hdiff.
      rewrite Z.eqb_refl in Hdiff. discriminate. }
  eexists. split; [exact Hstep |]. simpl. split; [exact Hiff |].
  intros Hch. pose proof (proj1 Hiff Hch) as HG. rewrite HG.
  rewrite HG in Hstep. exact Hstep.
Qed.

Lemma filter_none {A : Type} (P : A -> Prop) `{forall x, Decision (P x)} (l : list A) :
  (forall x, ~ P x) -> filter P l = [].
Proof.
  intros Hn. induction l as [|x l IH]; [reflexivity |].
  rewrite filter_cons. destruct (decide (P x)); [exfalso; eapply Hn; eassumption | exact IH].
Qed.

Lemma lifeCell_zeroGrid (r c : Z) :
  0 <= rows -> 0 <= cols -> 0 <= r < rows -> 0 <= c < cols -> lifeCell zeroGrid r c = 0.
Proof.
  intros Hrows Hcols Hr Hc. unfold lifeCell.
  rewrite (neighborCount_live zeroGrid r c (zeroGrid_dims Hrows Hcols) zeroGrid_binary).
  unfold liveNeighbors. rewrite filter_none.
  - destruct (cellAt_in_range rows cols zeroGrid r c (zeroGrid_dims Hrows Hcols) Hr Hc) as [z Hz].
    rewrite Hz, (zeroGrid_cell r c z Hz). reflexivity.
  - intros d Hd. apply zeroGrid_cell in Hd. discriminate.
Qed.

(** The grid of zeros is a fixed point of the Game of Life. *)
Lemma gameOfLifeStep_zeroGrid :
  allocatable ->
  gameOfLifeStep zeroGrid =
  Ok {| newGrid := zeroGrid; hasChanged := false; stepState := None |}.
Proof.
  intros [Hrows [Hz | Hcols]].
  - unfold gameOfLifeStep. rewrite (createEmptyGrid_no_rows Hz). simpl bind.
    rewrite forRange_empty by lia. simpl. unfold zeroGrid. rewrite Hz. reflexivity.
  - destruct (zeroGrid_dims_binary Hrows Hcols) as [Hd Hb].
    destruct (gameOfLifeStep_cells zeroGrid Hrows Hcols Hd)
      as (G' & ch & Hstep & Hd' & Hcells & Hflag).
    assert (Hch : ch = false).
    { destruct ch; [|reflexivity].
      destruct (proj1 Hflag eq_refl) as (r & c & [Hr Hc] & Hdiff).
      rewrite lifeCell_zeroGrid in Hdiff by (destruct Hrows, Hcols; lia).
      destruct (cellAt_in_range rows cols zeroGrid r c Hd Hr Hc) as [z Hzc].
      rewrite Hzc, (zeroGrid_cell r c z Hzc) in Hdiff. discriminate. }
    assert (HG : G' = zeroGrid).
    { apply (grid_ext rows cols); [assumption | assumption |].
      intros r c Hr Hc. rewrite (Hcells r c Hr Hc).
      rewrite lifeCell_zeroGrid by (destruct Hrows, Hcols; lia).
      destruct (cellAt_in_range rows cols zeroGrid r c Hd Hr Hc) as [z Hzc].
      rewrite Hzc, (zeroGrid_cell r c z Hzc). reflexivity. }
    rewrite Hstep, Hch, HG. reflexivity.
Qed.

(** X2. The animation of the Game of Life started right after the first
    render never shows a generation: the grid of the first render is the
    grid of zeros, which the Game of Life leaves unchanged, so the first tick
    whose interval has elapsed stops the animation without throwing, with the
    grid and the generation 0 as they were, and the notifications are the
    start followed by the stop. *)
Theorem gameOfLife_first_start_stops (e : Engine) (eager : bool) (i elapsed : Z) :
  useAnimationPatterns = Ok e ->
  animationSpeed < elapsed ->
  thrown (animate eager elapsed (after (startAnimation gameOfLife i e))) = None /\
  isRunning (animationState (after (animate eager elapsed (after (startAnimation gameOfLife i e)))))
  = false /\
  grid (after (animate eager elapsed (after (startAnimation gameOfLife i e)))) = grid e /\
  generation (animationState (after (animate eager elapsed (after (startAnimation gameOfLife i e)))))
  = 0 /\
  notifications (after (animate eager elapsed (after (startAnimation gameOfLife i e))))
  = [Started gameOfLife; Stopped].
Proof.
  intros Hinit Hdue.
  destruct (useAnimationPatterns_allocatable e Hinit) as (Ha & Hg & _ & _).
  unfold useAnimationPatterns in Hinit. rewrite (createEmptyGrid_allocatable Ha) in Hinit.
  simpl in Hinit. injection Hinit as <-.
  unfold animate. destruct (Z.ltb_spec animationSpeed elapsed); [|lia].
  unfold tick, startAnimation, firstRender. simpl.
  rewrite (gameOfLifeStep_zeroGrid Ha). simpl. repeat split; reflexivity.
Qed.

(** ** Invariants of the reachable states *)

Lemma changePattern_frame (P : AnimationPattern) (e : Engine) :
  isRunning (animationState (after (changePattern P e))) = isRunning (animationState e) /\
  activeLetterIndex (animationState (after (changePattern P e)))
  = activeLetterIndex (animationState e) /\
  startGrid (after (changePattern P e)) = startGrid e /\
  currentPattern (animationState (after (changePattern P e))) = P /\
  patternState (animationState (after (changePattern P e))) = emptyPatternState.
Proof.
  unfold changePattern.
  destruct P; simpl;
    repeat match goal with
           | |- context [match ?x with Ok _ => _ | Err _ => _ end] => destruct x as [[? ?] | ?]
           | |- context [match ?x with Ok _ => _ | Err _ => _ end] => destruct x
           end; repeat split; reflexivity.
Qed.

Lemma resetGrid_frame (e : Engine) :
  animationState (after (resetGrid e)) = clearedState (animationState e) /\
  startGrid (after (resetGrid e)) = startGrid e.
Proof. unfold resetGrid. destruct createEmptyGrid; split; reflexivity. Qed.

Lemma randomizeGrid_frame (e : Engine) :
  animationState (after (randomizeGrid e)) = clearedState (animationState e) /\
  startGrid (after (randomizeGrid e)) = startGrid e.
Proof.
  unfold randomizeGrid. destruct (createRandomGrid _) as [[? ?] | ?]; split; reflexivity.
Qed.

Lemma tick_frame (eager : bool) (e : Engine) :
  startGrid (after (tick eager e)) = startGrid e /\
  activeLetterIndex (animationState (after (tick eager e))) = activeLetterIndex (animationState e) /\
  currentPattern (animationState (after (tick eager e))) = currentPattern (animationState e) /\
  (isRunning (animationState (after (tick eager e))) = true -> isRunning (animationState e) = true).
Proof.
  destruct (tick_cases eager e)
    as [[Hnot ->] | [Hrun [(err & _ & ->) | (res & pos & _ & [[_ ->] | [_ ->]])]]];
    simpl; repeat split; auto.
Qed.

Lemma animate_frame (eager : bool) (elapsed : Z) (e : Engine) :
  startGrid (after (animate eager elapsed e)) = startGrid e /\
  activeLetterIndex (animationState (after (animate eager elapsed e)))
  = activeLetterIndex (animationState e) /\
  currentPattern (animationState (after (animate eager elapsed e)))
  = currentPattern (animationState e) /\
  (isRunning (animationState (after (animate eager elapsed e))) = true ->
   isRunning (animationState e) = true).
Proof.
  destruct (animate_cases eager elapsed e) as [-> | ->]; [apply tick_frame | simpl; auto].
Qed.

(** X3. In every state the engine can reach, a running animation has an
    active letter: [isRunning] is true only while [activeLetterIndex] is
    set. *)
Theorem running_has_active_letter (e : Engine) :
  reachable e ->
  isRunning (animationState e) = true ->
  activeLetterIndex (animationState e) <> None.
Proof.
  induction 1 as [e Hinit | a e _ IH].
  - unfold useAnimationPatterns in Hinit. destruct createEmptyGrid; [|discriminate].
    simpl in Hinit. injection Hinit as <-. simpl. discriminate.
  - destruct a as [eager elapsed | P i | | P | | |]; simpl perform.
    + destruct (animate_frame eager elapsed e) as (_ & -> & _ & Hrun). auto.
    + simpl. discriminate.
    + simpl. discriminate.
    + destruct (changePattern_frame P e) as (-> & -> & _). exact IH.
    + destruct (resetGrid_frame e) as [-> _]. simpl. discriminate.
    + destruct (randomizeGrid_frame e) as [-> _]. simpl. discriminate.
    + simpl. exact IH.
Qed.

(** X4. With at least one row and one column, in every state the engine can
    reach the live grid has exactly [rows] x [cols] cells, all 0 or 1, and so
    has the baseline whenever one is present. *)
Theorem reachable_grids_fixed_size (e : Engine) :
  1 <= rows -> 1 <= cols -> reachable e ->
  (hasDims rows cols (grid e) /\ binaryGrid (grid e)) /\
  (forall b, baselineGrid (animationState e) = Some b ->
             hasDims rows cols b /\ binaryGrid b).
Proof.
  intros Hr1 Hc1 Hreach.
  destruct (reachable_wellFormed e Hr1 Hc1 Hreach) as (_ & _ & Hgrid & _ & Hbase).
  split; [exact Hgrid |]. intros b Hb. rewrite Hb in Hbase. exact Hbase.
Qed.

Lemma perform_noRenewal (a : Action) (e : Engine) :
  noRenewal a ->
  startGrid e = zeroGrid ->
  (baselineGrid (animationState e) = None \/ baselineGrid (animationState e) = Some zeroGrid) ->
  startGrid (after (perform a e)) = zeroGrid /\
  (baselineGrid (animationState (after (perform a e))) = None \/
   baselineGrid (animationState (after (perform a e))) = Some zeroGrid).
Proof.
  intros Ha Hs Hb. destruct a as [eager elapsed | P i | | P | | |]; simpl perform.
  - destruct (animate_frame eager elapsed e) as (-> & _). rewrite animate_baselineGrid. auto.
  - simpl. split; [assumption |]. right.
    destruct Hb as [-> | ->]; [rewrite copyGrid_id, Hs |]; reflexivity.
  - simpl. split; [| assumption].
    destruct (baselineGrid (animationState e)); simpl; assumption.
  - destruct (changePattern_frame P e) as (_ & _ & -> & _).
    rewrite changePattern_baselineGrid. auto.
  - destruct (resetGrid_frame e) as [-> ->]. simpl. auto.
  - destruct (randomizeGrid_frame e) as [-> ->]. simpl. auto.
  - simpl in Ha. contradiction.
Qed.

(** X5. As long as the host does not pass another [onAnimationStart] (no
    render renews [startAnimation]), the grid that [startAnimation] copies is
    the grid of zeros of the first render: after any sequence of the other
    operations the baseline is either absent or the grid of zeros, and a stop
    with a baseline present leaves the grid of zeros, whatever grid was shown
    before the animation started. *)
Theorem baseline_is_first_render (e0 : Engine) (l : list Action) :
  useAnimationPatterns = Ok e0 ->
  Forall noRenewal l ->
  startGrid (run l e0) = zeroGrid /\
  (baselineGrid (animationState (run l e0)) = None \/
   baselineGrid (animationState (run l e0)) = Some zeroGrid) /\
  (baselineGrid (animationState (run l e0)) <> None ->
   grid (after (stopAnimation (run l e0))) = zeroGrid).
Proof.
  intros Hinit Hl.
  destruct (useAnimationPatterns_allocatable e0 Hinit) as (_ & _ & Hs & Hb).
  assert (H : startGrid (run l e0) = zeroGrid /\
              (baselineGrid (animationState (run l e0)) = None \/
               baselineGrid (animationState (run l e0)) = Some zeroGrid)).
  { assert (Hb0 : baselineGrid (animationState e0) = None \/
                  baselineGrid (animationState e0) = Some zeroGrid) by auto.
    clear Hinit Hb. revert e0 Hs Hb0.
    induction Hl as [| a l Ha _ IH]; intros e0 Hs Hb0; [auto |].
    unfold run in *. simpl.
    destruct (perform_noRenewal a e0 Ha Hs Hb0) as [Hs' Hb']. apply IH; assumption. }
  destruct H as [Hs' Hb']. split; [assumption |]. split; [assumption |].
  intros Hne. rewrite stopAnimation_grid.
  destruct Hb' as [Hn | Hz]; [contradiction | rewrite Hz; reflexivity].
Qed.

(** X6. [stopAnimation] is idempotent on the grid and the animation state:
    a second stop right after a stop leaves both as the first one left them,
    and each of the two sends the stopped notification. *)
Theorem stopAnimation_idempotent (e : Engine) :
  grid (after (stopAnimation (after (stopAnimation e)))) = grid (after (stopAnimation e)) /\
  animationState (after (stopAnimation (after (stopAnimation e))))
  = animationState (after (stopAnimation e)) /\
  notifications (after (stopAnimation (after (stopAnimation e))))
  = notifications e ++ [Stopped; Stopped].
Proof.
  unfold stopAnimation. destruct (baselineGrid (animationState e)) as [b|] eqn:Hb; simpl;
    rewrite ?Hb; simpl; rewrite ?copyGrid_id, <- ?app_assoc; repeat split; reflexivity.
Qed.

(** ** How long an animation runs *)

Lemma isGameOfLife_false (P : AnimationPattern) : P <> gameOfLife -> isGameOfLife P = false.
Proof. destruct P; intros H; try reflexivity. contradiction. Qed.

(** A due tick of a running pattern other than the Game of Life, on a
    well-formed engine: it commits below the limit and halts at it. *)
Lemma animate_running_other (eager : bool) (elapsed : Z) (e : Engine) :
  1 <= rows -> 1 <= cols -> arraySize rows -> arraySize cols -> wellFormed e ->
  animationSpeed < elapsed ->
  isRunning (animationState e) = true ->
  currentPattern (animationState e) <> gameOfLife ->
  (generation (animationState e) < maxGenerations ->
   isRunning (animationState (after (animate eager elapsed e))) = true /\
   generation (animationState (after (animate eager elapsed e))) = generation (animationState e) + 1) /\
  (maxGenerations <= generation (animationState e) ->
   isRunning (animationState (after (animate eager elapsed e))) = false /\
   generation (animationState (after (animate eager elapsed e))) = generation (animationState e)).
Proof.
  intros Hr1 Hc1 Hr Hc Hwf Hdue Hrun HP.
  pose proof Hwf as ([Hd Hb] & _).
  destruct (executePattern_wf (grid e) (currentPattern (animationState e))
              (patternState (animationState e)) (randomPos e) Hr1 Hc1 Hr Hc Hd Hb)
    as (res & pos & Hexec & _).
  unfold animate. destruct (Z.ltb_spec animationSpeed elapsed); [|lia].
  unfold tick. rewrite Hrun, Hexec. simpl negb. cbv iota. cbv zeta.
  rewrite (isGameOfLife_false _ HP). simpl andb. cbv iota.
  destruct (Z.leb_spec maxGenerations (generation (animationState e))); simpl; split;
    intros; try lia; auto.
Qed.

Lemma animate_not_running (eager : bool) (elapsed : Z) (e : Engine) :
  isRunning (animationState e) = false -> after (animate eager elapsed e) = e.
Proof.
  intros Hrun. unfold animate, tick. rewrite Hrun.
  destruct (animationSpeed <? elapsed); reflexivity.
Qed.

Lemma ticks_snoc (modes : list bool) (eager : bool) (elapsed : Z) (e : Engine) :
  ticks (modes ++ [eager]) elapsed e = after (animate eager elapsed (ticks modes elapsed e)).
Proof. unfold ticks. rewrite fold_left_app. reflexivity. Qed.

(** X7. Started in a reachable state of an engine with at least one row and
    one column, a pattern other than the Game of Life runs for exactly
    [maxGenerations] steps, whichever way React runs the updaters of each
    tick: after [k] ticks whose interval has elapsed the engine still runs
    and [generation] is [k] as long as [k <= maxGenerations], and from the
    tick after that on the engine has stopped with
    [generation = maxGenerations]. *)
Theorem animation_runs_maxGenerations (e : Engine) (P : AnimationPattern) (i elapsed : Z)
        (modes : list bool) :
  1 <= rows -> 1 <= cols -> 0 <= maxGenerations -> animationSpeed < elapsed ->
  reachable e -> P <> gameOfLife ->
  (Z.of_nat (length modes) <= maxGenerations ->
   isRunning (animationState (ticks modes elapsed (after (startAnimation P i e)))) = true /\
   generation (animationState (ticks modes elapsed (after (startAnimation P i e))))
   = Z.of_nat (length modes)) /\
  (maxGenerations < Z.of_nat (length modes) ->
   isRunning (animationState (ticks modes elapsed (after (startAnimation P i e)))) = false /\
   generation (animationState (ticks modes elapsed (after (startAnimation P i e))))
   = maxGenerations).
Proof.
  intros Hr1 Hc1 Hmax Hdue Hreach HP.
  destruct (reachable_wellFormed e Hr1 Hc1 Hreach) as (Hr & Hc & Hwf).
  set (e0 := after (startAnimation P i e)).
  assert (Hwf0 : wellFormed e0).
  { apply (perform_wellFormed (StartAnimation P i) e); assumption. }
  assert (Inv : wellFormed (ticks modes elapsed e0) /\
                currentPattern (animationState (ticks modes elapsed e0)) = P /\
                ((Z.of_nat (length modes) <= maxGenerations /\
                  isRunning (animationState (ticks modes elapsed e0)) = true /\
                  generation (animationState (ticks modes elapsed e0))
                  = Z.of_nat (length modes)) \/
                 (maxGenerations < Z.of_nat (length modes) /\
                  isRunning (animationState (ticks modes elapsed e0)) = false /\
                  generation (animationState (ticks modes elapsed e0)) = maxGenerations))).
  { induction modes as [| eager modes IH] using rev_ind.
    - simpl. split; [assumption |]. split; [reflexivity |]. left. simpl. auto.
    - destruct IH as (Hwfk & HPk & Hcase).
      rewrite ticks_snoc, length_app, Nat.add_1_r.
      split; [apply (perform_wellFormed (Animate eager elapsed)); assumption |].
      split.
      { destruct (animate_frame eager elapsed (ticks modes elapsed e0)) as (_ & _ & -> & _).
        exact HPk. }
      destruct Hcase as [(Hk & Hrun & Hgen) | (Hk & Hrun & Hgen)].
      + destruct (animate_running_other eager elapsed (ticks modes elapsed e0)
                    Hr1 Hc1 Hr Hc Hwfk Hdue Hrun)
          as [Hcommit Hhalt]; [rewrite HPk; exact HP |].
        destruct (Z_lt_ge_dec (Z.of_nat (length modes)) maxGenerations) as [Hlt | Hge].
        * left. destruct Hcommit as [Hrun' Hgen']; [lia |].
          split; [lia |]. split; [assumption | lia].
        * right. destruct Hhalt as [Hrun' Hgen']; [lia |].
          split; [lia |]. split; [assumption | lia].
      + right. rewrite (animate_not_running eager elapsed _ Hrun).
        split; [lia |]. split; assumption. }
  destruct Inv as (_ & _ & Hcase). split; intros Hk.
  - destruct Hcase as [(_ & Hrun & Hgen) | (Hk' & _)]; [auto | lia].
  - destruct Hcase as [(Hk' & _) | (_ & Hrun & Hgen)]; [lia | auto].
Qed.

(** ** Random grids and noise *)

Lemma mapRand_uniform {A B : Type} (F : nat -> B) (w : nat) (f : A -> nat -> Res (B * nat)) :
  (forall x p, f x p = Ok (F p, (p + w)%nat)) ->
  forall (l : list A) (p : nat),
    mapRand f l p =
    Ok ((fun i => F (p + i * w)%nat) <$> seq 0 (length l), (p + length l * w)%nat).
Proof.
  intros Hf. induction l as [|x l IH]; intros p.
  - simpl. rewrite Nat.add_0_r. reflexivity.
  - simpl mapRand. rewrite Hf. simpl bind. rewrite IH. simpl bind.
    f_equal. f_equal.
    + simpl. rewrite Nat.add_0_r. f_equal.
      rewrite <- fmap_S_seq, <- list_fmap_compose.
      apply list_fmap_ext. intros _ i _. simpl. f_equal. lia.
    + simpl. lia.
Qed.

(** The value that [createRandomGrid] gives a cell for one draw. *)
Lemma createRandomGrid_run (pos : nat) :
  arraySize rows -> arraySize cols ->
  createRandomGrid pos =
  Ok ((fun i =>
         (fun j => if Qgt_bool (random (pos + i * Z.to_nat cols + j)%nat) (7 # 10) then 1 else 0)
           <$> seq 0 (Z.to_nat cols))
        <$> seq 0 (Z.to_nat rows),
      (pos + Z.to_nat rows * Z.to_nat cols)%nat).
Proof.
  intros Hr Hc. unfold createRandomGrid. rewrite (newArray_ok rows Hr). simpl bind.
  rewrite (mapRand_uniform
             (fun p => (fun j => if Qgt_bool (random (p + j)%nat) (7 # 10) then 1 else 0)
                         <$> seq 0 (Z.to_nat cols))
             (Z.to_nat cols)).
  - rewrite length_replicate. reflexivity.
  - intros x p. rewrite (newArray_ok cols Hc). simpl bind.
    rewrite (mapRand_uniform
               (fun q => if Qgt_bool (random q) (7 # 10) then 1 else 0) 1%nat).
    + rewrite length_replicate. f_equal. f_equal.
      * apply list_fmap_ext. intros _ j _. simpl. rewrite Nat.mul_1_r. reflexivity.
      * lia.
    + intros y q. f_equal. f_equal. lia.
Qed.

(** The cells of the grid that [createRandomGrid_run] gives. *)
Lemma randomGrid_cells (pos : nat) :
  arraySize rows -> arraySize cols ->
  hasDims rows cols (randomGridFrom pos) /\
  forall r c,
    0 <= r < rows -> 0 <= c < cols ->
    cellAt (randomGridFrom pos) r c =
    Some (if Qgt_bool (random (pos + Z.to_nat r * Z.to_nat cols + Z.to_nat c)%nat) (7 # 10)
          then 1 else 0).
Proof.
  intros Hr Hc. unfold randomGridFrom. split.
  - split.
    + rewrite length_fmap, length_seq. destruct Hr. lia.
    + apply Forall_fmap, Forall_forall. intros i _. simpl.
      rewrite length_fmap, length_seq. destruct Hc. lia.
  - intros r c Hrr Hcc. unfold cellAt, index.
    destruct (Z.ltb_spec r 0); [lia |]. destruct (Z.ltb_spec c 0); [lia |].
    rewrite list_lookup_fmap, lookup_seq_lt by lia. simpl.
    rewrite list_lookup_fmap, lookup_seq_lt by lia. simpl. reflexivity.
Qed.

(** The grid of [createRandomGrid], cell by cell. *)
Lemma createRandomGrid_draws (pos : nat) :
  arraySize rows -> arraySize cols ->
  exists g,
    createRandomGrid pos = Ok (g, (pos + Z.to_nat rows * Z.to_nat cols)%nat) /\
    hasDims rows cols g /\
    forall r c,
      0 <= r < rows -> 0 <= c < cols ->
      cellAt g r c =
      Some (if Qgt_bool (random (pos + Z.to_nat r * Z.to_nat cols + Z.to_nat c)%nat) (7 # 10)
            then 1 else 0).
Proof.
  intros Hr Hc. eexists. split; [exact (createRandomGrid_run pos Hr Hc) |].
  exact (randomGrid_cells pos Hr Hc).
Qed.

(** X8. [createRandomGrid] succeeds for sizes that [new Array] accepts; it
    returns a grid of exactly [rows] x [cols] cells, it calls [Math.random]
    exactly [rows * cols] times, and the cell at [(r, c)] is 1 exactly when
    draw number [r * cols + c] of these calls is above 0.7, and 0 otherwise:
    one draw of its own per cell, in row-major order. *)
Theorem createRandomGrid_cells (pos : nat) :
  arraySize rows -> arraySize cols ->
  exists g,
    createRandomGrid pos = Ok (g, (pos + Z.to_nat rows * Z.to_nat cols)%nat) /\
    hasDims rows cols g /\
    forall r c,
      0 <= r < rows -> 0 <= c < cols ->
      cellAt g r c =
      Some (if Qgt_bool (random (pos + Z.to_nat r * Z.to_nat cols + Z.to_nat c)%nat) (7 # 10)
            then 1 else 0).
Proof.
  intros Hr Hc.
  pose proof (createRandomGrid_run pos Hr Hc) as Hrun.
  destruct (randomGrid_cells pos Hr Hc) as [Hdims Hcells].
  eexists. split; [exact Hrun |]. split; [exact Hdims | exact Hcells].
Qed.

Lemma hasDims_cols_nonneg (g : Grid) (r : Z) :
  hasDims rows cols g -> 0 <= r < rows -> 0 <= cols.
Proof.
  intros Hd Hr. destruct (index_in_range g r) as [row Er]; [destruct Hd; lia |].
  rewrite <- (hasDims_row _ _ _ _ _ Hd Er). lia.
Qed.

(** The loops that write [f row col] into every cell. *)
Lemma fill_cells (f : Z -> Z -> Z) (g : Grid) :
  hasDims rows cols g ->
  exists g',
    forRange 0 rows
      (fun row g1 => forRange 0 cols (fun col g0 => setCell g0 row col (f row col)) g1) g
    = Ok g' /\ hasDims rows cols g' /\
    forall r c, 0 <= r < rows -> 0 <= c < cols -> cellAt g' r c = Some (f r c).
Proof.
  intros Hd.
  pose (Inv := fun (i j : Z) (g0 : Grid) =>
                 hasDims rows cols g0 /\
                 forall r c, passed i j r c -> cellAt g0 r c = Some (f r c)).
  destruct (forRange_inv (fun i => Inv i 0)
              (fun row g1 => forRange 0 cols (fun col g0 => setCell g0 row col (f row col)) g1)
              0 rows g) as (g' & Hrun & Hd' & Hcells).
  - destruct Hd. lia.
  - split; [assumption |]. intros r c Hp. unfold passed in Hp. lia.
  - intros i g1 Hi HI.
    destruct (forRange_inv (fun j => Inv i j)
                (fun col g0 => setCell g0 i col (f i col)) 0 cols g1) as (g2 & Hrun2 & HI2).
    + destruct HI as [Hd1 _]. apply (hasDims_cols_nonneg g1 i Hd1 Hi).
    + assumption.
    + intros j g0 Hj [Hd0 Hc0].
      destruct (setCell_spec rows cols g0 i j (f i j) Hd0) as (g3 & Hset & Hd3 & Hg3);
        [lia | lia |].
      exists g3. split; [assumption |]. split; [assumption |].
      intros r c Hp. rewrite Hg3. apply passed_next_col in Hp. case_bool_decide as Hrc.
      * destruct Hrc as [-> ->]. reflexivity.
      * destruct Hp as [Hp | Hp]; [auto | lia].
    + exists g2. split; [assumption |]. destruct HI2 as [Hd2 Hc2]. split; [assumption |].
      intros r c Hp. apply Hc2. apply passed_next_row; [lia | assumption].
  - exists g'. split; [assumption |]. split; [assumption |].
    intros r c Hr Hc. apply Hcells. unfold passed. lia.
Qed.

(** X9. [noiseStep] does not look at the current grid: for sizes that
    [new Array] accepts it returns a grid of exactly [rows] x [cols] cells in
    which the cell at [(r, c)] is 1 exactly when draw number [r * cols + c]
    of its [rows * cols] calls of [Math.random] is above the double that
    [0.8] denotes, it reports a change, and it returns no pattern state. *)
Theorem noiseStep_cells (G : Grid) (pos : nat) :
  arraySize rows -> arraySize cols ->
  exists g,
    noiseStep G pos =
    Ok ({| newGrid := g; hasChanged := true; stepState := None |},
        (pos + Z.to_nat (rows * cols))%nat) /\
    hasDims rows cols g /\
    forall r c,
      0 <= r < rows -> 0 <= c < cols ->
      cellAt g r c =
      Some (if Qgt_bool (random (pos + Z.to_nat (r * cols + c))%nat) double_0_8 then 1 else 0).
Proof.
  intros Hrows Hcols. unfold noiseStep. rewrite (createEmptyGrid_ok Hrows Hcols). simpl bind.
  destruct (zeroGrid_dims_binary Hrows Hcols) as [Hd _].
  pose (Inv := fun (i j : Z) (st : Grid * nat) =>
                 hasDims rows cols (fst st) /\
                 snd st = (pos + Z.to_nat (i * cols + j))%nat /\
                 forall r c, passed i j r c ->
                             cellAt (fst st) r c =
                             Some (if Qgt_bool (random (pos + Z.to_nat (r * cols + c))%nat) double_0_8
                                   then 1 else 0)).
  destruct (forRange_inv (fun i => Inv i 0)
              (fun row st1 =>
                 forRange 0 cols
                   (fun col st =>
                      let! g := setCell (fst st) row col
                                        (if Qgt_bool (random (snd st)) double_0_8 then 1 else 0) in
                      Ok (g, S (snd st)))
                   st1)
              0 rows (zeroGrid, pos)) as ([g' pos'] & Hrun & Hd' & Hpos & Hcells).
  - destruct Hrows. lia.
  - split; [assumption |]. split; [simpl; lia |].
    intros r c Hp. unfold passed in Hp. lia.
  - intros i st Hi HI.
    destruct (forRange_inv (fun j => Inv i j)
                (fun col st0 =>
                   let! g := setCell (fst st0) i col
                                     (if Qgt_bool (random (snd st0)) double_0_8 then 1 else 0) in
                   Ok (g, S (snd st0)))
                0 cols st) as (st' & Hrun' & HI').
    + destruct Hcols. lia.
    + assumption.
    + intros j [g p] Hj (Hdg & Hp & Hc). simpl in Hdg, Hp, Hc. simpl fst. simpl snd.
      destruct (setCell_spec rows cols g i j
                  (if Qgt_bool (random p) double_0_8 then 1 else 0) Hdg)
        as (g3 & Hset & Hd3 & Hg3); [lia | lia |].
      rewrite Hset. simpl bind. eexists. split; [reflexivity |].
      assert (Hnn : 0 <= i * cols) by (apply Z.mul_nonneg_nonneg; lia).
      split; [exact Hd3 |]. simpl fst. simpl snd. split; [lia |].
      intros r c Hpass. rewrite Hg3. apply passed_next_col in Hpass.
      case_bool_decide as Hrc.
      * destruct Hrc as [-> ->]. rewrite Hp. reflexivity.
      * destruct Hpass as [Hpass | Hpass]; [auto | lia].
    + exists st'. split; [assumption |]. destruct HI' as (Hd2 & Hp2 & Hc2).
      split; [assumption |]. split.
      * rewrite Hp2. f_equal. f_equal. lia.
      * intros r c Hp. apply Hc2. apply passed_next_row; [lia | assumption].
  - rewrite Hrun. simpl bind. simpl in Hd', Hpos, Hcells.
    exists g'. split; [rewrite Hpos; repeat f_equal; lia |]. split; [assumption |].
    intros r c Hr Hc. apply Hcells. unfold passed. lia.
Qed.

(** The grid that [changePattern] sets for Rule 30 has one live cell, at the
    centre. *)
Lemma rule30Seed_cells :
  1 <= rows -> 1 <= cols -> arraySize rows -> arraySize cols ->
  exists g,
    rule30Seed = Ok g /\ hasDims rows cols g /\
    forall r c, 0 <= r < rows -> 0 <= c < cols ->
                cellAt g r c =
                Some (if bool_decide (r = rows / 2 /\ c = cols / 2) then 1 else 0).
Proof.
  intros Hr1 Hc1 Hr Hc. unfold rule30Seed. rewrite (createEmptyGrid_ok Hr Hc). simpl bind.
  destruct (zeroGrid_dims_binary Hr Hc) as [Hd Hb].
  destruct (setCell_spec rows cols zeroGrid (rows / 2) (cols / 2) 1 Hd)
    as (g & Hset & Hd' & Hg).
  - split; [apply Z.div_pos; lia | apply Z.div_lt_upper_bound; lia].
  - split; [apply Z.div_pos; lia | apply Z.div_lt_upper_bound; lia].
  - exists g. split; [assumption |]. split; [assumption |].
    intros r c Hrr Hcc. rewrite Hg. case_bool_decide; [reflexivity |].
    destruct (cellAt_in_range rows cols zeroGrid r c Hd Hrr Hcc) as [z Hz].
    rewrite Hz, (zeroGrid_cell r c z Hz). reflexivity.
Qed.

(** ** Changing the pattern *)

(** X10. With at least one row and one column, [changePattern] never throws
    and replaces the live grid, whatever it was, by the seed of the new
    pattern: a fresh random grid (one draw above 0.7 per live cell) for the
    Game of Life and Noise, the grid whose only live cell is the centre
    [(rows / 2, cols / 2)] for Rule 30, and the grid of zeros for every other
    pattern. It sets the pattern, empties the pattern state, and leaves
    [isRunning], [activeLetterIndex] and [baselineGrid] as they were: it
    neither starts nor stops the animation. *)
Theorem changePattern_seeds (P : AnimationPattern) (e : Engine) :
  1 <= rows -> 1 <= cols -> arraySize rows -> arraySize cols ->
  thrown (changePattern P e) = None /\
  hasDims rows cols (grid (after (changePattern P e))) /\
  (forall r c,
      0 <= r < rows -> 0 <= c < cols ->
      cellAt (grid (after (changePattern P e))) r c =
      Some match P with
           | gameOfLife | noise =>
               if Qgt_bool (random (randomPos e + Z.to_nat r * Z.to_nat cols + Z.to_nat c)%nat)
                           (7 # 10)
               then 1 else 0
           | rule30 => if bool_decide (r = rows / 2 /\ c = cols / 2) then 1 else 0
           | _ => 0
           end) /\
  currentPattern (animationState (after (changePattern P e))) = P /\
  patternState (animationState (after (changePattern P e))) = emptyPatternState /\
  isRunning (animationState (after (changePattern P e))) = isRunning (animationState e) /\
  activeLetterIndex (animationState (after (changePattern P e)))
  = activeLetterIndex (animationState e) /\
  baselineGrid (animationState (after (changePattern P e))) = baselineGrid (animationState e).
Proof.
  intros Hr1 Hc1 Hr Hc.
  destruct (changePattern_frame P e) as (Hrun & Hletter & _ & Hpat & Hps).
  pose proof (changePattern_baselineGrid P e) as Hbase.
  assert (Hgrid : thrown (changePattern P e) = None /\
                  hasDims rows cols (grid (after (changePattern P e))) /\
                  forall r c,
                    0 <= r < rows -> 0 <= c < cols ->
                    cellAt (grid (after (changePattern P e))) r c =
                    Some match P with
                         | gameOfLife | noise =>
                             if Qgt_bool
                                  (random (randomPos e + Z.to_nat r * Z.to_nat cols
                                           + Z.to_nat c)%nat) (7 # 10)
                             then 1 else 0
                         | rule30 => if bool_decide (r = rows / 2 /\ c = cols / 2) then 1 else 0
                         | _ => 0
                         end).
  { destruct (createRandomGrid_draws (randomPos e) Hr Hc) as (gr & Hrand & Hdr & Hcr).
    destruct (rule30Seed_cells Hr1 Hc1 Hr Hc) as (gs & Hseed & Hds & Hcs).
    destruct (zeroGrid_dims_binary Hr Hc) as [Hdz _].
    assert (Hcz : forall r c, 0 <= r < rows -> 0 <= c < cols -> cellAt zeroGrid r c = Some 0).
    { intros r c Hrr Hcc.
      destruct (cellAt_in_range rows cols zeroGrid r c Hdz Hrr Hcc) as [z Hz].
      rewrite Hz, (zeroGrid_cell r c z Hz). reflexivity. }
    unfold changePattern.
    destruct P; simpl; rewrite ?Hrand, ?Hseed, ?(createEmptyGrid_ok Hr Hc); simpl;
      (split; [reflexivity |]); (split; assumption). }
  destruct Hgrid as (Hthrown & Hdims & Hcells).
  split; [assumption |]. split; [assumption |]. split; [assumption |].
  split; [assumption |]. split; [assumption |]. split; [assumption |].
  split; assumption.
Qed.

(** ** Wave and Spiral frame by frame *)

Lemma waveStep_cells (G : Grid) (state : PatternState) :
  arraySize rows -> arraySize cols ->
  exists g,
    waveStep G state =
    Ok {| newGrid := g; hasChanged := true;
          stepState := Some {| ripples := None; time := Some (default 0 (time state) + 1) |} |} /\
    hasDims rows cols g /\
    forall r c, 0 <= r < rows -> 0 <= c < cols ->
                cellAt g r c = Some (if waveLive r c (default 0 (time state)) then 1 else 0).
Proof.
  intros Hrows Hcols. unfold waveStep. rewrite (createEmptyGrid_ok Hrows Hcols). simpl bind.
  destruct (zeroGrid_dims_binary Hrows Hcols) as [Hd _].
  destruct (fill_cells (fun row col => if waveLive row col (default 0 (time state)) then 1 else 0)
                       zeroGrid Hd) as (g & Hrun & Hdg & Hcells).
  cbv zeta. rewrite Hrun. simpl bind. exists g. auto.
Qed.

Lemma spiralStep_cells (G : Grid) (state : PatternState) :
  arraySize rows -> arraySize cols ->
  exists g,
    spiralStep G state =
    Ok {| newGrid := g; hasChanged := true;
          stepState := Some {| ripples := None; time := Some (default 0 (time state) + 1) |} |} /\
    hasDims rows cols g /\
    forall r c, 0 <= r < rows -> 0 <= c < cols ->
                cellAt g r c = Some (if spiralLive r c (default 0 (time state)) then 1 else 0).
Proof.
  intros Hrows Hcols. unfold spiralStep. rewrite (createEmptyGrid_ok Hrows Hcols). simpl bind.
  destruct (zeroGrid_dims_binary Hrows Hcols) as [Hd _].
  destruct (fill_cells (fun row col => if spiralLive row col (default 0 (time state)) then 1 else 0)
                       zeroGrid Hd) as (g & Hrun & Hdg & Hcells).
  cbv zeta. rewrite Hrun. simpl bind. exists g. auto.
Qed.

(** The frames of a pattern whose step draws a function of its time counter
    and adds 1 to the counter. *)
Lemma timed_frames (P : AnimationPattern) (live : Z -> Z -> Z -> bool) (elapsed : Z) :
  isGameOfLife P = false ->
  (forall G s pos,
      exists g,
        executePattern G P s pos =
        Ok ({| newGrid := g; hasChanged := true;
               stepState := Some {| ripples := None; time := Some (default 0 (time s) + 1) |} |},
            pos) /\
        forall r c, 0 <= r < rows -> 0 <= c < cols ->
                    cellAt g r c = Some (if live r c (default 0 (time s)) then 1 else 0)) ->
  animationSpeed < elapsed ->
  forall (e : Engine) (i : Z) (modes : list bool) (eager : bool),
    Z.of_nat (S (length modes)) <= maxGenerations ->
    isRunning (animationState (ticks (modes ++ [eager]) elapsed (after (startAnimation P i e))))
    = true /\
    generation (animationState (ticks (modes ++ [eager]) elapsed (after (startAnimation P i e))))
    = Z.of_nat (S (length modes)) /\
    (eager = true ->
     forall r c, 0 <= r < rows -> 0 <= c < cols ->
                 cellAt (grid (ticks (modes ++ [eager]) elapsed (after (startAnimation P i e))))
                        r c
                 = Some (if live r c (Z.of_nat (length modes)) then 1 else 0)) /\
    (eager = false ->
     grid (ticks (modes ++ [eager]) elapsed (after (startAnimation P i e)))
     = grid (ticks modes elapsed (after (startAnimation P i e)))).
Proof.
  intros HP Hexec Hdue e i.
  set (e0 := after (startAnimation P i e)).
  assert (Hstep : forall eager e1 t,
             isRunning (animationState e1) = true ->
             currentPattern (animationState e1) = P ->
             default 0 (time (patternState (animationState e1))) = t ->
             generation (animationState e1) < maxGenerations ->
             isRunning (animationState (after (animate eager elapsed e1))) = true /\
             currentPattern (animationState (after (animate eager elapsed e1))) = P /\
             default 0 (time (patternState (animationState (after (animate eager elapsed e1)))))
             = t + 1 /\
             generation (animationState (after (animate eager elapsed e1)))
             = generation (animationState e1) + 1 /\
             (eager = true ->
              forall r c, 0 <= r < rows -> 0 <= c < cols ->
                          cellAt (grid (after (animate eager elapsed e1))) r c =
                          Some (if live r c t then 1 else 0)) /\
             (eager = false -> grid (after (animate eager elapsed e1)) = grid e1)).
  { intros eager e1 t Hrun Hpat Ht Hgen.
    destruct (Hexec (grid e1) (patternState (animationState e1)) (randomPos e1))
      as (g & Hex & Hcells).
    unfold animate. destruct (Z.ltb_spec animationSpeed elapsed); [|lia].
    unfold tick. rewrite Hrun, Hpat, Hex. simpl negb. cbv iota. cbv zeta.
    rewrite HP. simpl andb. cbv iota.
    destruct (Z.leb_spec maxGenerations (generation (animationState e1))); [lia |].
    simpl. rewrite Ht in *.
    split; [reflexivity |]. split; [reflexivity |]. split; [reflexivity |].
    split; [reflexivity |]. split; intros Heager; rewrite Heager; [exact Hcells | reflexivity]. }
  assert (Inv : forall modes : list bool,
             Z.of_nat (length modes) <= maxGenerations ->
             isRunning (animationState (ticks modes elapsed e0)) = true /\
             currentPattern (animationState (ticks modes elapsed e0)) = P /\
             default 0 (time (patternState (animationState (ticks modes elapsed e0))))
             = Z.of_nat (length modes) /\
             generation (animationState (ticks modes elapsed e0)) = Z.of_nat (length modes)).
  { induction modes as [| eager modes IH] using rev_ind; intros Hk.
    - simpl. auto.
    - rewrite length_app, Nat.add_1_r in Hk |- *.
      destruct IH as (Hrun & Hpat & Ht & Hgen); [lia |].
      rewrite ticks_snoc.
      destruct (Hstep eager (ticks modes elapsed e0) (Z.of_nat (length modes))
                  Hrun Hpat Ht ltac:(lia))
        as (Hrun' & Hpat' & Ht' & Hgen' & _).
      split; [assumption |]. split; [assumption |]. split; lia. }
  intros modes eager Hk. destruct (Inv modes ltac:(lia)) as (Hrun & Hpat & Ht & Hgen).
  rewrite ticks_snoc.
  destruct (Hstep eager (ticks modes elapsed e0) (Z.of_nat (length modes))
              Hrun Hpat Ht ltac:(lia))
    as (Hrun' & _ & _ & Hgen' & Hcells & Hkept).
  split; [assumption |]. split; [lia |]. split; assumption.
Qed.

(** X11. The frames of Wave and Spiral depend on the number of the tick
    only. For sizes that [new Array] accepts, after a start of Wave in any
    state and [k + 1] ticks whose interval has elapsed, with
    [k + 1 <= maxGenerations], the engine runs and [generation] is [k + 1],
    whichever way React ran the updaters of these ticks: the time counter
    starts at 0 and grows by 1 per tick. When the updater of the state of
    the last tick ran inside the updater of the grid, the cell at [(r, c)] is
    1 exactly when the wave test holds at [(r, c)] for the time [k],
    whatever the grid was before; otherwise the last tick has left the grid
    as it was, and the frame of time [k] is never shown. The same holds for
    Spiral with its own test. *)
Theorem wave_spiral_frames (e : Engine) (i elapsed : Z) (modes : list bool) (eager : bool) :
  arraySize rows -> arraySize cols -> animationSpeed < elapsed ->
  Z.of_nat (S (length modes)) <= maxGenerations ->
  (isRunning (animationState
                (ticks (modes ++ [eager]) elapsed (after (startAnimation wave i e)))) = true /\
   generation (animationState
                 (ticks (modes ++ [eager]) elapsed (after (startAnimation wave i e))))
   = Z.of_nat (S (length modes)) /\
   (eager = true ->
    forall r c, 0 <= r < rows -> 0 <= c < cols ->
                cellAt (grid (ticks (modes ++ [eager]) elapsed
                                    (after (startAnimation wave i e)))) r c =
                Some (if waveLive r c (Z.of_nat (length modes)) then 1 else 0)) /\
   (eager = false ->
    grid (ticks (modes ++ [eager]) elapsed (after (startAnimation wave i e)))
    = grid (ticks modes elapsed (after (startAnimation wave i e))))) /\
  (isRunning (animationState
                (ticks (modes ++ [eager]) elapsed (after (startAnimation spiral i e)))) = true /\
   generation (animationState
                 (ticks (modes ++ [eager]) elapsed (after (startAnimation spiral i e))))
   = Z.of_nat (S (length modes)) /\
   (eager = true ->
    forall r c, 0 <= r < rows -> 0 <= c < cols ->
                cellAt (grid (ticks (modes ++ [eager]) elapsed
                                    (after (startAnimation spiral i e)))) r c =
                Some (if spiralLive r c (Z.of_nat (length modes)) then 1 else 0)) /\
   (eager = false ->
    grid (ticks (modes ++ [eager]) elapsed (after (startAnimation spiral i e)))
    = grid (ticks modes elapsed (after (startAnimation spiral i e))))).
Proof.
  intros Hrows Hcols Hdue Hk. split.
  - apply (timed_frames wave waveLive elapsed); [reflexivity | | assumption | assumption].
    intros G s pos. destruct (waveStep_cells G s Hrows Hcols) as (g & Hstep & _ & Hcells).
    exists g. simpl. rewrite Hstep. auto.
  - apply (timed_frames spiral spiralLive elapsed); [reflexivity | | assumption | assumption].
    intros G s pos. destruct (spiralStep_cells G s Hrows Hcols) as (g & Hstep & _ & Hcells).
    exists g. simpl. rewrite Hstep. auto.
Qed.

(** ** Rule 30 in the engine *)

Lemma zeroGrid_cellAt (r c : Z) :
  0 <= rows -> 0 <= cols -> 0 <= r < rows -> 0 <= c < cols -> cellAt zeroGrid r c = Some 0.
Proof.
  intros Hrows Hcols Hr Hc.
  destruct (cellAt_in_range rows cols zeroGrid r c (zeroGrid_dims Hrows Hcols) Hr Hc) as [z Hz].
  rewrite Hz, (zeroGrid_cell r c z Hz). reflexivity.
Qed.

Lemma middleBit_zeroGrid (c : Z) : middleBit zeroGrid c = 0.
Proof.
  unfold middleBit. destruct (cellAt zeroGrid (rows / 2) c) as [z|] eqn:E; [|reflexivity].
  simpl. exact (zeroGrid_cell _ _ _ E).
Qed.

(** Rule 30 leaves the grid of zeros as it is. *)
Lemma rule30Step_zeroGrid :
  1 <= rows -> 1 <= cols ->
  rule30Step zeroGrid = Ok {| newGrid := zeroGrid; hasChanged := true; stepState := None |}.
Proof.
  intros Hr1 Hc1.
  assert (Hd : hasDims rows cols zeroGrid) by (apply zeroGrid_dims; lia).
  destruct (rule30Step_cells zeroGrid Hr1 Hc1 Hd zeroGrid_binary) as (G' & Hstep & Hd' & Hcells).
  rewrite Hstep. f_equal. f_equal.
  apply (grid_ext rows cols); [assumption | assumption |].
  intros r c Hr Hc. rewrite (Hcells r c Hr Hc), zeroGrid_cellAt by lia.
  unfold rule30Cell.
  destruct (r =? rows / 2).
  - destruct ((0 <? c) && (c <? cols - 1)).
    + rewrite !middleBit_zeroGrid. reflexivity.
    + apply zeroGrid_cellAt; lia.
  - destruct (Z.eqb_spec c 0); [reflexivity |]. apply zeroGrid_cellAt; lia.
Qed.

(** The Rule 30 cells of a grid whose only live cell is the centre, with at
    least five columns. *)
Lemma rule30Cell_seed (G : Grid) (r c : Z) :
  1 <= rows -> 5 <= cols ->
  (forall r0 c0, 0 <= r0 < rows -> 0 <= c0 < cols ->
                 cellAt G r0 c0 =
                 Some (if bool_decide (r0 = rows / 2 /\ c0 = cols / 2) then 1 else 0)) ->
  0 <= r < rows -> 0 <= c < cols ->
  rule30Cell G r c =
  Some (if bool_decide (r = rows / 2 /\ cols / 2 - 1 <= c <= cols / 2 + 1) then 1 else 0).
Proof.
  intros Hr1 H5 Hseed Hr Hc.
  assert (Hmid : 0 <= rows / 2 < rows)
    by (split; [apply Z.div_pos; lia | apply Z.div_lt_upper_bound; lia]).
  assert (Hctr : 2 <= cols / 2 <= cols - 3).
  { split; [apply Z.div_le_lower_bound; lia |].
    pose proof (Z.div_mod cols 2 ltac:(lia)). pose proof (Z.mod_pos_bound cols 2 ltac:(lia)).
    lia. }
  assert (Hbit : forall x, 0 <= x < cols ->
                           middleBit G x = if bool_decide (x = cols / 2) then 1 else 0).
  { intros x Hx. unfold middleBit. rewrite (Hseed (rows / 2) x) by lia. simpl.
    repeat case_bool_decide; try reflexivity; lia. }
  unfold rule30Cell.
  destruct (Z.eqb_spec r (rows / 2)) as [-> | Hne].
  - destruct (Z.ltb_spec 0 c), (Z.ltb_spec c (cols - 1)); simpl.
    + rewrite !Hbit by lia. repeat case_bool_decide; try reflexivity; lia.
    + rewrite (Hseed (rows / 2) c) by lia. repeat case_bool_decide; try reflexivity; lia.
    + rewrite (Hseed (rows / 2) c) by lia. repeat case_bool_decide; try reflexivity; lia.
    + lia.
  - destruct (Z.eqb_spec c 0).
    + case_bool_decide; [lia | reflexivity].
    + rewrite (Hseed r (c - 1)) by lia. repeat case_bool_decide; try reflexivity; lia.
Qed.

(** X12. The first generation of Rule 30 in the engine: in a running engine
    with at least one row and five columns and a generation limit above 0,
    [changePattern] to Rule 30 followed by one tick whose interval has
    elapsed leaves the engine running at [generation] 1. When the updater of
    the state of that tick ran inside the updater of the grid, the live grid
    then has exactly three live cells, the columns [cols / 2 - 1],
    [cols / 2] and [cols / 2 + 1] of the middle row; otherwise the grid is
    still the seed, with its single live cell at the centre. *)
Theorem rule30_first_generation (e : Engine) (eager : bool) (elapsed : Z) :
  1 <= rows -> 5 <= cols -> arraySize rows -> arraySize cols ->
  animationSpeed < elapsed -> 0 < maxGenerations ->
  isRunning (animationState e) = true ->
  isRunning (animationState (after (animate eager elapsed (after (changePattern rule30 e)))))
  = true /\
  generation (animationState (after (animate eager elapsed (after (changePattern rule30 e)))))
  = 1 /\
  forall r c,
    0 <= r < rows -> 0 <= c < cols ->
    cellAt (grid (after (animate eager elapsed (after (changePattern rule30 e))))) r c =
    Some (if eager
          then if bool_decide (r = rows / 2 /\ cols / 2 - 1 <= c <= cols / 2 + 1) then 1 else 0
          else if bool_decide (r = rows / 2 /\ c = cols / 2) then 1 else 0).
Proof.
  intros Hr1 H5 Hr Hc Hdue Hmax Hrun.
  destruct (rule30Seed_cells Hr1 ltac:(lia) Hr Hc) as (gs & Hseed & Hds & Hcs).
  destruct (rule30Seed_ok Hr1 ltac:(lia) Hr Hc) as (gs' & Hseed' & _ & Hbs).
  rewrite Hseed in Hseed'. injection Hseed' as <-.
  destruct (rule30Step_cells gs Hr1 ltac:(lia) Hds Hbs) as (G' & Hstep & Hd' & Hcells).
  unfold changePattern. rewrite Hseed. simpl after.
  unfold animate. destruct (Z.ltb_spec animationSpeed elapsed); [|lia].
  unfold tick. simpl. rewrite Hrun. simpl. rewrite Hstep. simpl.
  destruct (Z.leb_spec maxGenerations 0); [lia |]. simpl.
  split; [reflexivity |]. split; [reflexivity |].
  intros r c Hrr Hcc. destruct eager.
  - rewrite (Hcells r c Hrr Hcc). apply rule30Cell_seed; assumption.
  - apply Hcs; assumption.
Qed.

(** X13. Rule 30 started right after the first render never shows a live
    cell: [startAnimation] does not seed the grid, the grid of the first
    render is the grid of zeros and Rule 30 maps it to itself, so after any
    number of ticks, whichever way React runs their updaters, the live grid
    is still the grid of zeros. *)
Theorem rule30_first_start_stays_empty (e : Engine) (i elapsed : Z) (modes : list bool) :
  1 <= rows -> 1 <= cols ->
  useAnimationPatterns = Ok e ->
  grid (ticks modes elapsed (after (startAnimation rule30 i e))) = zeroGrid.
Proof.
  intros Hr1 Hc1 Hinit.
  destruct (useAnimationPatterns_allocatable e Hinit) as (_ & Hg & _ & _).
  assert (Inv : grid (ticks modes elapsed (after (startAnimation rule30 i e))) = zeroGrid /\
                currentPattern
                  (animationState (ticks modes elapsed (after (startAnimation rule30 i e))))
                = rule30).
  { induction modes as [| eager modes [IHg IHp]] using rev_ind.
    - simpl. auto.
    - rewrite ticks_snoc.
      set (ek := ticks modes elapsed (after (startAnimation rule30 i e))) in *.
      split; [| destruct (animate_frame eager elapsed ek) as (_ & _ & -> & _); exact IHp].
      destruct (animate_cases eager elapsed ek) as [-> | ->]; [| exact IHg].
      destruct (tick_cases eager ek)
        as [[_ ->] | [_ [(err & _ & ->) | (res & pos & Hexec & [[_ ->] | [_ ->]])]]];
        simpl; try exact IHg.
      destruct eager; [| exact IHg].
      rewrite IHg, IHp in Hexec. simpl in Hexec.
      rewrite (rule30Step_zeroGrid Hr1 Hc1) in Hexec. simpl in Hexec.
      injection Hexec as <- _. reflexivity. }
  exact (proj1 Inv).
Qed.

(** ** Rain *)

(** Closes a goal [False] from the conjunctions and the refuted conjunctions
    that a case analysis on the conditions has left. *)
Ltac refute_cases :=
  repeat match goal with
         | H : _ /\ _ |- _ => destruct H
         end;
  subst;
  first [ lia
        | congruence
        | match goal with
          | H : ~ _ |- False =>
              solve [apply H; repeat split; first [assumption | lia | congruence]]
          end ].

Lemma isOne_cellAt (g : Grid) (r c : Z) :
  hasDims rows cols g -> 0 <= r < rows ->
  isOne g r c = Ok (bool_decide (cellAt g r c = Some 1)).
Proof.
  intros Hd Hr. unfold isOne. rewrite (getCellOpt_cellAt rows cols g r c Hd Hr). simpl.
  f_equal. destruct (cellAt g r c) as [[|[p|p|]|p]|]; reflexivity.
Qed.

(** A loop of [rainStep] over the columns of one row: each column takes one
    draw and gets [v] when the draw is below the threshold. *)
Lemma rainRow_cells (row v : Z) (threshold : Q) (g : Grid) (pos : nat) :
  hasDims rows cols g -> 0 <= row < rows ->
  exists g',
    forRange 0 cols
      (fun col st =>
         if Qlt_bool (random (snd st)) threshold
         then let! g0 := setCell (fst st) row col v in Ok (g0, S (snd st))
         else Ok (fst st, S (snd st)))
      (g, pos) = Ok (g', (pos + Z.to_nat cols)%nat) /\
    hasDims rows cols g' /\
    forall r c,
      cellAt g' r c =
      if bool_decide (r = row /\ 0 <= c < cols /\
                      Qlt_bool (random (pos + Z.to_nat c)%nat) threshold = true)
      then Some v else cellAt g r c.
Proof.
  intros Hd Hrow.
  pose proof (hasDims_cols_nonneg g row Hd Hrow) as Hcols.
  pose (Inv := fun (j : Z) (st : Grid * nat) =>
                 hasDims rows cols (fst st) /\
                 snd st = (pos + Z.to_nat j)%nat /\
                 forall r c,
                   cellAt (fst st) r c =
                   if bool_decide (r = row /\ 0 <= c < j /\
                                   Qlt_bool (random (pos + Z.to_nat c)%nat) threshold = true)
                   then Some v else cellAt g r c).
  destruct (forRange_inv Inv
              (fun col st =>
                 if Qlt_bool (random (snd st)) threshold
                 then let! g0 := setCell (fst st) row col v in Ok (g0, S (snd st))
                 else Ok (fst st, S (snd st)))
              0 cols (g, pos)) as ([g' pos'] & Hrun & Hd' & Hpos & Hcells).
  - assumption.
  - split; [assumption |]. split; [simpl; lia |].
    intros r c. simpl. case_bool_decide as H; [lia | reflexivity].
  - intros j [g0 p] Hj (Hd0 & Hp & Hc0). simpl in Hd0, Hp, Hc0. simpl fst. simpl snd.
    destruct (Qlt_bool (random p) threshold) eqn:Hdraw.
    + destruct (setCell_spec rows cols g0 row j v Hd0) as (g1 & Hset & Hd1 & Hg1); [lia | lia |].
      rewrite Hset. simpl bind. eexists. split; [reflexivity |].
      split; [exact Hd1 |]. simpl fst. simpl snd. split; [lia |].
      intros r c. rewrite Hg1, Hc0. subst p.
      case_bool_decide as H1.
      * destruct H1 as [-> ->]. case_bool_decide as H2; [reflexivity |].
        exfalso. apply H2. split; [reflexivity |]. split; [lia | assumption].
      * repeat case_bool_decide; try reflexivity; exfalso; refute_cases.
    + eexists. split; [reflexivity |].
      split; [exact Hd0 |]. simpl fst. simpl snd. split; [lia |].
      intros r c. rewrite Hc0. subst p.
      repeat case_bool_decide; try reflexivity; exfalso.
      * refute_cases.
      * destruct (Z.eq_dec c j) as [-> | Hne]; refute_cases.
  - simpl in Hd', Hpos, Hcells. exists g'. split; [rewrite Hrun, Hpos; reflexivity |].
    split; assumption.
Qed.

(** The loop of [rainStep] that moves the drops: a cell below a live cell of
    the old grid becomes 1, and a live cell of the old grid that is not in
    the bottom row becomes 0 unless the cell above it was live too. *)
Lemma rainShift_cells (G g1 : Grid) :
  hasDims rows cols G -> hasDims rows cols g1 -> 1 <= rows ->
  exists g2,
    forDown (rows - 1) 0
      (fun row g0 =>
         forRange 0 cols
           (fun col g =>
              let! b := isOne G (row - 1) col in
              if b
              then let! g' := setCell g row col 1 in setCell g' (row - 1) col 0
              else Ok g)
           g0)
      g1 = Ok g2 /\
    hasDims rows cols g2 /\
    forall r c,
      cellAt g2 r c =
      if bool_decide (1 <= r < rows /\ cellAt G (r - 1) c = Some 1) then Some 1
      else if bool_decide (r + 1 < rows /\ cellAt G r c = Some 1) then Some 0
           else cellAt g1 r c.
Proof.
  intros HdG Hd1 Hrows.
  assert (Hrange : forall r c v, cellAt G r c = Some v -> 0 <= r < rows /\ 0 <= c < cols)
    by (intros r c v; apply (cellAt_Some_range rows cols G r c v HdG)).
  pose (Inv := fun (i j : Z) (g : Grid) =>
                 hasDims rows cols g /\
                 forall r c,
                   cellAt g r c =
                   if bool_decide ((i < r \/ (r = i /\ c < j)) /\ 1 <= r < rows /\
                                   cellAt G (r - 1) c = Some 1)
                   then Some 1
                   else if bool_decide ((i < r + 1 \/ (r + 1 = i /\ c < j)) /\ r + 1 < rows /\
                                        cellAt G r c = Some 1)
                        then Some 0
                        else cellAt g1 r c).
  destruct (forDown_inv (fun i => Inv i 0)
              (fun row g0 =>
                 forRange 0 cols
                   (fun col g =>
                      let! b := isOne G (row - 1) col in
                      if b
                      then let! g' := setCell g row col 1 in setCell g' (row - 1) col 0
                      else Ok g)
                   g0)
              (rows - 1) 0 g1) as (g2 & Hrun & Hd2 & Hcells).
  - lia.
  - split; [assumption |]. intros r c.
    repeat case_bool_decide; try reflexivity; exfalso;
      repeat match goal with
             | H : _ /\ _ |- _ => destruct H
             | H : cellAt G _ _ = Some _ |- _ => apply Hrange in H
             end; lia.
  - intros i g0 Hi HI.
    destruct (forRange_inv (fun j => Inv i j)
                (fun col g =>
                   let! b := isOne G (i - 1) col in
                   if b
                   then let! g' := setCell g i col 1 in setCell g' (i - 1) col 0
                   else Ok g)
                0 cols g0) as (g3 & Hrun3 & HI3).
    + destruct HI as [Hd0 _]. apply (hasDims_cols_nonneg g0 i Hd0). lia.
    + assumption.
    + intros j g [Hj0 Hj1] [Hdg Hcg].
      rewrite (isOne_cellAt G (i - 1) j HdG) by lia. simpl bind.
      case_bool_decide as Hlive.
      * destruct (setCell_spec rows cols g i j 1 Hdg) as (g' & Hset & Hd' & Hg'); [lia | lia |].
        rewrite Hset. simpl bind.
        destruct (setCell_spec rows cols g' (i - 1) j 0 Hd') as (g'' & Hset' & Hd'' & Hg'');
          [lia | lia |].
        exists g''. split; [assumption |]. split; [assumption |].
        intros r c. rewrite Hg'', Hg', Hcg.
        destruct (Z.eq_dec r i) as [Hri | Hri], (Z.eq_dec c j) as [Hcj | Hcj],
                 (Z.eq_dec r (i - 1)) as [Hri1 | Hri1]; try lia;
          repeat case_bool_decide; try reflexivity; exfalso; refute_cases.
      * exists g. split; [reflexivity |]. split; [assumption |].
        intros r c. rewrite Hcg.
        destruct (Z.eq_dec r i) as [Hri | Hri], (Z.eq_dec c j) as [Hcj | Hcj],
                 (Z.eq_dec r (i - 1)) as [Hri1 | Hri1]; try lia;
          repeat case_bool_decide; try reflexivity; exfalso; refute_cases.
    + exists g3. split; [assumption |]. destruct HI3 as [Hd3 Hc3]. split; [assumption |].
      intros r c. rewrite Hc3.
      repeat case_bool_decide; try reflexivity; exfalso;
        repeat match goal with
               | H : _ /\ _ |- _ => destruct H
               | H : cellAt G _ _ = Some _ |- _ => pose proof (Hrange _ _ _ H); revert H
               end; intros; refute_cases.
  - exists g2. split; [assumption |]. split; [assumption |].
    intros r c. rewrite Hcells.
    repeat case_bool_decide; try reflexivity; exfalso;
      repeat match goal with
             | H : _ /\ _ |- _ => destruct H
             | H : cellAt G _ _ = Some _ |- _ => pose proof (Hrange _ _ _ H); revert H
             end; intros; refute_cases.
Qed.

(** The three loops of [rainStep] together. *)
Lemma rainStep_run (G : Grid) (pos : nat) :
  1 <= rows -> hasDims rows cols G ->
  exists g,
    rainStep G pos =
    Ok ({| newGrid := g; hasChanged := true; stepState := None |},
        (pos + Z.to_nat cols + Z.to_nat cols)%nat) /\
    hasDims rows cols g /\
    forall r c,
      cellAt g r c =
      if bool_decide (r = rows - 1 /\ 0 <= c < cols /\ rainClear pos c = true) then Some 0
      else if bool_decide (1 <= r < rows /\ cellAt G (r - 1) c = Some 1) then Some 1
           else if bool_decide (r + 1 < rows /\ cellAt G r c = Some 1) then Some 0
                else if bool_decide (r = 0 /\ 0 <= c < cols /\ rainDrop pos c = true) then Some 1
                     else cellAt G r c.
Proof.
  intros Hrows Hd. unfold rainStep. rewrite copyGrid_id.
  destruct (rainRow_cells 0 1 (5 # 100) G pos Hd ltac:(lia)) as (g1 & Hrun1 & Hd1 & Hc1).
  rewrite Hrun1. simpl bind.
  destruct (rainShift_cells G g1 Hd Hd1 Hrows) as (g2 & Hrun2 & Hd2 & Hc2).
  rewrite Hrun2. simpl bind.
  destruct (rainRow_cells (rows - 1) 0 double_0_3 g2 (pos + Z.to_nat cols)%nat Hd2 ltac:(lia))
    as (g3 & Hrun3 & Hd3 & Hc3).
  rewrite Hrun3. simpl bind.
  exists g3. split; [reflexivity |]. split; [assumption |].
  intros r c. rewrite Hc3, Hc2, Hc1. unfold rainClear, rainDrop. reflexivity.
Qed.

(** X14. One step of Rain on a [rows] x [cols] grid of 0/1 cells with at
    least one row: the step takes two draws per column, one for a new drop
    and one for clearing the bottom row. With at least two rows, a top cell
    is 1 afterwards exactly when it was not live and its drop draw is below
    0.05 (a cell that was live has moved down, also when a new drop fell on
    it); every row strictly between the top and the bottom is the old row
    above it; a bottom cell is 0 when its clearing draw is below the double
    that [0.3] denotes and otherwise 1 exactly when it or the cell above it
    was live. With a single row, a cell is 0 when its clearing draw is below
    that double and otherwise 1 exactly when it was live or its drop draw is
    below 0.05. *)
Theorem rainStep_cells (G : Grid) (pos : nat) :
  1 <= rows -> hasDims rows cols G -> binaryGrid G ->
  exists g,
    rainStep G pos =
    Ok ({| newGrid := g; hasChanged := true; stepState := None |},
        (pos + Z.to_nat cols + Z.to_nat cols)%nat) /\
    hasDims rows cols g /\
    forall r c,
      0 <= r < rows -> 0 <= c < cols ->
      (r = 0 -> 2 <= rows ->
       cellAt g r c = Some (if rainDrop pos c && negb (isLive G 0 c) then 1 else 0)) /\
      (0 < r < rows - 1 -> cellAt g r c = cellAt G (r - 1) c) /\
      (r = rows - 1 -> 2 <= rows ->
       cellAt g r c =
       Some (if rainClear pos c then 0
             else if isLive G (r - 1) c || isLive G r c then 1 else 0)) /\
      (rows = 1 ->
       cellAt g r c =
       Some (if rainClear pos c then 0
             else if rainDrop pos c || isLive G r c then 1 else 0)).
Proof.
  intros Hrows Hd Hb.
  destruct (rainStep_run G pos Hrows Hd) as (g & Hstep & Hdg & Hcells).
  exists g. split; [assumption |]. split; [assumption |].
  intros r c Hr Hc.
  assert (Hbin : forall r0, 0 <= r0 < rows ->
                            cellAt G r0 c = Some 0 \/ cellAt G r0 c = Some 1).
  { intros r0 Hr0. destruct (cellAt_in_range rows cols G r0 c Hd Hr0 Hc) as [v Hv].
    destruct (proj1 (binaryGrid_cellAt G) Hb _ _ _ Hv) as [-> | ->]; auto. }
  rewrite Hcells. unfold isLive.
  split; [| split; [| split]].
  - intros -> H2. destruct (Hbin 0 ltac:(lia)) as [H0 | H0]; rewrite H0;
      destruct (rainDrop pos c) eqn:Hdrop; simpl;
      repeat case_bool_decide; try reflexivity; exfalso; refute_cases.
  - intros Hint.
    destruct (Hbin r ltac:(lia)) as [H0 | H0], (Hbin (r - 1) ltac:(lia)) as [H1 | H1];
      rewrite H0, H1; repeat case_bool_decide; try reflexivity; exfalso; refute_cases.
  - intros -> H2.
    destruct (Hbin (rows - 1) ltac:(lia)) as [H0 | H0],
             (Hbin (rows - 1 - 1) ltac:(lia)) as [H1 | H1];
      rewrite H0, H1; destruct (rainClear pos c) eqn:Hclear; simpl;
      repeat case_bool_decide; try reflexivity; exfalso; refute_cases.
  - intros H1. assert (r = 0) by lia. subst r.
    destruct (Hbin 0 ltac:(lia)) as [H0 | H0]; rewrite H0;
      destruct (rainClear pos c) eqn:Hclear, (rainDrop pos c) eqn:Hdrop; simpl;
      repeat case_bool_decide; try reflexivity; exfalso; refute_cases.
Qed.

(** ** Ripple *)

Lemma drawRipple_cells (rp : Ripple) (g : Grid) :
  hasDims rows cols g ->
  exists g',
    drawRipple rp g = Ok g' /\ hasDims rows cols g' /\
    forall r c, 0 <= r < rows -> 0 <= c < cols ->
                cellAt g' r c = if onRing rp r c then Some 1 else cellAt g r c.
Proof.
  intros Hd.
  pose (Inv := fun (i j : Z) (g0 : Grid) =>
                 hasDims rows cols g0 /\
                 forall r c,
                   cellAt g0 r c =
                   if bool_decide (passed i j r c /\ onRing rp r c = true)
                   then Some 1 else cellAt g r c).
  unfold drawRipple.
  destruct (forRange_inv (fun i => Inv i 0)
              (fun row g1 =>
                 forRange 0 cols
                   (fun col g0 =>
                      if nearRing ((row - centerRow rp) ^ 2 + (col - centerCol rp) ^ 2) (radius rp)
                      then setCell g0 row col 1
                      else Ok g0)
                   g1)
              0 rows g) as (g' & Hrun & Hd' & Hcells).
  - destruct Hd. lia.
  - split; [assumption |]. intros r c.
    case_bool_decide as H; [| reflexivity]. destruct H as [H _]. unfold passed in H. lia.
  - intros i g1 Hi HI.
    destruct (forRange_inv (fun j => Inv i j)
                (fun col g0 =>
                   if nearRing ((i - centerRow rp) ^ 2 + (col - centerCol rp) ^ 2) (radius rp)
                   then setCell g0 i col 1
                   else Ok g0)
                0 cols g1) as (g2 & Hrun2 & HI2).
    + destruct HI as [Hd1 _]. apply (hasDims_cols_nonneg g1 i Hd1 Hi).
    + assumption.
    + intros j g0 Hj [Hd0 Hc0]. fold (onRing rp i j).
      destruct (onRing rp i j) eqn:Hring.
      * destruct (setCell_spec rows cols g0 i j 1 Hd0) as (g3 & Hset & Hd3 & Hg3); [lia | lia |].
        exists g3. split; [assumption |]. split; [assumption |].
        intros r c. rewrite Hg3, Hc0.
        case_bool_decide as Hrc.
        -- destruct Hrc as [-> ->]. case_bool_decide as H2; [reflexivity |].
           exfalso. apply H2. split; [apply passed_next_col; right; lia | assumption].
        -- repeat case_bool_decide; try reflexivity; exfalso.
           ++ match goal with H : ~ (passed _ _ _ _ /\ _) |- _ => apply H end.
              destruct H as [Hp Hr]. split; [apply passed_next_col; left; exact Hp | exact Hr].
           ++ match goal with H : ~ (passed _ _ _ _ /\ _) |- _ => apply H end.
              destruct H0 as [Hp Hr]. apply passed_next_col in Hp.
              destruct Hp as [Hp | Hp]; [split; assumption | lia].
      * exists g0. split; [reflexivity |]. split; [assumption |].
        intros r c. rewrite Hc0.
        repeat case_bool_decide; try reflexivity; exfalso.
        -- match goal with H : ~ (passed _ _ _ _ /\ _) |- _ => apply H end.
           destruct H as [Hp Hr]. split; [apply passed_next_col; left; exact Hp | exact Hr].
        -- match goal with H : ~ (passed _ _ _ _ /\ _) |- _ => apply H end.
           destruct H0 as [Hp Hr]. apply passed_next_col in Hp.
           destruct Hp as [Hp | (-> & -> & _)]; [split; assumption | congruence].
    + exists g2. split; [assumption |]. destruct HI2 as [Hd2 Hc2]. split; [assumption |].
      intros r c. rewrite Hc2.
      repeat case_bool_decide; try reflexivity; exfalso.
      * match goal with H : ~ (passed _ _ _ _ /\ _) |- _ => apply H end.
        destruct H as [Hp Hr]. split; [apply passed_next_row; [lia | exact Hp] | exact Hr].
      * match goal with H : ~ (passed _ _ _ _ /\ _) |- _ => apply H end.
        destruct H0 as [Hp Hr]. split; [apply (passed_next_row i); [lia | exact Hp] | exact Hr].
  - exists g'. split; [assumption |]. split; [assumption |].
    intros r c Hr Hc. rewrite Hcells.
    destruct (onRing rp r c) eqn:Hring; case_bool_decide as H; try reflexivity; exfalso.
    + apply H. split; [unfold passed; lia | reflexivity].
    + destruct H as [_ H]. discriminate.
Qed.

Lemma survivors_cons (r0 : Ripple) (l : list Ripple) :
  survivors (r0 :: l) =
  if expired (growRipple r0) then survivors l else growRipple r0 :: survivors l.
Proof.
  unfold survivors. rewrite fmap_cons, filter_cons.
  destruct (expired (growRipple r0)); destruct (decide _); congruence.
Qed.

(** X15. One step of Ripple, for sizes that [new Array] accepts: the ripples
    of the state it returns are the ripples it started from -- those of the
    state it was given, and one more when the first draw is below 0.05, with
    radius 0 and with the centre and the maximal radius that the rounding
    products [Math.floor(draw * rows)], [Math.floor(draw * cols)] and
    [draw * 15 + 5] of the next three draws give -- each with its radius
    grown by 0.5 and its centre and maximum unchanged, without those whose
    radius now exceeds their maximum; and the new grid, which does not depend
    on the current grid, has a 1 exactly at the cells on the ring of one of
    these remaining ripples and 0 elsewhere. *)
Theorem rippleStep_cells (G : Grid) (state : PatternState) (pos : nat) :
  arraySize rows -> arraySize cols ->
  exists g,
    rippleStep G state pos =
    Ok ({| newGrid := g; hasChanged := true;
           stepState :=
             Some {| ripples := Some (survivors (fst (spawnRipples state pos)));
                     time := None |} |},
        snd (spawnRipples state pos)) /\
    hasDims rows cols g /\
    forall r c,
      0 <= r < rows -> 0 <= c < cols ->
      cellAt g r c =
      Some (if bool_decide (Exists (fun rp => onRing rp r c = true)
                                   (survivors (fst (spawnRipples state pos))))
            then 1 else 0).
Proof.
  intros Hrows Hcols. unfold rippleStep. rewrite (createEmptyGrid_ok Hrows Hcols).
  cbn [bind]. cbv zeta.
  destruct (zeroGrid_dims_binary Hrows Hcols) as [Hd _].
  fold (spawnRipples state pos).
  set (l0 := fst (spawnRipples state pos)).
  pose (Inv := fun (j : Z) (st : list Ripple * Grid) =>
                 fst st = take (Z.to_nat (j + 1)) l0 ++ survivors (drop (Z.to_nat (j + 1)) l0) /\
                 hasDims rows cols (snd st) /\
                 forall r c,
                   0 <= r < rows -> 0 <= c < cols ->
                   cellAt (snd st) r c =
                   Some (if bool_decide (Exists (fun rp => onRing rp r c = true)
                                                (survivors (drop (Z.to_nat (j + 1)) l0)))
                         then 1 else 0)).
  match goal with
  | |- context [forDown ?a ?b ?body (l0, zeroGrid)] =>
      destruct (forDown_inv Inv body a b (l0, zeroGrid)) as ([rs g'] & Hrun & Hrs & Hd' & Hcells)
  end.
  - lia.
  - unfold Inv. cbn [fst snd].
    replace (Z.to_nat (Z.of_nat (length l0) - 1 + 1)) with (length l0) by lia.
    rewrite take_ge, drop_all by lia. split; [rewrite app_nil_r; reflexivity |].
    split; [assumption |].
    intros r c Hr Hc. rewrite zeroGrid_cellAt by (destruct Hrows, Hcols; lia).
    case_bool_decide as H; [| reflexivity]. inversion H.
  - intros j [rs g] Hj (Hrs & Hdg & Hcg). unfold Inv. cbn [fst snd] in *.
    replace (Z.to_nat (j + 1)) with (S (Z.to_nat j)) in * by lia.
    replace (Z.to_nat (j - 1 + 1)) with (Z.to_nat j) by lia.
    destruct (lookup_lt_is_Some_2 l0 (Z.to_nat j)) as [r0 Hr0]; [lia |].
    rewrite (take_S_r l0 _ r0 Hr0), <- app_assoc in Hrs. simpl in Hrs.
    assert (Hlen : length (take (Z.to_nat j) l0) = Z.to_nat j)
      by (apply length_take_le; lia).
    assert (Hidx : index rs j = Some r0).
    { apply index_Some. split; [lia |]. rewrite Hrs.
      apply list_lookup_middle. symmetry. exact Hlen. }
    rewrite Hidx. fold (growRipple r0). fold (expired (growRipple r0)).
    rewrite (drop_S l0 r0 _ Hr0), survivors_cons.
    destruct (expired (growRipple r0)) eqn:Hexp.
    + eexists. split; [reflexivity |]. cbn [fst snd]. split; [| split; assumption].
      rewrite Hrs. rewrite <- Hlen at 1. apply delete_middle.
    + destruct (drawRipple_cells (growRipple r0) g Hdg) as (g1 & Hdraw & Hd1 & Hc1).
      rewrite Hdraw. simpl bind. eexists. split; [reflexivity |]. cbn [fst snd].
      split; [| split; [assumption |]].
      * rewrite Hrs. rewrite <- Hlen at 1.
        replace (length (take (Z.to_nat j) l0)) with (length (take (Z.to_nat j) l0) + 0)%nat
          by lia.
        rewrite insert_app_r. reflexivity.
      * intros r c Hr Hc. rewrite (Hc1 r c Hr Hc), (Hcg r c Hr Hc).
        destruct (onRing (growRipple r0) r c) eqn:Hring.
        -- case_bool_decide as H; [reflexivity |]. exfalso. apply H.
           apply Exists_cons. left. assumption.
        -- repeat case_bool_decide; try reflexivity; exfalso.
           ++ match goal with H : ~ Exists _ (_ :: _) |- _ => apply H end.
              apply Exists_cons. right. assumption.
           ++ match goal with H : Exists _ (_ :: _) |- _ => apply Exists_cons in H;
                                                            destruct H as [H | H] end;
                [congruence | contradiction].
  - unfold Inv in *. cbn [fst snd] in *. rewrite Hrun. cbn [bind].
    replace (Z.to_nat (-1 + 1)) with O in * by lia.
    rewrite take_0, drop_0 in Hrs. simpl in Hrs. rewrite drop_0 in Hcells. subst rs.
    exists g'. split; [reflexivity |]. split; assumption.
Qed.

(** ** The letters of the calendar *)


Lemma handleLetterClick_start (i : Z) (p : AnimationPattern) (c : Calendar) :
  letterClickDebounce c = false ->
  index animateLetterPatterns i = Some p ->
  isRunning (animationState (engine c)) = false ->
  handleLetterClick i c
  = Some ({| engine := after (startAnimation p i (engine c)); showRealData := false;
             letterClickDebounce := true |}, None).
Proof.
  intros Hd Hp Hrun. unfold handleLetterClick. rewrite Hd, Hp, Hrun. reflexivity.
Qed.





Lemma tick_stops_keeps_grid (eager : bool) (e : Engine) :
  isRunning (animationState e) = true ->
  isRunning (animationState (after (tick eager e))) = false ->
  grid (after (tick eager e)) = grid e /\ generation (animationState (after (tick eager e)))
                                   = generation (animationState e).
Proof.
  intros Hrun Hstop.
  destruct (tick_cases eager e)
    as [[Hnot _] | [_ [(err & _ & Ht) | (res & pos & _ & [[_ Ht] | [_ Ht]])]]];
    [congruence | | |]; rewrite Ht in Hstop |- *; simpl in *;
    try (split; reflexivity); congruence.
Qed.

(** X18. After the animation has stopped by itself (a stable Game of Life
    or the generation limit), the letter that started it is still the active
    letter, and a click on it does not restore the real data: it starts the
    animation of that letter again, from generation 0 and from the grid the
    animation stopped on. *)
Theorem auto_stopped_letter_restarts (eager : bool) (elapsed a : Z) (p : AnimationPattern) (c : Calendar) :
  isRunning (animationState (engine c)) = true ->
  activeLetterIndex (animationState (engine c)) = Some a ->
  index animateLetterPatterns a = Some p ->
  let e1 := after (animate eager elapsed (engine c)) in
  isRunning (animationState e1) = false ->
  activeLetterIndex (animationState e1) = Some a /\
  grid e1 = grid (engine c) /\
  exists c2,
    handleLetterClick a {| engine := e1; showRealData := showRealData c;
                           letterClickDebounce := false |} = Some (c2, None) /\
    isRunning (animationState (engine c2)) = true /\
    currentPattern (animationState (engine c2)) = p /\
    generation (animationState (engine c2)) = 0 /\
    activeLetterIndex (animationState (engine c2)) = Some a /\
    grid (engine c2) = grid (engine c) /\
    showRealData c2 = false.
Proof.
  intros Hrun Ha Hp e1 Hstop.
  assert (Hgrid : grid e1 = grid (engine c)).
  { subst e1. destruct (animate_cases eager elapsed (engine c)) as [E | E]; rewrite E in Hstop |- *.
    - apply tick_stops_keeps_grid; assumption.
    - simpl in Hstop. congruence. }
  assert (Hact : activeLetterIndex (animationState e1) = Some a).
  { subst e1. destruct (animate_frame eager elapsed (engine c)) as (_ & -> & _). exact Ha. }
  split; [exact Hact |]. split; [exact Hgrid |].
  eexists. split; [apply (handleLetterClick_start a p); [reflexivity | exact Hp | exact Hstop] |].
  simpl. repeat split. exact Hgrid.
Qed.

(** ** The colour levels *)

(** X19. The level of a cell is one of 0..4, it grows with the value, it is 0
    exactly for the values that are not positive, and the thresholds are 1, 3,
    6 and 11. *)
Theorem level_spec (v w : Z) :
  0 <= level v <= 4 /\
  (v <= w -> level v <= level w) /\
  (level v = 0 <-> v <= 0) /\
  (level v = 1 <-> 1 <= v <= 2) /\
  (level v = 2 <-> 3 <= v <= 5) /\
  (level v = 3 <-> 6 <= v <= 10) /\
  (level v = 4 <-> 11 <= v).
Proof.
  unfold level.
  destruct (Z.ltb_spec 0 v), (Z.ltb_spec 10 v), (Z.ltb_spec 5 v), (Z.ltb_spec 2 v),
    (Z.ltb_spec 0 w), (Z.ltb_spec 10 w), (Z.ltb_spec 5 w), (Z.ltb_spec 2 w);
    repeat split; intros; lia.
Qed.

(** X20. While the animation grid is displayed, in every state the engine
    can reach (with at least one row and one column) each of the
    [rows] x [cols] cells that are drawn holds 0 or 1 and is drawn with the
    level equal to its value: an animation uses the two lowest levels
    only. *)
Theorem animation_levels (dataGrid : Grid) (c : Calendar) (r col : Z) :
  1 <= rows -> 1 <= cols -> reachable (engine c) ->
  showRealData c = false ->
  0 <= r < rows -> 0 <= col < cols ->
  exists v, cellAt (displayedGrid dataGrid c) r col = Some v /\
            (v = 0 \/ v = 1) /\ level v = v.
Proof.
  intros Hr1 Hc1 Hreach Hshow Hr Hc.
  destruct (reachable_wellFormed _ Hr1 Hc1 Hreach) as (_ & _ & (Hd & Hb) & _).
  unfold displayedGrid. rewrite Hshow.
  destruct (cellAt_in_range _ _ _ r col Hd Hr Hc) as [v Hv].
  exists v. split; [exact Hv |].
  pose proof (proj1 (binaryGrid_cellAt _) Hb r col v Hv) as Hv01.
  split; [exact Hv01 |]. destruct Hv01 as [-> | ->]; reflexivity.
Qed.
End Hook.

(** * The properties on sample inputs *)

Lemma arraySize_small (n : Z) : 0 <= n < 100 -> arraySize n.
Proof. unfold arraySize. lia. Qed.

Lemma binaryGrid_check (g : Grid) :
  forallb (forallb (fun v => (v =? 0) || (v =? 1))) g = true -> binaryGrid g.
Proof.
  intros H. apply Forall_forall. intros row Hrow. apply Forall_forall. intros v Hv.
  rewrite forallb_forall in H. apply list_elem_of_In in Hrow, Hv.
  specialize (H row Hrow). rewrite forallb_forall in H. specialize (H v Hv).
  apply orb_prop in H as [H | H]; apply Z.eqb_eq in H; auto.
Qed.

(** The Game of Life rules at the blinker. *)
Lemma gameOfLifeStep_rules_blinker :
  arraySize 3 /\ hasDims 3 3 blinker /\ binaryGrid blinker /\
  exists G' ch,
    gameOfLifeStep 3 3 blinker = Ok {| newGrid := G'; hasChanged := ch; stepState := None |} /\
    hasDims 3 3 G' /\
    (forall r c,
        0 <= r < 3 -> 0 <= c < 3 ->
        (cellAt blinker r c = Some 1 ->
         (cellAt G' r c = Some 1 <->
          liveNeighbors blinker r c = 2 \/ liveNeighbors blinker r c = 3)) /\
        (cellAt blinker r c = Some 0 ->
         (cellAt G' r c = Some 1 <-> liveNeighbors blinker r c = 3)) /\
        (cellAt G' r c = Some 0 \/ cellAt G' r c = Some 1)) /\
    (ch = true <-> exists r c, cellAt G' r c <> cellAt blinker r c).
Proof.
  assert (Hs : arraySize 3) by (apply arraySize_small; lia).
  assert (Hd : hasDims 3 3 blinker) by (split; [reflexivity | repeat constructor]).
  assert (Hb : binaryGrid blinker) by (apply binaryGrid_check; reflexivity).
  split; [exact Hs |]. split; [exact Hd |]. split; [exact Hb |].
  exact (gameOfLifeStep_rules 3 3 blinker Hs Hs Hd Hb).
Defined.

(** The Game of Life on a grid of arbitrary integers. *)
Lemma gameOfLifeStep_total_binary_oddValues :
  arraySize 2 /\ hasDims 2 2 oddValues /\
  exists res,
    gameOfLifeStep 2 2 oddValues = Ok res /\
    hasDims 2 2 (newGrid res) /\ binaryGrid (newGrid res).
Proof.
  assert (Hs : arraySize 2) by (apply arraySize_small; lia).
  assert (Hd : hasDims 2 2 oddValues) by (split; [reflexivity | repeat constructor]).
  split; [exact Hs |]. split; [exact Hd |].
  exact (gameOfLifeStep_total_binary 2 2 oddValues Hs Hs Hd).
Defined.

(** Rule 30 on the seed of a 3 x 5 grid: three live cells in the middle row. *)
Lemma rule30Step_spec_seed3x5 :
  hasDims 3 5 seed3x5 /\ binaryGrid seed3x5 /\
  exists G',
    rule30Step 3 5 seed3x5 = Ok {| newGrid := G'; hasChanged := true; stepState := None |} /\
    forall r c, 0 <= r < 3 -> 0 <= c < 5 ->
                cellAt G' r c =
                Some (if bool_decide (r = 3 / 2 /\ 5 / 2 - 1 <= c <= 5 / 2 + 1) then 1 else 0).
Proof.
  assert (Hd : hasDims 3 5 seed3x5) by (split; [reflexivity | repeat constructor]).
  assert (Hb : binaryGrid seed3x5) by (apply binaryGrid_check; reflexivity).
  split; [exact Hd |]. split; [exact Hb |].
  destruct (rule30Step_spec 3 5 seed3x5 ltac:(lia) Hd Hb) as (G' & Hstep & _ & _ & _ & Hseed).
  exists G'. split; [exact Hstep |].
  apply Hseed; [lia |].
  intros r c Hr Hc.
  assert (Hrs : r = 0 \/ r = 1 \/ r = 2) by lia.
  assert (Hcs : c = 0 \/ c = 1 \/ c = 2 \/ c = 3 \/ c = 4) by lia.
  destruct Hrs as [-> | [-> | ->]], Hcs as [-> | [-> | [-> | [-> | ->]]]]; reflexivity.
Defined.

(** C7, as stated, fails on a 1 x 3 grid: the seed is [0,1,0], its two
    neighbours of the centre are edge columns, and the step leaves the row as
    it is instead of producing [1,1,1]. *)
Lemma rule30Step_seed_too_narrow :
  rule30Seed 1 3 = Ok [[0; 1; 0]] /\
  hasDims 1 3 [[0; 1; 0]] /\ binaryGrid [[0; 1; 0]] /\
  rule30Step 1 3 [[0; 1; 0]] =
    Ok {| newGrid := [[0; 1; 0]]; hasChanged := true; stepState := None |} /\
  cellAt [[0; 1; 0]] (1 / 2) (3 / 2 - 1) <> Some 1.
Proof.
  split; [reflexivity |]. split; [split; [reflexivity | repeat constructor] |].
  split; [apply binaryGrid_check; reflexivity |]. split; [reflexivity |]. discriminate.
Qed.

(** A step of Noise on a 2 x 2 grid of arbitrary integers, and a step of
    Rain on the 2 x 2 grid of zeros. *)
Lemma executePattern_binary_rain :
  arraySize 2 /\ hasDims 2 2 zeros2x2 /\ binaryGrid zeros2x2 /\
  (exists res pos',
     executePattern 2 2 highRandom neverLive neverLive neverNear exactFloor exactRadius
                    oddValues noise emptyPatternState 0 = Ok (res, pos') /\
     hasDims 2 2 (newGrid res) /\ binaryGrid (newGrid res)) /\
  (exists res pos',
     executePattern 2 2 highRandom neverLive neverLive neverNear exactFloor exactRadius
                    zeros2x2 rain emptyPatternState 0 = Ok (res, pos') /\
     hasDimsAtLeast 2 2 (newGrid res) /\ binaryGrid (newGrid res)).
Proof.
  assert (Hs : arraySize 2) by (apply arraySize_small; lia).
  assert (Hd : hasDims 2 2 zeros2x2) by (split; [reflexivity | repeat constructor]).
  assert (Hb : binaryGrid zeros2x2) by (apply binaryGrid_check; reflexivity).
  split; [exact Hs |]. split; [exact Hd |]. split; [exact Hb |]. split.
  - apply (proj1 (executePattern_binary 2 2 highRandom neverLive neverLive neverNear
                    exactFloor exactRadius oddValues noise emptyPatternState 0%nat));
      [right; right; right; reflexivity | exact Hs | exact Hs].
  - apply (proj2 (executePattern_binary 2 2 highRandom neverLive neverLive neverNear
                    exactFloor exactRadius zeros2x2 rain emptyPatternState 0%nat));
      [left; reflexivity | lia | exact Hd | exact Hb].
Defined.

(** C3, as stated, fails on a grid that holds another integer: Rule 30 and
    Rain on the 1 x 1 grid [[5]] return [[5]]. It fails on the grid without
    rows too: Rule 30 with three columns throws there. *)
Lemma executePattern_keeps_other_values :
  hasDims 1 1 [[5]] /\
  executePattern 1 1 highRandom neverLive neverLive neverNear exactFloor exactRadius
                 [[5]] rule30 emptyPatternState 0 =
    Ok ({| newGrid := [[5]]; hasChanged := true; stepState := None |}, 0%nat) /\
  executePattern 1 1 highRandom neverLive neverLive neverNear exactFloor exactRadius
                 [[5]] rain emptyPatternState 0 =
    Ok ({| newGrid := [[5]]; hasChanged := true; stepState := None |}, 2%nat) /\
  ~ binaryGrid [[5]] /\
  hasDims 0 3 [] /\
  executePattern 0 3 highRandom neverLive neverLive neverNear exactFloor exactRadius
                 [] rule30 emptyPatternState 0 = Err TypeError.
Proof.
  split; [split; [reflexivity | repeat constructor] |]. split; [reflexivity |].
  split; [reflexivity |]. split.
  - intros H. inversion H as [| ? ? Hrow _]. inversion Hrow as [| ? ? Hv _]. lia.
  - split; [split; [reflexivity | constructor] | reflexivity].
Qed.

(** The sample run ends in [blockStopped], through [blockRunning]. *)
Lemma blockRun_states :
  useAnimationPatterns 2 2 = Ok (firstRender zeros2x2) /\
  run 2 2 100 500 highRandom neverLive neverLive neverNear exactFloor exactRadius
      [StartAnimation rule30 4; ChangePattern gameOfLife] (firstRender zeros2x2) = blockRunning /\
  run 2 2 100 500 highRandom neverLive neverLive neverNear
      exactFloor exactRadius blockRun (firstRender zeros2x2)
  = blockStopped.
Proof. repeat split; reflexivity. Qed.

Lemma blockStopped_reachable :
  reachable 2 2 100 500 highRandom neverLive neverLive neverNear
      exactFloor exactRadius blockStopped.
Proof.
  destruct blockRun_states as (Hinit & _ & <-).
  apply reachable_run. apply reachable_first. exact Hinit.
Qed.

Lemma blockRunning_reachable :
  reachable 2 2 100 500 highRandom neverLive neverLive neverNear
      exactFloor exactRadius blockRunning.
Proof.
  destruct blockRun_states as (Hinit & <- & _).
  apply reachable_run. apply reachable_first. exact Hinit.
Qed.

(** C1, as stated, fails in a state the engine reaches: after the automatic
    stop of [blockRun] the live grid is the block and the baseline of the
    first start is still present, so a new start keeps that baseline and the
    following stop puts the grid of zeros back, not the block. *)
Lemma start_stop_restores_older_baseline :
  reachable 2 2 100 500 highRandom neverLive neverLive neverNear
      exactFloor exactRadius blockStopped /\
  startGrid blockStopped = grid blockStopped /\
  Forall whileRunning [] /\
  grid (after (stopAnimation
                 (run 2 2 100 500 highRandom neverLive neverLive neverNear exactFloor exactRadius []
                      (after (startAnimation wave 2 blockStopped))))) = zeros2x2 /\
  grid (after (stopAnimation
                 (run 2 2 100 500 highRandom neverLive neverLive neverNear exactFloor exactRadius []
                      (after (startAnimation wave 2 blockStopped))))) <> grid blockStopped.
Proof.
  split; [exact blockStopped_reachable |]. split; [reflexivity |]. split; [constructor |].
  split; [reflexivity |]. discriminate.
Qed.

(** The grid that [startAnimation] copies is the one of its closure: when the
    grid was randomized after the callback was created, start and stop put
    the grid of the first render back. *)
Lemma start_copies_closure_grid :
  grid (run 2 2 100 500 highRandom neverLive neverLive neverNear
      exactFloor exactRadius [RandomizeGrid]
            (firstRender zeros2x2)) = block /\
  grid (run 2 2 100 500 highRandom neverLive neverLive neverNear exactFloor exactRadius
            [RandomizeGrid; StartAnimation wave 2; StopAnimation]
            (firstRender zeros2x2)) = zeros2x2.
Proof. split; reflexivity. Qed.

(** From the first render, start, a pattern change and two ticks, then stop:
    the grid of the first render is back. *)
Lemma start_stop_restores_firstRender :
  Forall whileRunning noiseRun /\
  grid (after (stopAnimation
                 (run 2 2 100 500 highRandom neverLive neverLive neverNear
                     exactFloor exactRadius noiseRun
                      (after (startAnimation noise 1 (firstRender zeros2x2))))))
  = grid (firstRender zeros2x2).
Proof.
  assert (Hl : Forall whileRunning noiseRun) by (repeat constructor).
  split; [exact Hl |].
  apply (proj2 (start_stop_restores 2 2 100 500 highRandom neverLive neverLive neverNear
      exactFloor exactRadius
                                    (firstRender zeros2x2) noise 1 noiseRun Hl)); reflexivity.
Defined.

(** C2, as stated, fails: after a start from the first render of a 1 x 1
    grid, [stopAnimation] restores the grid and the baseline is still there. *)
Lemma stopAnimation_keeps_baseline :
  baselineGrid (animationState (after (startAnimation gameOfLife 0 (firstRender [[0]]))))
  = Some [[0]] /\
  grid (after (stopAnimation (after (startAnimation gameOfLife 0 (firstRender [[0]]))))) = [[0]] /\
  baselineGrid
    (animationState (after (stopAnimation (after (startAnimation gameOfLife 0 (firstRender [[0]]))))))
  <> None.
Proof. split; [reflexivity |]. split; [reflexivity |]. discriminate. Qed.


(** A tick of Noise counts one generation, whether or not its grid is
    committed. *)
Lemma generation_counts_noise :
  (generation
     (animationState
        (after (animate 2 2 100 500 highRandom neverLive neverLive neverNear
                        exactFloor exactRadius true 200
                        (after (startAnimation noise 1 (firstRender zeros2x2)))))) = 0 + 1 /\
   grid (after (animate 2 2 100 500 highRandom neverLive neverLive neverNear
                        exactFloor exactRadius true 200
                        (after (startAnimation noise 1 (firstRender zeros2x2))))) = block) /\
  (generation
     (animationState
        (after (animate 2 2 100 500 highRandom neverLive neverLive neverNear
                        exactFloor exactRadius false 200
                        (after (startAnimation noise 1 (firstRender zeros2x2)))))) = 0 + 1 /\
   grid (after (animate 2 2 100 500 highRandom neverLive neverLive neverNear
                        exactFloor exactRadius false 200
                        (after (startAnimation noise 1 (firstRender zeros2x2))))) = zeros2x2) /\
  generation
    (animationState
       (after (changePattern 2 2 highRandom wave
                             (after (startAnimation noise 1 (firstRender zeros2x2)))))) = 0.
Proof.
  destruct (generation_counts 2 2 100 500 highRandom neverLive neverLive neverNear
              exactFloor exactRadius
              (after (startAnimation noise 1 (firstRender zeros2x2))))
    as (Hcommit & _ & Hchange & _).
  split; [| split].
  - destruct (Hcommit true 200 {| newGrid := block; hasChanged := true; stepState := None |}
                      4%nat)
      as (Hgen & _ & Hgrid); [lia | reflexivity | reflexivity | reflexivity | reflexivity |].
    split; [exact Hgen | exact Hgrid].
  - destruct (Hcommit false 200 {| newGrid := block; hasChanged := true; stepState := None |}
                      4%nat)
      as (Hgen & _ & Hgrid); [lia | reflexivity | reflexivity | reflexivity | reflexivity |].
    split; [exact Hgen | exact Hgrid].
  - exact (Hchange wave).
Defined.

(** C10 fails on Ripple. On a 2 x 2 grid with a limit of one generation and
    every draw 0.01, Ripple is started after the first render; the first due
    tick starts a ripple and commits generation 1, and the second one stops
    at the limit. The stop changes the pattern state: the step has run
    before the limit is tested, and the radius of the ripple that the state
    holds has gone from 0.5 to 1. *)
Lemma animate_auto_stop_grows_ripples :
  useAnimationPatterns 2 2 = Ok (firstRender zeros2x2) /\
  run 2 2 100 1 lowRandom neverLive neverLive exactRing exactFloor exactRadius
      [StartAnimation ripple 6; Animate true 200] (firstRender zeros2x2) = rippleAtLimit /\
  isRunning (animationState rippleAtLimit) = true /\
  ripples (patternState (animationState rippleAtLimit))
  = Some [ {| centerRow := 0; centerCol := 0; radius := 0 + (1 # 2);
              maxRadius := (1 # 100) * 15 + 5 |} ] /\
  isRunning
    (animationState
       (after (animate 2 2 100 1 lowRandom neverLive neverLive exactRing
                       exactFloor exactRadius true 200 rippleAtLimit))) = false /\
  ripples
    (patternState
       (animationState
          (after (animate 2 2 100 1 lowRandom neverLive neverLive exactRing
                          exactFloor exactRadius true 200 rippleAtLimit))))
  = Some [ {| centerRow := 0; centerCol := 0; radius := 0 + (1 # 2) + (1 # 2);
              maxRadius := (1 # 100) * 15 + 5 |} ] /\
  patternState
    (animationState
       (after (animate 2 2 100 1 lowRandom neverLive neverLive exactRing
                       exactFloor exactRadius true 200 rippleAtLimit)))
  <> patternState (animationState rippleAtLimit).
Proof.
  split; [reflexivity |]. split; [reflexivity |]. split; [reflexivity |].
  split; [reflexivity |]. split; [reflexivity |]. split; [reflexivity |]. discriminate.
Qed.

(** The automatic stop on the running block leaves everything but
    [isRunning] as it was. *)
Lemma animate_auto_stop_frame_block :
  isRunning (animationState blockRunning) = true /\
  isRunning (animationState
               (after (animate 2 2 100 500 highRandom neverLive neverLive neverNear
                               exactFloor exactRadius true 200 blockRunning))) = false /\
  grid (after (animate 2 2 100 500 highRandom neverLive neverLive neverNear
                       exactFloor exactRadius true 200 blockRunning))
  = grid blockRunning /\
  baselineGrid
    (animationState
       (after (animate 2 2 100 500 highRandom neverLive neverLive neverNear
                       exactFloor exactRadius true 200 blockRunning)))
  = baselineGrid (animationState blockRunning) /\
  activeLetterIndex
    (animationState
       (after (animate 2 2 100 500 highRandom neverLive neverLive neverNear
                       exactFloor exactRadius true 200 blockRunning)))
  = activeLetterIndex (animationState blockRunning) /\
  patternState
    (animationState
       (after (animate 2 2 100 500 highRandom neverLive neverLive neverNear
                       exactFloor exactRadius true 200 blockRunning)))
  = patternState (animationState blockRunning).
Proof.
  assert (Hrun : isRunning (animationState blockRunning) = true) by reflexivity.
  assert (Hstop : isRunning
                    (animationState
                       (after (animate 2 2 100 500 highRandom neverLive neverLive neverNear
                                       exactFloor exactRadius true 200 blockRunning)))
                  = false) by reflexivity.
  split; [exact Hrun |]. split; [exact Hstop |].
  destruct (animate_auto_stop_frame 2 2 100 500 highRandom neverLive neverLive neverNear
              exactFloor exactRadius true 200 blockRunning Hrun Hstop)
    as (_ & Hgrid & Hbase & Hletter & _ & _ & Hstate & _).
  split; [exact Hgrid |]. split; [exact Hbase |]. split; [exact Hletter |].
  apply Hstate. discriminate.
Defined.

(** C8, as stated, fails: zero rows are accepted by the first render, and the
    change to Rule 30 then throws a type error. *)
Lemma useAnimationPatterns_accepts_zero_rows :
  0 <= 0 /\
  useAnimationPatterns 0 5 = Ok (firstRender []) /\
  thrown (changePattern 0 5 highRandom rule30 (firstRender [])) = Some TypeError.
Proof. split; [lia |]. split; reflexivity. Qed.

(** The first render with zero columns, and a tick in a reachable state of a
    2 x 2 engine. *)
Lemma construction_unvalidated_samples :
  allocatable 3 0 /\
  (exists e, useAnimationPatterns 3 0 = Ok e /\ grid e = zeroGrid 3 0) /\
  thrown (perform 2 2 100 500 highRandom neverLive neverLive neverNear
      exactFloor exactRadius (Animate true 200)
                  blockRunning) = None.
Proof.
  assert (Ha : allocatable 3 0) by (unfold allocatable, arraySize; lia).
  split; [exact Ha |]. split.
  - exact (proj1 (construction_unvalidated 3 0 100 500 highRandom neverLive neverLive neverNear
      exactFloor exactRadius) Ha).
  - apply (proj2 (proj2 (construction_unvalidated 2 2 100 500 highRandom neverLive neverLive
                                                  neverNear exactFloor exactRadius)));
      [lia | lia | exact blockRunning_reachable].
Defined.

(** ** Ordinal days *)

(** X21. For a day of the month, 1 to 31, [addOrdinalSuffix] appends the
    English ordinal suffix to the decimal text of the day: "st" for 1, 21 and
    31, "nd" for 2 and 22, "rd" for 3 and 23, and "th" for every other day,
    11, 12 and 13 included. *)
Theorem addOrdinalSuffix_day_of_month (day : Z) :
  1 <= day <= 31 ->
  addOrdinalSuffix day
  = String.append (numberToString day)
      (if bool_decide (day ∈ [1; 21; 31]) then "st"
       else if bool_decide (day ∈ [2; 22]) then "nd"
            else if bool_decide (day ∈ [3; 23]) then "rd"
                 else "th")%string.
Proof.
  intros Hday.
  destruct day as [| p | p]; [lia | | lia].
  do 5 (try (destruct p as [p | p |]; try lia; try (vm_compute; reflexivity))).
Qed.

(** ** The further properties on sample inputs *)

(** The block is a still life: the step reports no change and returns it. *)
Lemma gameOfLifeStep_unchanged_iff_block :
  arraySize 2 /\ hasDims 2 2 block /\
  exists res,
    gameOfLifeStep 2 2 block = Ok res /\
    (hasChanged res = false <-> newGrid res = block) /\
    (hasChanged res = false -> gameOfLifeStep 2 2 (newGrid res) = Ok res).
Proof.
  assert (Hs : arraySize 2) by (apply arraySize_small; lia).
  assert (Hd : hasDims 2 2 block) by (split; [reflexivity | repeat constructor]).
  split; [exact Hs |]. split; [exact Hd |].
  exact (gameOfLifeStep_unchanged_iff 2 2 block Hs Hs Hd).
Defined.

(** The first click on the Game of Life after the first render of a 2 x 2
    grid. *)
Lemma gameOfLife_first_start_stops_2x2 :
  useAnimationPatterns 2 2 = Ok (firstRender zeros2x2) /\ 100 < 200 /\
  isRunning
    (animationState
       (after (animate 2 2 100 500 highRandom neverLive neverLive neverNear
           exactFloor exactRadius true 200
                       (after (startAnimation gameOfLife 0 (firstRender zeros2x2))))))
  = false /\
  grid (after (animate 2 2 100 500 highRandom neverLive neverLive neverNear
      exactFloor exactRadius true 200
                       (after (startAnimation gameOfLife 0 (firstRender zeros2x2)))))
  = grid (firstRender zeros2x2) /\
  notifications
    (after (animate 2 2 100 500 highRandom neverLive neverLive neverNear
        exactFloor exactRadius true 200
                    (after (startAnimation gameOfLife 0 (firstRender zeros2x2)))))
  = [Started gameOfLife; Stopped].
Proof.
  assert (Hinit : useAnimationPatterns 2 2 = Ok (firstRender zeros2x2)) by reflexivity.
  split; [exact Hinit |]. split; [lia |].
  destruct (gameOfLife_first_start_stops 2 2 100 500 highRandom neverLive neverLive neverNear
      exactFloor exactRadius
              (firstRender zeros2x2) true 0 200 Hinit ltac:(lia))
    as (_ & Hrun & Hgrid & _ & Hnote).
  split; [exact Hrun |]. split; [exact Hgrid | exact Hnote].
Defined.

(** The running block has an active letter. *)
Lemma running_has_active_letter_block :
  isRunning (animationState blockRunning) = true /\
  activeLetterIndex (animationState blockRunning) <> None.
Proof.
  split; [reflexivity |].
  exact (running_has_active_letter 2 2 100 500 highRandom neverLive neverLive neverNear
      exactFloor exactRadius
           blockRunning blockRunning_reachable eq_refl).
Defined.

(** The grids of the running block. *)
Lemma reachable_grids_fixed_size_block :
  1 <= 2 /\
  (hasDims 2 2 (grid blockRunning) /\ binaryGrid (grid blockRunning)) /\
  (forall b, baselineGrid (animationState blockRunning) = Some b ->
             hasDims 2 2 b /\ binaryGrid b).
Proof.
  split; [lia |].
  exact (reachable_grids_fixed_size 2 2 100 500 highRandom neverLive neverLive neverNear
      exactFloor exactRadius
           blockRunning ltac:(lia) ltac:(lia) blockRunning_reachable).
Defined.

(** The baseline of a run without a renewal of [startAnimation]. *)
Lemma baseline_is_first_render_run :
  useAnimationPatterns 2 2 = Ok (firstRender zeros2x2) /\
  Forall noRenewal [RandomizeGrid; StartAnimation rule30 4; ChangePattern gameOfLife;
                    Animate true 200] /\
  baselineGrid
    (animationState
       (run 2 2 100 500 highRandom neverLive neverLive neverNear exactFloor exactRadius
            [RandomizeGrid; StartAnimation rule30 4; ChangePattern gameOfLife; Animate true 200]
            (firstRender zeros2x2))) <> None /\
  grid (after (stopAnimation
                 (run 2 2 100 500 highRandom neverLive neverLive neverNear exactFloor exactRadius
                      [RandomizeGrid; StartAnimation rule30 4; ChangePattern gameOfLife;
                       Animate true 200]
                      (firstRender zeros2x2))))
  = zeroGrid 2 2.
Proof.
  assert (Hinit : useAnimationPatterns 2 2 = Ok (firstRender zeros2x2)) by reflexivity.
  assert (Hl : Forall noRenewal [RandomizeGrid; StartAnimation rule30 4;
                                 ChangePattern gameOfLife; Animate true 200])
    by (repeat constructor).
  assert (Hb : baselineGrid
                 (animationState
                    (run 2 2 100 500 highRandom neverLive neverLive neverNear exactFloor exactRadius
                         [RandomizeGrid; StartAnimation rule30 4; ChangePattern gameOfLife;
                          Animate true 200]
                         (firstRender zeros2x2))) <> None) by discriminate.
  split; [exact Hinit |]. split; [exact Hl |]. split; [exact Hb |].
  destruct (baseline_is_first_render 2 2 100 500 highRandom neverLive neverLive neverNear
      exactFloor exactRadius
              (firstRender zeros2x2) _ Hinit Hl) as (_ & _ & Hstop).
  exact (Hstop Hb).
Defined.

(** With a limit of two generations, Noise runs for two ticks and is stopped
    by the third. *)
Lemma animation_runs_maxGenerations_noise :
  reachable 2 2 100 2 highRandom neverLive neverLive neverNear exactFloor exactRadius
            (firstRender zeros2x2) /\
  (isRunning
     (animationState
        (ticks 2 2 100 2 highRandom neverLive neverLive neverNear exactFloor exactRadius
               [true; false] 200
               (after (startAnimation noise 1 (firstRender zeros2x2))))) = true /\
   generation
     (animationState
        (ticks 2 2 100 2 highRandom neverLive neverLive neverNear exactFloor exactRadius
               [true; false] 200
               (after (startAnimation noise 1 (firstRender zeros2x2))))) = 2) /\
  (isRunning
     (animationState
        (ticks 2 2 100 2 highRandom neverLive neverLive neverNear exactFloor exactRadius
               [true; false; true; true; false] 200
               (after (startAnimation noise 1 (firstRender zeros2x2))))) = false /\
   generation
     (animationState
        (ticks 2 2 100 2 highRandom neverLive neverLive neverNear exactFloor exactRadius
               [true; false; true; true; false] 200
               (after (startAnimation noise 1 (firstRender zeros2x2))))) = 2).
Proof.
  assert (Hreach : reachable 2 2 100 2 highRandom neverLive neverLive neverNear
                     exactFloor exactRadius (firstRender zeros2x2))
    by (apply reachable_first; reflexivity).
  split; [exact Hreach |]. split.
  - apply (animation_runs_maxGenerations 2 2 100 2 highRandom neverLive neverLive neverNear
             exactFloor exactRadius (firstRender zeros2x2) noise 1 200 [true; false]
             ltac:(lia) ltac:(lia) ltac:(lia) ltac:(lia) Hreach ltac:(discriminate)).
    simpl. lia.
  - apply (animation_runs_maxGenerations 2 2 100 2 highRandom neverLive neverLive neverNear
             exactFloor exactRadius (firstRender zeros2x2) noise 1 200
             [true; false; true; true; false]
             ltac:(lia) ltac:(lia) ltac:(lia) ltac:(lia) Hreach ltac:(discriminate)).
    simpl. lia.
Defined.

(** A random 2 x 2 grid from alternating draws. *)
Lemma createRandomGrid_cells_mixed :
  arraySize 2 /\
  exists g,
    createRandomGrid 2 2 mixedRandom 0 = Ok (g, 4%nat) /\
    hasDims 2 2 g /\
    forall r c,
      0 <= r < 2 -> 0 <= c < 2 ->
      cellAt g r c
      = Some (if Qgt_bool (mixedRandom (0 + Z.to_nat r * Z.to_nat 2 + Z.to_nat c)) (7 # 10)
              then 1 else 0).
Proof.
  assert (Hs : arraySize 2) by (apply arraySize_small; lia).
  split; [exact Hs |].
  exact (createRandomGrid_cells 2 2 mixedRandom 0 Hs Hs).
Defined.

(** A step of Noise from alternating draws. *)
Lemma noiseStep_cells_mixed :
  arraySize 2 /\
  exists g,
    noiseStep 2 2 mixedRandom block 3
    = Ok ({| newGrid := g; hasChanged := true; stepState := None |}, 7%nat) /\
    hasDims 2 2 g /\
    forall r c,
      0 <= r < 2 -> 0 <= c < 2 ->
      cellAt g r c
      = Some (if Qgt_bool (mixedRandom (3 + Z.to_nat (r * 2 + c))) double_0_8 then 1 else 0).
Proof.
  assert (Hs : arraySize 2) by (apply arraySize_small; lia).
  split; [exact Hs |].
  exact (noiseStep_cells 2 2 mixedRandom block 3 Hs Hs).
Defined.

(** The change to Rule 30 on a 3 x 5 grid seeds the centre cell. *)
Lemma changePattern_seeds_rule30 :
  arraySize 3 /\ arraySize 5 /\
  thrown (changePattern 3 5 highRandom rule30 (firstRender (zeroGrid 3 5))) = None /\
  grid (after (changePattern 3 5 highRandom rule30 (firstRender (zeroGrid 3 5)))) = seed3x5 /\
  (forall r c,
     0 <= r < 3 -> 0 <= c < 5 ->
     cellAt (grid (after (changePattern 3 5 highRandom rule30 (firstRender (zeroGrid 3 5)))))
            r c
     = Some (if bool_decide (r = 3 / 2 /\ c = 5 / 2) then 1 else 0)).
Proof.
  assert (H3 : arraySize 3) by (apply arraySize_small; lia).
  assert (H5 : arraySize 5) by (apply arraySize_small; lia).
  split; [exact H3 |]. split; [exact H5 |].
  destruct (changePattern_seeds 3 5 highRandom rule30 (firstRender (zeroGrid 3 5))
              ltac:(lia) ltac:(lia) H3 H5) as (Hthrown & _ & Hcells & _).
  split; [exact Hthrown |]. split; [reflexivity | exact Hcells].
Defined.

(** The third tick of the wave of stripes on a 2 x 2 grid: it shows the
    frame of time 2 when its updaters run nested, and keeps the grid of the
    second tick, the frame of time 1, otherwise. *)
Lemma wave_spiral_frames_stripes :
  arraySize 2 /\
  generation
    (animationState
       (ticks 2 2 100 500 highRandom stripes neverLive neverNear exactFloor exactRadius
              ([false; true] ++ [true]) 200
              (after (startAnimation wave 2 (firstRender zeros2x2))))) = 3 /\
  (forall r c,
     0 <= r < 2 -> 0 <= c < 2 ->
     cellAt (grid (ticks 2 2 100 500 highRandom stripes neverLive neverNear
                         exactFloor exactRadius ([false; true] ++ [true]) 200
                         (after (startAnimation wave 2 (firstRender zeros2x2))))) r c
     = Some (if stripes r c 2 then 1 else 0)) /\
  grid (ticks 2 2 100 500 highRandom stripes neverLive neverNear exactFloor exactRadius
              ([false; true] ++ [true]) 200
              (after (startAnimation wave 2 (firstRender zeros2x2))))
  = [[1; 0]; [0; 1]] /\
  grid (ticks 2 2 100 500 highRandom stripes neverLive neverNear exactFloor exactRadius
              ([false; true] ++ [false]) 200
              (after (startAnimation wave 2 (firstRender zeros2x2))))
  = grid (ticks 2 2 100 500 highRandom stripes neverLive neverNear exactFloor exactRadius
                [false; true] 200
                (after (startAnimation wave 2 (firstRender zeros2x2)))) /\
  grid (ticks 2 2 100 500 highRandom stripes neverLive neverNear exactFloor exactRadius
              [false; true] 200
              (after (startAnimation wave 2 (firstRender zeros2x2))))
  = [[0; 1]; [1; 0]].
Proof.
  assert (Hs : arraySize 2) by (apply arraySize_small; lia).
  split; [exact Hs |].
  destruct (wave_spiral_frames 2 2 100 500 highRandom stripes neverLive neverNear
              exactFloor exactRadius (firstRender zeros2x2) 2 200 [false; true] true
              Hs Hs ltac:(lia) ltac:(simpl; lia))
    as ((_ & Hgen & Hcells & _) & _).
  destruct (wave_spiral_frames 2 2 100 500 highRandom stripes neverLive neverNear
              exactFloor exactRadius (firstRender zeros2x2) 2 200 [false; true] false
              Hs Hs ltac:(lia) ltac:(simpl; lia))
    as ((_ & _ & _ & Hkept) & _).
  split; [exact Hgen |]. split; [exact (Hcells eq_refl) |]. split; [reflexivity |].
  split; [exact (Hkept eq_refl) | reflexivity].
Defined.

(** The first tick of Rule 30 on a 3 x 5 grid, after a change of pattern
    while the wave runs: the first generation, or still the seed. *)
Lemma rule30_first_generation_3x5 :
  arraySize 3 /\ arraySize 5 /\
  isRunning (animationState (after (startAnimation wave 2 (firstRender (zeroGrid 3 5)))))
  = true /\
  generation
    (animationState
       (after (animate 3 5 100 500 highRandom neverLive neverLive neverNear
                 exactFloor exactRadius false 200
                 (after (changePattern 3 5 highRandom rule30
                           (after (startAnimation wave 2 (firstRender (zeroGrid 3 5)))))))))
  = 1 /\
  (forall r c,
     0 <= r < 3 -> 0 <= c < 5 ->
     cellAt
       (grid
          (after (animate 3 5 100 500 highRandom neverLive neverLive neverNear
                    exactFloor exactRadius true 200
                    (after (changePattern 3 5 highRandom rule30
                              (after (startAnimation wave 2 (firstRender (zeroGrid 3 5)))))))))
       r c
     = Some (if bool_decide (r = 3 / 2 /\ 5 / 2 - 1 <= c <= 5 / 2 + 1) then 1 else 0)) /\
  (forall r c,
     0 <= r < 3 -> 0 <= c < 5 ->
     cellAt
       (grid
          (after (animate 3 5 100 500 highRandom neverLive neverLive neverNear
                    exactFloor exactRadius false 200
                    (after (changePattern 3 5 highRandom rule30
                              (after (startAnimation wave 2 (firstRender (zeroGrid 3 5)))))))))
       r c
     = Some (if bool_decide (r = 3 / 2 /\ c = 5 / 2) then 1 else 0)).
Proof.
  assert (H3 : arraySize 3) by (apply arraySize_small; lia).
  assert (H5 : arraySize 5) by (apply arraySize_small; lia).
  split; [exact H3 |]. split; [exact H5 |]. split; [reflexivity |].
  destruct (rule30_first_generation 3 5 100 500 highRandom neverLive neverLive neverNear
              exactFloor exactRadius
              (after (startAnimation wave 2 (firstRender (zeroGrid 3 5)))) true 200
              ltac:(lia) ltac:(lia) H3 H5 ltac:(lia) ltac:(lia) eq_refl)
    as (_ & _ & Hcells).
  destruct (rule30_first_generation 3 5 100 500 highRandom neverLive neverLive neverNear
              exactFloor exactRadius
              (after (startAnimation wave 2 (firstRender (zeroGrid 3 5)))) false 200
              ltac:(lia) ltac:(lia) H3 H5 ltac:(lia) ltac:(lia) eq_refl)
    as (_ & Hgen & Hseed).
  split; [exact Hgen |]. split; [exact Hcells | exact Hseed].
Defined.

(** Rule 30 started on the first render of a 2 x 2 grid shows nothing. *)
Lemma rule30_first_start_stays_empty_2x2 :
  useAnimationPatterns 2 2 = Ok (firstRender zeros2x2) /\
  grid (ticks 2 2 100 500 highRandom neverLive neverLive neverNear exactFloor exactRadius
              [true; false; true] 200
              (after (startAnimation rule30 4 (firstRender zeros2x2))))
  = zeroGrid 2 2.
Proof.
  assert (Hinit : useAnimationPatterns 2 2 = Ok (firstRender zeros2x2)) by reflexivity.
  split; [exact Hinit |].
  exact (rule30_first_start_stays_empty 2 2 100 500 highRandom neverLive neverLive neverNear
           exactFloor exactRadius (firstRender zeros2x2) 4 200 [true; false; true]
           ltac:(lia) ltac:(lia) Hinit).
Defined.

(** A step of Rain on two drops: the drop of the top row falls, the one of
    the row below reaches the bottom row, and a new drop forms in the second
    column. *)
Lemma rainStep_cells_drops :
  hasDims 3 2 drops /\ binaryGrid drops /\
  exists g,
    rainStep 3 2 mixedRandom drops 0
    = Ok ({| newGrid := g; hasChanged := true; stepState := None |}, 4%nat) /\
    cellAt g 0 1 = Some (if rainDrop mixedRandom 0 1 && negb (isLive drops 0 1) then 1 else 0) /\
    cellAt g 1 0 = cellAt drops 0 0 /\
    cellAt g 2 1 = Some (if rainClear 2 mixedRandom 0 1 then 0
                         else if isLive drops 1 1 || isLive drops 2 1 then 1 else 0).
Proof.
  assert (Hd : hasDims 3 2 drops) by (split; [reflexivity | repeat constructor]).
  assert (Hb : binaryGrid drops) by (apply binaryGrid_check; reflexivity).
  split; [exact Hd |]. split; [exact Hb |].
  destruct (rainStep_cells 3 2 mixedRandom drops 0 ltac:(lia) Hd Hb) as (g & Hstep & _ & Hcells).
  exists g. split; [exact Hstep |].
  split; [| split].
  - destruct (Hcells 0 1 ltac:(lia) ltac:(lia)) as (Htop & _). apply Htop; lia.
  - destruct (Hcells 1 0 ltac:(lia) ltac:(lia)) as (_ & Hmid & _). apply Hmid; lia.
  - destruct (Hcells 2 1 ltac:(lia) ltac:(lia)) as (_ & _ & Hbot & _). apply Hbot; lia.
Defined.

(** A step of Ripple on two ripples with a first draw of 0.01: a ripple is
    added, and the second ripple of the state expires. *)
Lemma rippleStep_cells_twoRipples :
  arraySize 2 /\
  survivors (spawnRipples 2 2 lowRandom exactFloor exactRadius twoRipples 0).1
  = [ {| centerRow := 0; centerCol := 0; radius := 0 + (1 # 2); maxRadius := 1 |};
      {| centerRow := exactFloor (1 # 100) 2; centerCol := exactFloor (1 # 100) 2;
         radius := 0 + (1 # 2); maxRadius := exactRadius (1 # 100) |} ] /\
  exists g,
    rippleStep 2 2 lowRandom withinRadius exactFloor exactRadius block twoRipples 0
    = Ok ({| newGrid := g; hasChanged := true;
             stepState :=
               Some {| ripples :=
                         Some (survivors
                                 (spawnRipples 2 2 lowRandom exactFloor exactRadius
                                               twoRipples 0).1);
                       time := None |} |},
          (spawnRipples 2 2 lowRandom exactFloor exactRadius twoRipples 0).2) /\
    hasDims 2 2 g /\
    forall r c,
      0 <= r < 2 -> 0 <= c < 2 ->
      cellAt g r c
      = Some (if bool_decide
                   (Exists (fun rp => onRing withinRadius rp r c = true)
                           (survivors
                              (spawnRipples 2 2 lowRandom exactFloor exactRadius
                                            twoRipples 0).1))
              then 1 else 0).
Proof.
  assert (Hs : arraySize 2) by (apply arraySize_small; lia).
  split; [exact Hs |]. split; [reflexivity |].
  exact (rippleStep_cells 2 2 lowRandom withinRadius exactFloor exactRadius
           block twoRipples 0 Hs Hs).
Defined.



(** The block stops by itself; a click on its letter then starts Rule 30 on
    the block. *)
Lemma auto_stopped_letter_restarts_block :
  isRunning (animationState (engine calendarRunning)) = true /\
  activeLetterIndex (animationState (engine calendarRunning)) = Some 4 /\
  index animateLetterPatterns 4 = Some rule30 /\
  isRunning
    (animationState
       (after (animate 2 2 100 500 highRandom neverLive neverLive neverNear
           exactFloor exactRadius true 200
                       (engine calendarRunning)))) = false /\
  exists c2,
    handleLetterClick 2 2 highRandom 4
      {| engine := after (animate 2 2 100 500 highRandom neverLive neverLive neverNear
          exactFloor exactRadius true 200
                                  (engine calendarRunning));
         showRealData := showRealData calendarRunning;
         letterClickDebounce := false |} = Some (c2, None) /\
    isRunning (animationState (engine c2)) = true /\
    currentPattern (animationState (engine c2)) = rule30 /\
    generation (animationState (engine c2)) = 0 /\
    activeLetterIndex (animationState (engine c2)) = Some 4 /\
    grid (engine c2) = grid (engine calendarRunning) /\
    showRealData c2 = false.
Proof.
  split; [reflexivity |]. split; [reflexivity |]. split; [reflexivity |].
  split; [reflexivity |].
  pose proof (auto_stopped_letter_restarts 2 2 100 500 highRandom neverLive neverLive neverNear
      exactFloor exactRadius
                true 200 4 rule30 calendarRunning eq_refl eq_refl eq_refl) as H.
  cbv zeta in H. exact (proj2 (proj2 (H eq_refl))).
Defined.

(** The levels of the running block, whatever the real data. *)
Lemma animation_levels_block :
  showRealData calendarRunning = false /\
  exists v, cellAt (displayedGrid [[12; 3]; [0; 7]] calendarRunning) 0 1 = Some v /\
            (v = 0 \/ v = 1) /\ level v = v.
Proof.
  split; [reflexivity |].
  exact (animation_levels 2 2 100 500 highRandom neverLive neverLive neverNear
      exactFloor exactRadius
           [[12; 3]; [0; 7]] calendarRunning 0 1
           ltac:(lia) ltac:(lia) blockRunning_reachable eq_refl ltac:(lia) ltac:(lia)).
Defined.

(** The 22nd. *)
Lemma addOrdinalSuffix_day_of_month_22 :
  1 <= 22 <= 31 /\ addOrdinalSuffix 22 = "22nd"%string.
Proof.
  split; [lia |].
  exact (addOrdinalSuffix_day_of_month 22 ltac:(lia)).
Defined.
